(** * Invoice parser: extraction-and-reconciliation core

    A shallow embedding of [main.py]: the numeric normalizer [fix_float], the
    three line grammars and the merge-window tokenizer, the header-field
    extractors, the reconciliation reports and the acquisition cascade
    [process_pdf], followed by the properties stated about them.

    Conventions of the embedding.
    - A Python [str] is a [string]; a character is a code point below 256.
    - A Python [int] is a [Z].  [int()] on a string keeps the interpreter's
      limit on the number of digits at its default, 4300 ([MAX_STR_DIGITS]);
      the program never changes it.
    - A Python [float] is an IEEE binary64 value ([spec_float] at precision
      53), with round-to-nearest-even arithmetic.
    - A call that may raise returns a [result]: [Ok] with its value or
      [Raise] with the exception.  [except ValueError] is [catch_ValueError];
      [except Exception] and the bare [except], which agree on every exception
      modelled here, are a [match] on the result or [try_or].
    - The regular expressions are abstract syntax trees run by a backtracking
      matcher that explores alternatives in the order of Python's [re].
    - Diagnostic printing ([DEBUG_MODE]) has no effect on any returned value and
      is left out. *)

From Stdlib Require Import ZArith Lia Bool List Ascii String.
From Stdlib Require Import Floats.SpecFloat.
From stdpp Require Import base option gmap strings.
Import ListNotations.

Local Open Scope string_scope.
Local Open Scope Z_scope.

(** ** Exceptions *)

(** The exceptions the modelled code can meet.  [CollaboratorError] stands for
    whatever an external library (Camelot, PyPDF2, pdf2image, EasyOCR) raises;
    all of them derive from [Exception]. *)
Inductive exn : Type :=
| ValueError
| TypeError
| AttributeError
| OverflowError
| IndexError
| CollaboratorError.

Inductive result (A : Type) : Type :=
| Ok (a : A)
| Raise (e : exn).
Arguments Ok {A} a.
Arguments Raise {A} e.

Definition bind {A B : Type} (r : result A) (f : A -> result B) : result B :=
  match r with
  | Ok a => f a
  | Raise e => Raise e
  end.

Notation "x <- r ;; k" := (bind r (fun x => k))
  (at level 100, r at next level, right associativity).

(** [try: r except ValueError: h] *)
Definition catch_ValueError {A : Type} (r : result A) (h : result A) : result A :=
  match r with
  | Raise ValueError => h
  | _ => r
  end.

(** ** Python strings *)

Module PyStr.

Definition LF : ascii := "010"%char.
Definition CR : ascii := "013"%char.
Definition nl : string := String LF "".

Definition code (c : ascii) : N := N_of_ascii c.

(** [str.isspace] on one character. *)
Definition is_space (c : ascii) : bool :=
  let n := code c in
  ((9 <=? n) && (n <=? 13) || (28 <=? n) && (n <=? 32)
   || (n =? 133) || (n =? 160))%N.

Definition is_digit (c : ascii) : bool :=
  let n := code c in ((48 <=? n) && (n <=? 57))%N.

Definition is_upper (c : ascii) : bool :=
  let n := code c in ((65 <=? n) && (n <=? 90))%N.

Definition is_lower (c : ascii) : bool :=
  let n := code c in ((97 <=? n) && (n <=? 122))%N.

(** [str.isalnum] on one character, over the Latin-1 code points. *)
Definition is_alnum (c : ascii) : bool :=
  let n := code c in
  (is_digit c || is_upper c || is_lower c
   || (n =? 170) || (n =? 178) || (n =? 179) || (n =? 181)
   || (n =? 185) || (n =? 186) || (188 <=? n) && (n <=? 190)
   || (192 <=? n) && (n <=? 214) || (216 <=? n) && (n <=? 246)
   || (248 <=? n))%N.

Definition lower (c : ascii) : ascii :=
  if is_upper c then ascii_of_N (code c + 32) else c.

Definition upper (c : ascii) : ascii :=
  if is_lower c then ascii_of_N (code c - 32) else c.

Definition swapcase (c : ascii) : ascii :=
  if is_upper c then lower c else upper c.

Fixpoint lstrip_by (p : ascii -> bool) (s : string) : string :=
  match s with
  | String c s' => if p c then lstrip_by p s' else s
  | EmptyString => EmptyString
  end.

Fixpoint rstrip_by (p : ascii -> bool) (s : string) : string :=
  match s with
  | String c s' =>
      match rstrip_by p s' with
      | EmptyString => if p c then EmptyString else String c EmptyString
      | t => String c t
      end
  | EmptyString => EmptyString
  end.

Definition strip_by (p : ascii -> bool) (s : string) : string :=
  rstrip_by p (lstrip_by p s).

(** [s.strip()] *)
Definition strip (s : string) : string := strip_by is_space s.

Fixpoint mem_chr (c : ascii) (cs : string) : bool :=
  match cs with
  | String d cs' => Ascii.eqb c d || mem_chr c cs'
  | EmptyString => false
  end.

(** [s.strip(chars)] *)
Definition strip_chars (chars s : string) : string :=
  strip_by (fun c => mem_chr c chars) s.

Fixpoint starts_with (p s : string) : bool :=
  match p, s with
  | EmptyString, _ => true
  | String a p', String b s' => Ascii.eqb a b && starts_with p' s'
  | String _ _, EmptyString => false
  end.

(** [s.replace(old, new)] for a non-empty [old]: occurrences are replaced from
    left to right without overlap; [skip] counts the characters of an
    occurrence still to be dropped. *)
Fixpoint replace_from (old new : string) (skip : nat) (s : string) : string :=
  match s with
  | EmptyString => EmptyString
  | String c s' =>
      match skip with
      | S k => replace_from old new k s'
      | O =>
          if starts_with old s
          then new ++ replace_from old new (Nat.pred (String.length old)) s'
          else String c (replace_from old new O s')
      end
  end.

Definition replace (old new s : string) : string := replace_from old new O s.

(** [s.split(sep)] for a one-character separator. *)
Fixpoint split (sep : ascii) (s : string) : list string :=
  match s with
  | EmptyString => [EmptyString]
  | String c s' =>
      if Ascii.eqb c sep then EmptyString :: split sep s'
      else match split sep s' with
           | h :: t => String c h :: t
           | [] => [String c EmptyString]
           end
  end.

(** [sep.join(parts)] *)
Fixpoint join (sep : string) (parts : list string) : string :=
  match parts with
  | [] => EmptyString
  | [p] => p
  | p :: rest => p ++ sep ++ join sep rest
  end.

(** Line boundaries of [str.splitlines] among the code points below 256. *)
Definition is_linebreak (c : ascii) : bool :=
  let n := code c in
  ((10 <=? n) && (n <=? 13) || (28 <=? n) && (n <=? 30) || (n =? 133))%N.

(** [s.splitlines()]: a carriage return followed by a line feed is one
    boundary, and a final boundary opens no empty last line. *)
Fixpoint splitlines (s : string) : list string :=
  match s with
  | EmptyString => []
  | String c s' =>
      if is_linebreak c then
        EmptyString ::
          (match s' with
           | String d s'' =>
               if Ascii.eqb c CR && Ascii.eqb d LF then splitlines s''
               else splitlines s'
           | EmptyString => []
           end)
      else match splitlines s' with
           | h :: t => String c h :: t
           | [] => [String c EmptyString]
           end
  end.

Fixpoint all_chars (p : ascii -> bool) (s : string) : bool :=
  match s with
  | String c s' => p c && all_chars p s'
  | EmptyString => true
  end.

Fixpoint map_chars (f : ascii -> ascii) (s : string) : string :=
  match s with
  | String c s' => String (f c) (map_chars f s')
  | EmptyString => EmptyString
  end.

(** The first [n] characters of [s]. *)
Fixpoint str_take (n : nat) (s : string) : string :=
  match n, s with
  | S k, String c s' => String c (str_take k s')
  | _, _ => EmptyString
  end.

End PyStr.

(** ** Python numbers *)

Module PyNum.
Import PyStr.

Definition float : Type := spec_float.

Definition prec : Z := 53.
Definition emax : Z := 1024.

(** The binary64 value nearest to [p / q] (ties to even), for [0 <= p] and
    [0 < q], with sign bit [neg]: the quotient is computed to at least 64
    significant bits, a sticky bit records a non-zero remainder, and
    [binary_normalize] rounds to the format (overflowing to infinity). *)
Definition of_ratio (neg : bool) (p q : Z) : float :=
  if p =? 0 then S754_zero neg
  else
    let k := 64 - (Z.log2 p - Z.log2 q) in
    let num := if 0 <=? k then p * 2 ^ k else p in
    let den := if 0 <=? k then q else q * 2 ^ (- k) in
    let sticky := if num mod den =? 0 then 0 else 1 in
    let m := 2 * (num / den) + sticky in
    binary_normalize prec emax (if neg then - m else m) (- k - 1) neg.

(** [float(n)] for an [int], as in [int * float]: out of range raises. *)
Definition float_of_int (n : Z) : result float :=
  match binary_normalize prec emax n 0 false with
  | S754_infinity _ => Raise OverflowError
  | x => Ok x
  end.

Definition fmul : float -> float -> float := SFmul prec emax.
Definition fsub : float -> float -> float := SFsub prec emax.
Definition fabs : float -> float := SFabs.
(** [x > y] *)
Definition fgt (x y : float) : bool := SFltb y x.

(** [n * x] for an [int] [n] and a [float] [x]. *)
Definition int_mul_float (n : Z) (x : float) : result float :=
  y <- float_of_int n ;; Ok (fmul y x).

(** [round(x, 2)]: the exact value is rounded to two decimals, ties to even,
    and the decimal result is converted back to the nearest binary64. *)
Definition round2 (x : float) : float :=
  match x with
  | S754_finite s m e =>
      if 0 <=? e then x
      else
        let num := 100 * Zpos m in
        let den := 2 ^ (- e) in
        let q := num / den in
        let r := num mod den in
        let n :=
          match 2 * r ?= den with
          | Lt => q
          | Gt => q + 1
          | Eq => if Z.even q then q else q + 1
          end in
        of_ratio s n 100
  | _ => x
  end.

Definition digit_val (c : ascii) : Z := Z.of_N (code c) - 48.

(** The number written by a string of decimal digits. *)
Fixpoint digits_val (acc : Z) (s : string) : Z :=
  match s with
  | String c s' => digits_val (10 * acc + digit_val c) s'
  | EmptyString => acc
  end.

(** Underscores of a numeric literal: allowed only between two digits.  Gives
    the literal without them. *)
Fixpoint drop_underscores (prev : ascii) (s : string) : option string :=
  match s with
  | EmptyString => if Ascii.eqb prev "_" then None else Some EmptyString
  | String c s' =>
      if Ascii.eqb c "_" then
        if is_digit prev then drop_underscores c s' else None
      else if Ascii.eqb prev "_" && negb (is_digit c) then None
      else option_map (String c) (drop_underscores c s')
  end.

(** An optional sign: whether it is a minus, and the rest. *)
Definition split_sign (s : string) : bool * string :=
  match s with
  | String "-" s' => (true, s')
  | String "+" s' => (false, s')
  | _ => (false, s)
  end.

(** The longest prefix of digits and the rest. *)
Fixpoint span_digits (s : string) : string * string :=
  match s with
  | String c s' =>
      if is_digit c then let (d, r) := span_digits s' in (String c d, r)
      else (EmptyString, s)
  | EmptyString => (EmptyString, EmptyString)
  end.

(** The blanks [int] and [float] accept around a literal: those of
    [str.isspace] except the four separators 28 to 31. *)
Definition is_blank (c : ascii) : bool :=
  let n := code c in
  ((9 <=? n) && (n <=? 13) || (n =? 32) || (n =? 133) || (n =? 160))%N.

(** [sys.get_int_max_str_digits()]: the most digits [int] converts from a
    string, at the interpreter's default. *)
Definition MAX_STR_DIGITS : nat := 4300.

(** [int(s)] for a string, base ten.  The digits are counted without the
    blanks around the literal, its sign and its underscores, leading zeros
    included; more than [MAX_STR_DIGITS] of them raise [ValueError]. *)
Definition py_int (s : string) : result Z :=
  let (neg, body) := split_sign (strip_by is_blank s) in
  match drop_underscores "x" body with
  | Some (String c ds) =>
      if all_chars is_digit (String c ds)
      then
        if (MAX_STR_DIGITS <? String.length (String c ds))%nat
        then Raise ValueError
        else let n := digits_val 0 (String c ds) in Ok (if neg then - n else n)
      else Raise ValueError
  | _ => Raise ValueError
  end.

(** The exponent part of a float literal: empty, or [e] with an optional sign
    and at least one digit. *)
Definition parse_exponent (s : string) : option Z :=
  match s with
  | EmptyString => Some 0
  | String c s' =>
      if Ascii.eqb (lower c) "e" then
        let (neg, ds) := split_sign s' in
        match ds with
        | EmptyString => None
        | _ => if all_chars is_digit ds
               then Some (if neg then - digits_val 0 ds else digits_val 0 ds)
               else None
        end
      else None
  end.

(** The value [m * 10 ^ e], correctly rounded. *)
Definition of_decimal (neg : bool) (m e : Z) : float :=
  if 0 <=? e then of_ratio neg (m * 10 ^ e) 1 else of_ratio neg m (10 ^ (- e)).

(** A decimal literal: digits, an optional point and digits, an optional
    exponent; at least one digit before the exponent. *)
Definition parse_decimal (neg : bool) (s : string) : option float :=
  let (ip, r1) := span_digits s in
  let (fp, r2) :=
    match r1 with
    | String "." r => span_digits r
    | _ => (EmptyString, r1)
    end in
  match (ip ++ fp)%string with
  | EmptyString => None
  | ds =>
      match parse_exponent r2 with
      | Some e =>
          Some (of_decimal neg (digits_val 0 ds) (e - Z.of_nat (String.length fp)))
      | None => None
      end
  end.

(** [float(s)] for a string. *)
Definition py_float (s : string) : result float :=
  let (neg, body) := split_sign (strip_by is_blank s) in
  let word := map_chars lower body in
  if String.eqb word "inf" || String.eqb word "infinity" then Ok (S754_infinity neg)
  else if String.eqb word "nan" then Ok S754_nan
  else
    match drop_underscores "x" body with
    | Some lit =>
        match parse_decimal neg lit with
        | Some x => Ok x
        | None => Raise ValueError
        end
    | None => Raise ValueError
    end.

(** A float literal of the source text, such as [0.01]. *)
Definition lit (m : Z) (decimals : Z) : float := of_decimal false m (- decimals).

End PyNum.

(** ** Regular expressions *)

Module Re.
Import PyStr.

(** Abstract syntax of the patterns.  [Lit] is a literal character, [Cls] a
    character set or class, [Opt], [Star] carry their greediness, and [Grp n]
    is the capturing group numbered [n]. *)
Inductive regex : Type :=
| Eps
| Lit (a : ascii)
| Cls (p : ascii -> bool)
| Seq (r1 r2 : regex)
| Alt (r1 r2 : regex)
| Opt (greedy : bool) (r : regex)
| Star (greedy : bool) (r : regex)
| Grp (n : nat) (r : regex).

Definition Plus (greedy : bool) (r : regex) : regex := Seq r (Star greedy r).

(** A literal string. *)
Fixpoint Str (s : string) : regex :=
  match s with
  | String c EmptyString => Lit c
  | String c s' => Seq (Lit c) (Str s')
  | EmptyString => Eps
  end.

(** A sequence of patterns. *)
Fixpoint Cat (rs : list regex) : regex :=
  match rs with
  | [] => Eps
  | [r] => r
  | r :: rs' => Seq r (Cat rs')
  end.

(** Character classes of the patterns. *)
Definition cls_d : ascii -> bool := is_digit.
Definition cls_s : ascii -> bool := is_space.
Definition cls_w (c : ascii) : bool := is_alnum c || Ascii.eqb c "_".
Definition cls_any : ascii -> bool := fun _ => true.
Definition one_of (cs : string) (c : ascii) : bool := mem_chr c cs.
Definition range (lo hi : ascii) (c : ascii) : bool :=
  ((code lo <=? code c) && (code c <=? code hi))%N.
Definition union (p q : ascii -> bool) (c : ascii) : bool := p c || q c.

(** The strings captured so far, by group number. *)
Abbreviation caps := (gmap nat string).

(** Matching one character, with or without [IGNORECASE]. *)
Definition lit_ok (ic : bool) (a x : ascii) : bool :=
  if ic then Ascii.eqb (lower a) (lower x) else Ascii.eqb a x.

Definition cls_ok (ic : bool) (p : ascii -> bool) (x : ascii) : bool :=
  if ic then p x || p (swapcase x) else p x.

Definition orelse {A : Type} (x y : option A) : option A :=
  match x with
  | Some _ => x
  | None => y
  end.

(** The backtracking matcher: [run ic r s c k] matches [r] at the start of [s]
    with captures [c] and hands the rest of the input and the new captures to
    the continuation [k]; when [k] fails the next alternative is tried, in the
    order of [re]: left branch of [|] first, one more iteration first for a
    greedy quantifier and last for a lazy one.  An iteration of [Star] must
    consume input, so [String.length s] iterations are enough. *)
Fixpoint run {R : Type} (ic : bool) (r : regex) (s : string) (c : caps)
    (k : string -> caps -> option R) {struct r} : option R :=
  match r with
  | Eps => k s c
  | Lit a =>
      match s with
      | String x s' => if lit_ok ic a x then k s' c else None
      | EmptyString => None
      end
  | Cls p =>
      match s with
      | String x s' => if cls_ok ic p x then k s' c else None
      | EmptyString => None
      end
  | Seq r1 r2 => run ic r1 s c (fun s1 c1 => run ic r2 s1 c1 k)
  | Alt r1 r2 => orelse (run ic r1 s c k) (run ic r2 s c k)
  | Opt greedy r1 =>
      if greedy then orelse (run ic r1 s c k) (k s c)
      else orelse (k s c) (run ic r1 s c k)
  | Star greedy r1 =>
      (fix iter (fuel : nat) (s : string) (c : caps) {struct fuel} : option R :=
         match fuel with
         | O => k s c
         | S fuel' =>
             let more :=
               run ic r1 s c
                 (fun s1 c1 =>
                    if (String.length s1 <? String.length s)%nat
                    then iter fuel' s1 c1 else None) in
             if greedy then orelse more (k s c) else orelse (k s c) more
         end) (String.length s) s c
  | Grp n r1 =>
      run ic r1 s c
        (fun s1 c1 =>
           k s1 (<[n := str_take (String.length s - String.length s1) s]> c1))
  end.

(** A match: how many characters it spans and what its groups captured. *)
Record rmatch : Type := { span : nat; groups : caps }.

(** [m.group(n)]: [None] when the group took no part in the match. *)
Definition group (m : rmatch) (n : nat) : option string := groups m !! n.

(** [pattern.match(s)]: a match starting at the first character. *)
Definition match_at (ic : bool) (r : regex) (s : string) : option rmatch :=
  run ic r s ∅
    (fun s' c => Some {| span := String.length s - String.length s'; groups := c |}).

(** [pattern.search(s)]: the match at the leftmost position that has one. *)
Fixpoint search (ic : bool) (r : regex) (s : string) : option rmatch :=
  match match_at ic r s with
  | Some m => Some m
  | None =>
      match s with
      | String _ s' => search ic r s'
      | EmptyString => None
      end
  end.

(** The matches of [pattern.finditer(s)] for a pattern that matches no empty
    string: after a match the scan resumes where it ended; [skip] counts the
    characters of the last match still to be passed. *)
Fixpoint finditer_from (ic : bool) (r : regex) (skip : nat) (s : string)
  : list rmatch :=
  match s with
  | EmptyString => []
  | String _ s' =>
      match skip with
      | S j => finditer_from ic r j s'
      | O =>
          match match_at ic r s with
          | Some m => m :: finditer_from ic r (Nat.pred (span m)) s'
          | None => finditer_from ic r O s'
          end
      end
  end.

Definition finditer (ic : bool) (r : regex) (s : string) : list rmatch :=
  finditer_from ic r O s.

(** [re.sub(pattern, repl, s)] for a literal [repl] and a pattern that matches
    no empty string. *)
Fixpoint sub_from (ic : bool) (r : regex) (repl : string) (skip : nat)
    (s : string) : string :=
  match s with
  | EmptyString => EmptyString
  | String x s' =>
      match skip with
      | S j => sub_from ic r repl j s'
      | O =>
          match match_at ic r s with
          | Some m => repl ++ sub_from ic r repl (Nat.pred (span m)) s'
          | None => String x (sub_from ic r repl O s')
          end
      end
  end.

Definition sub (ic : bool) (r : regex) (repl s : string) : string :=
  sub_from ic r repl O s.

End Re.

(** ** The program *)

Import PyStr PyNum Re.

Definition MIN_CHAR_THRESHOLD : nat := 100.
Definition MAX_LINE_MERGE : nat := 6.

(** [range(lo, hi)] *)
Definition range_nat (lo hi : nat) : list nat := seq lo (hi - lo).

(** [xs[i]] *)
Definition get_item {A : Type} (xs : list A) (i : nat) : result A :=
  match xs !! i with
  | Some x => Ok x
  | None => Raise IndexError
  end.

(** *** Collaborators and documents *)

(** A detected table: the cell texts of its data frame, row by row. *)
Definition table : Type := list (list string).

(** What the external libraries answer for one PDF file: the tables of
    [camelot.read_pdf], the page texts of [PyPDF2] (a page without text gives
    the empty string), and per rendered page the text blocks of the OCR
    reader; each either answers or raises. *)
Record document : Type := {
  camelot_read_pdf : result (list table);
  pypdf2_pages : result (list string);
  easyocr_pages : result (list (list string))
}.

Definition extract_text_with_pypdf2 (pdf : document) : string :=
  match pypdf2_pages pdf with
  | Ok text_output => join nl text_output
  | Raise _ => EmptyString
  end.

Definition ocr_with_easyocr (pdf : document) : result string :=
  images <- easyocr_pages pdf ;;
  Ok (fold_left (fun extracted_text blocks =>
                   extracted_text ++ join " " blocks ++ nl)
        images EmptyString).

Definition pdf_to_text_fallback (pdf : document) (min_char : nat) : result string :=
  let txt := extract_text_with_pypdf2 pdf in
  if (min_char <=? String.length txt)%nat then Ok txt
  else ocr_with_easyocr pdf.

(** [row.to_dict()]: the cells of a row keyed by the header cells; the last of
    two equal column names wins. *)
Definition to_dict (header row : list string) : gmap string string :=
  fold_left (fun d kv => <[kv.1 := kv.2]> d) (zip header row) ∅.

Definition parse_camelot_tables (tables : list table) : list (gmap string string) :=
  flat_map (fun df =>
              match df with
              | header :: (_ :: _) as rows => map (to_dict header) rows
              | _ => []
              end)
    tables.

(** *** Further acquisition functions *)

(** [try_camelot_tables]: the tables when Camelot finds at least one, [None]
    when it finds none or raises. *)
Definition try_camelot_tables (pdf_path : document) : option (list table) :=
  match camelot_read_pdf pdf_path with
  | Ok (t :: ts) => Some (t :: ts)
  | _ => None
  end.

(** The same file with another answer of the OCR reader. *)
Definition with_ocr (pdf : document) (o : result (list (list string))) : document :=
  {| camelot_read_pdf := camelot_read_pdf pdf;
     pypdf2_pages := pypdf2_pages pdf;
     easyocr_pages := o |}.

(** The text [ocr_with_easyocr] accumulates over a list of pages. *)
Definition ocr_text (images : list (list string)) : string :=
  fold_left (fun extracted_text blocks => extracted_text ++ join " " blocks ++ nl)
    images EmptyString.

(** *** cleanup_line and fix_float *)

Definition ws : regex := Star true (Cls cls_s).

(** [P\s*r\s*i\s*c\s*e\s*:] *)
Definition PRICE_LABEL : regex :=
  Cat [Lit "P"; ws; Lit "r"; ws; Lit "i"; ws; Lit "c"; ws; Lit "e"; ws; Lit ":"].

(** [Q\s*ty\s*:] *)
Definition QTY_LABEL : regex := Cat [Lit "Q"; ws; Str "ty"; ws; Lit ":"].

Definition cleanup_line (line : string) : string :=
  let line := sub true PRICE_LABEL "Price:" line in
  let line := sub true QTY_LABEL "Qty:" line in
  line.

(** [\.\.+] *)
Definition DOT_RUN : regex := Seq (Lit ".") (Plus true (Lit ".")).

(** [parts[1:-1]] *)
Definition middle_of (parts : list string) : list string :=
  removelast (tl parts).

(** The token of [fix_float] after its clean-up steps, as handed to [float]. *)
Definition fix_float_clean (value : string) : string :=
  let raw := strip value in
  let raw := replace "_" "" (replace "S" "" raw) in
  let raw := replace ".," "." raw in
  let raw := replace "," "." raw in
  let parts := split "." raw in
  let raw :=
    if (2 <? length parts)%nat then
      let last := List.last parts EmptyString in
      let middle := join "" (middle_of parts) in
      hd EmptyString parts ++ middle ++ "." ++ last
    else raw in
  let raw := sub false DOT_RUN "." raw in
  let raw := replace " " "" raw in
  let raw := if String.eqb raw EmptyString then "0" else raw in
  raw.

Definition fix_float (value : string) : float :=
  match py_float (fix_float_clean value) with
  | Ok x => x
  | Raise _ => S754_zero false
  end.

(** *** Invoice number, purchase orders, supplier *)

(** [[:\s]], [[\w\d-]] *)
Definition cls_colon_space : ascii -> bool := union (one_of ":") cls_s.
Definition cls_word_dash : ascii -> bool := union cls_w (union cls_d (one_of "-")).

(** [Invoice Number[:\s]*([\w\d-]+)] *)
Definition INVOICE_PATTERN : regex :=
  Cat [Str "Invoice Number"; Star true (Cls cls_colon_space);
       Grp 1 (Plus true (Cls cls_word_dash))].

Definition extract_invoice_details (text : string) : option string :=
  match search true INVOICE_PATTERN text with
  | Some m => group m 1
  | None => None
  end.

(** [(PO[-\s]?|Purchase Order[:\s#]?)\s*(\d+)] *)
Definition PO_PATTERN : regex :=
  Cat [Grp 1 (Alt (Seq (Str "PO") (Opt true (Cls (union (one_of "-") cls_s))))
                  (Seq (Str "Purchase Order")
                       (Opt true (Cls (union (one_of ":") (union cls_s (one_of "#")))))));
       ws;
       Grp 2 (Plus true (Cls cls_d))].

(** [re.findall] gives the groups of each match, the empty string for a group
    that took no part; the second one is kept. *)
Definition extract_po_numbers (text : string) : list string :=
  map (fun m => default EmptyString (group m 2)) (finditer true PO_PATTERN text).

(** [([A-Z\s]+LTD|INC|GMBH)\n(.+?)\n] with [DOTALL]: the alternation spans the
    whole group, and the dot matches every character. *)
Definition SUPPLIER_PATTERN : regex :=
  Cat [Grp 1 (Alt (Seq (Plus true (Cls (union (range "A" "Z") cls_s))) (Str "LTD"))
                  (Alt (Str "INC") (Str "GMBH")));
       Lit LF;
       Grp 2 (Plus false (Cls cls_any));
       Lit LF].

Record supplier : Type := { name : string; address : string }.

(** [g.strip()] on what [m.group(n)] returned. *)
Definition strip_of (g : option string) : result string :=
  match g with
  | Some s => Ok (strip s)
  | None => Raise AttributeError
  end.

Definition extract_supplier_info (text : string) : result (option supplier) :=
  match search false SUPPLIER_PATTERN text with
  | Some m =>
      n <- strip_of (group m 1) ;;
      a <- strip_of (group m 2) ;;
      Ok (Some {| name := n; address := a |})
  | None => Ok None
  end.

(** *** The line grammars *)

(** [[:;\s]], [[\w\d\-\[\]]], [[\d,\.]], [[A-Za-z0-9 /_-]] *)
Definition cls_sep : ascii -> bool := union (one_of ":;") cls_s.
Definition cls_code_a : ascii -> bool := union cls_w (union cls_d (one_of "-[]")).
Definition cls_num : ascii -> bool := union cls_d (one_of ",.").
Definition cls_descr : ascii -> bool :=
  union (range "A" "Z") (union (range "a" "z") (union (range "0" "9") (one_of " /_-"))).

Definition sp : regex := Plus true (Cls cls_s).
Definition seps : regex := Star true (Cls cls_sep).
Definition dollar : regex := Opt true (Lit "$").
Definition number : regex := Plus true (Cls cls_num).
Definition digits : regex := Plus true (Cls cls_d).

Definition PRODUCT_CODE_PATTERN_A : regex :=
  Cat [Str "Product Code"; seps;
       Grp 1 (Seq (Str "PRD-") (Plus true (Cls cls_code_a))); sp;
       Str "Quantity"; seps; Grp 2 digits; Opt true (Seq sp (Str "units")); sp;
       Str "Unit"; ws; Str "Price"; seps; dollar; Grp 3 number; sp;
       Str "Amount"; seps; dollar; Grp 4 number].

(** Written in verbose mode in the source: blanks and comments outside
    character sets are not part of the pattern. *)
Definition PRODUCT_CODE_PATTERN_B : regex :=
  Cat [Grp 1 (Seq (Str "PRD-") (Plus true (Cls cls_word_dash)));
       sp; Grp 2 (Plus true (Cls cls_descr));
       sp; Str "Qty"; seps; Grp 3 digits;
       sp; Str "Price"; seps; dollar; Grp 4 number;
       sp; Str "Total"; seps; dollar; Grp 5 number;
       Opt true (Cat [sp; Str "PO:"; sp; Str "PO"; ws; Lit "-"; ws; Grp 6 digits])].

(** With [DOTALL]. *)
Definition SERVICE_PATTERN : regex :=
  Cat [Grp 1 (Star false (Cls cls_any)); sp;
       Str "Hours"; seps; Grp 2 digits; ws; Lit "x"; ws;
       Str "Rate"; seps; dollar; Grp 3 number; ws; Str "/hr"; sp;
       Str "Amount"; seps; dollar; Grp 4 number].

(** *** Records *)

(** A product dictionary.  [product_code] holds what [m.group(1)] or
    [row.get] returned ([None] is Python's [None]); [description] and
    [po_number] are [None] when the key is absent. *)
Record product : Type := {
  product_code : option string;
  description : option string;
  quantity : Z;
  unit_price : float;
  total_price : float;
  po_number : option string
}.

Record service : Type := {
  service_name : string;
  hours : Z;
  rate_per_hour : float;
  amount : float
}.

(** An entry of [price_mismatches]; [item] is the [product_code] or the
    [service_name] the entry is keyed by. *)
Record mismatch (K : Type) : Type := {
  item : K;
  expected_total : float;
  actual_total : float
}.
Arguments item {K} _.
Arguments expected_total {K} _.
Arguments actual_total {K} _.

Record price_report (K : Type) : Type := {
  price_mismatches : list (mismatch K);
  total_inconsistencies : nat
}.
Arguments price_mismatches {K} _.
Arguments total_inconsistencies {K} _.

Record po_report : Type := {
  missing_in_extracted : list string;
  unused_in_products : list string;
  po_total_inconsistencies : nat
}.

(** The tuple returned by [process_pdf]. *)
Record extraction : Type := {
  invoice_number : option string;
  supplier_info : option supplier;
  po_numbers : list string;
  products : list product;
  services : list service;
  product_inconsistencies : price_report (option string);
  service_inconsistencies : price_report string;
  po_inconsistencies : po_report
}.

(** *** Record builders *)

(** [int(g)] and [fix_float(g)] on what [m.group(n)] returned. *)
Definition int_of (g : option string) : result Z :=
  match g with
  | Some s => py_int s
  | None => Raise TypeError
  end.

Definition fix_float_of (g : option string) : result float :=
  match g with
  | Some s => Ok (fix_float s)
  | None => Raise AttributeError
  end.

Definition parse_pattern_a (m : rmatch) (products_list : list product)
  : result (list product) :=
  catch_ValueError
    (let code := group m 1 in
     let qty_str := group m 2 in
     let up_str := group m 3 in
     let amt_str := group m 4 in
     q <- int_of qty_str ;;
     u <- fix_float_of up_str ;;
     t <- fix_float_of amt_str ;;
     Ok (products_list ++
           [{| product_code := code; description := None; quantity := q;
               unit_price := u; total_price := t; po_number := None |}])%list)
    (Ok products_list).

(** [if po_num:] holds for a non-empty string. *)
Definition truthy (g : option string) : bool :=
  match g with
  | Some (String _ _) => true
  | _ => false
  end.

Definition parse_pattern_b (m : rmatch) (products_list : list product)
  : result (list product) :=
  catch_ValueError
    (code <- strip_of (group m 1) ;;
     descr <- strip_of (group m 2) ;;
     qty_str <- strip_of (group m 3) ;;
     price_str <- strip_of (group m 4) ;;
     total_str <- strip_of (group m 5) ;;
     let po_num := group m 6 in
     q <- py_int qty_str ;;
     let u := fix_float price_str in
     let t := fix_float total_str in
     Ok (products_list ++
           [{| product_code := Some code; description := Some descr;
               quantity := q; unit_price := u; total_price := t;
               po_number := if truthy po_num then po_num else None |}])%list)
    (Ok products_list).

Definition parse_pattern_service (m : rmatch) (services_list : list service)
  : result (list service) :=
  catch_ValueError
    (svc_name <- match group m 1 with
                 | Some s => Ok (strip_chars (":,.- " ++ nl) s)
                 | None => Raise AttributeError
                 end ;;
     hrs_str <- strip_of (group m 2) ;;
     rate_str <- strip_of (group m 3) ;;
     amt_str <- strip_of (group m 4) ;;
     h <- py_int hrs_str ;;
     let r := fix_float rate_str in
     let a := fix_float amt_str in
     Ok (services_list ++
           [{| service_name := svc_name; hours := h;
               rate_per_hour := r; amount := a |}])%list)
    (Ok services_list).

(** *** Line merging *)

(** The two lists a call may append to, and whether a grammar matched. *)
Definition try_match_line (line : string) (products : list product)
    (services : list service) : result (bool * list product * list service) :=
  match search true PRODUCT_CODE_PATTERN_A line with
  | Some mA =>
      products' <- parse_pattern_a mA products ;;
      Ok (true, products', services)
  | None =>
      match search true PRODUCT_CODE_PATTERN_B line with
      | Some mB =>
          products' <- parse_pattern_b mB products ;;
          Ok (true, products', services)
      | None =>
          match search true SERVICE_PATTERN line with
          | Some mS =>
              services' <- parse_pattern_service mS services ;;
              Ok (true, products, services')
          | None => Ok (false, products, services)
          end
      end
  end.

(** [merged = line; for k in ks: merged += " " + lines[i + k].strip()] *)
Fixpoint merge_lines (lines : list string) (i : nat) (merged : string)
    (ks : list nat) : result string :=
  match ks with
  | [] => Ok merged
  | k :: ks' =>
      l <- get_item lines (i + k)%nat ;;
      merge_lines lines i (merged ++ " " ++ strip l) ks'
  end.

(** The [for merge_count in ...] loop over the remaining widths: the width
    that matched, if any, and the two lists. *)
Fixpoint try_merges (lines : list string) (i : nat) (line : string)
    (products : list product) (services : list service)
    (merge_counts : list nat)
  : result (option nat * list product * list service) :=
  match merge_counts with
  | [] => Ok (None, products, services)
  | merge_count :: rest =>
      if (i + merge_count <? length lines)%nat then
        merged <- merge_lines lines i line (range_nat 1 (merge_count + 1)%nat) ;;
        r <- try_match_line merged products services ;;
        let '(m_ok, products', services') := r in
        if m_ok : bool then Ok (Some merge_count, products', services')
        else try_merges lines i line products' services' rest
      else Ok (None, products, services)
  end.

(** The state of the [while] loop: the cursor and the two lists. *)
Record cursor_state : Type := {
  cursor : nat;
  st_products : list product;
  st_services : list service
}.

(** One iteration of the [while i < len(lines)] loop. *)
Definition step (lines : list string) (st : cursor_state) : result cursor_state :=
  let i := cursor st in
  l <- get_item lines i ;;
  let line := strip l in
  if String.eqb line EmptyString then
    Ok {| cursor := (i + 1)%nat; st_products := st_products st;
          st_services := st_services st |}
  else
    r <- try_match_line line (st_products st) (st_services st) ;;
    let '(matched, products', services') := r in
    if matched : bool then
      Ok {| cursor := (i + 1)%nat; st_products := products'; st_services := services' |}
    else
      r2 <- try_merges lines i line products' services'
              (range_nat 1 MAX_LINE_MERGE) ;;
      let '(width, products'', services'') := r2 in
      match width with
      | Some merge_count =>
          Ok {| cursor := (i + (merge_count + 1))%nat; st_products := products'';
                st_services := services'' |}
      | None =>
          Ok {| cursor := (i + 1)%nat; st_products := products'';
                st_services := services'' |}
      end.

(** The loop itself; every iteration moves the cursor forward, so [fuel]
    equal to the number of lines lets it run to its exit. *)
Fixpoint while_loop (fuel : nat) (lines : list string) (st : cursor_state)
  : result cursor_state :=
  if (cursor st <? length lines)%nat then
    match fuel with
    | O => Ok st
    | S fuel' => st' <- step lines st ;; while_loop fuel' lines st'
    end
  else Ok st.

Definition clean_lines (extracted_text : string) : list string :=
  map cleanup_line (splitlines extracted_text).

Definition extract_line_by_line_items (extracted_text : string)
  : result (list product * list service) :=
  let lines := clean_lines extracted_text in
  st <- while_loop (length lines) lines
          {| cursor := 0; st_products := []; st_services := [] |} ;;
  Ok (st_products st, st_services st).

(** *** Consistency reports *)

(** The literals [0.0] and [0.01]. *)
Definition zero : float := S754_zero false.
Definition tolerance : float := lit 1 2.

(** [abs(exp - act) > 0.01] *)
Definition exceeds (exp act : float) : bool :=
  fgt (fabs (fsub exp act)) tolerance.

Definition product_entry (p : product) (exp : float) : mismatch (option string) :=
  {| item := product_code p; expected_total := round2 exp;
     actual_total := total_price p |}.

Definition service_entry (s : service) (exp : float) : mismatch string :=
  {| item := service_name s; expected_total := round2 exp;
     actual_total := amount s |}.

(** The [for p in products] loop, from the mismatches collected so far. *)
Fixpoint product_mismatches (products : list product)
    (mismatches : list (mismatch (option string)))
  : result (list (mismatch (option string))) :=
  match products with
  | [] => Ok mismatches
  | p :: rest =>
      exp <- int_mul_float (quantity p) (unit_price p) ;;
      let act := total_price p in
      product_mismatches rest
        (if exceeds exp act then (mismatches ++ [product_entry p exp])%list
         else mismatches)
  end.

Definition generate_consistency_report_for_products (products : list product)
  : result (price_report (option string)) :=
  mismatches <- product_mismatches products [] ;;
  Ok {| price_mismatches := mismatches;
        total_inconsistencies := length mismatches |}.

Fixpoint service_mismatches (services : list service)
    (mismatches : list (mismatch string)) : result (list (mismatch string)) :=
  match services with
  | [] => Ok mismatches
  | s :: rest =>
      exp <- int_mul_float (hours s) (rate_per_hour s) ;;
      let act := amount s in
      service_mismatches rest
        (if exceeds exp act then (mismatches ++ [service_entry s exp])%list
         else mismatches)
  end.

Definition generate_consistency_report_for_services (services : list service)
  : result (price_report string) :=
  mismatches <- service_mismatches services [] ;;
  Ok {| price_mismatches := mismatches;
        total_inconsistencies := length mismatches |}.

(** [[p["po_number"] for p in products if "po_number" in p and p["po_number"]]] *)
Definition product_po_list (products : list product) : list string :=
  flat_map (fun p => match po_number p with
                     | Some (String c s) => [String c s]
                     | _ => []
                     end)
    products.

Definition generate_po_consistency_report (products : list product)
    (po_numbers : list string) : po_report :=
  let pos := product_po_list products in
  let missing := filter (fun po => po ∉ po_numbers) pos in
  let unused := filter (fun po => po ∉ pos) po_numbers in
  {| missing_in_extracted := missing;
     unused_in_products := unused;
     po_total_inconsistencies := (length missing + length unused)%nat |}.

(** *** process_pdf *)

(** [try: ... except: ...] around a computation whose handler sets defaults. *)
Definition try_or {A : Type} (r : result A) (d : A) : A :=
  match r with
  | Ok a => a
  | Raise _ => d
  end.

(** [row.get(key, dflt)] *)
Definition row_get (row : gmap string string) (key dflt : string) : string :=
  default dflt (row !! key).

(** The body of [for row in table_rows]. *)
Definition row_to_product (row : gmap string string) : product :=
  let code := row_get row "Product Code" "" in
  let qty := row_get row "Qty" "0" in
  let price := row_get row "Price" "0" in
  let total := row_get row "Total" "0" in
  let '(q, p, t) :=
    try_or (q <- py_int qty ;; Ok (q, fix_float price, fix_float total))
           (0, zero, zero) in
  {| product_code := Some code; description := None; quantity := q;
     unit_price := p; total_price := t; po_number := None |}.

(** Part A of [process_pdf], inside its [try]: [None] when Camelot found no
    table. *)
Definition table_path (pdf_file : document) : result (option extraction) :=
  tables <- camelot_read_pdf pdf_file ;;
  match tables with
  | _ :: _ =>
      let table_rows := parse_camelot_tables tables in
      let products := map row_to_product table_rows in
      let txt := extract_text_with_pypdf2 pdf_file in
      let invoice_num := extract_invoice_details txt in
      supp <- extract_supplier_info txt ;;
      let pnums := extract_po_numbers txt in
      prod_report <- generate_consistency_report_for_products products ;;
      let serv_report := {| price_mismatches := []; total_inconsistencies := 0 |} in
      let po_report := generate_po_consistency_report products pnums in
      Ok (Some {| invoice_number := invoice_num; supplier_info := supp;
                  po_numbers := pnums; products := products; services := [];
                  product_inconsistencies := prod_report;
                  service_inconsistencies := serv_report;
                  po_inconsistencies := po_report |})
  | [] => Ok None
  end.

(** Part B of [process_pdf]: text, then the line grammars. *)
Definition text_path (pdf_file : document) : result extraction :=
  extracted_text <- pdf_to_text_fallback pdf_file MIN_CHAR_THRESHOLD ;;
  let invoice_num := extract_invoice_details extracted_text in
  supp <- extract_supplier_info extracted_text ;;
  let pnums := extract_po_numbers extracted_text in
  items <- extract_line_by_line_items extracted_text ;;
  let '(products, services) := items in
  prod_report <- generate_consistency_report_for_products products ;;
  serv_report <- generate_consistency_report_for_services services ;;
  let po_report := generate_po_consistency_report products pnums in
  Ok {| invoice_number := invoice_num; supplier_info := supp;
        po_numbers := pnums; products := products; services := services;
        product_inconsistencies := prod_report;
        service_inconsistencies := serv_report;
        po_inconsistencies := po_report |}.

Definition process_pdf (pdf_file : document) : result extraction :=
  match table_path pdf_file with
  | Ok (Some r) => Ok r
  | Ok None => text_path pdf_file
  | Raise _ => text_path pdf_file
  end.

(** ** Declarative reading of the patterns *)

Module ReSpec.
Import PyStr Re.

(** [Matches ic r w c c']: the pattern [r] can match exactly the word [w],
    turning the captures [c] into [c']. *)
Inductive Matches (ic : bool) : regex -> string -> caps -> caps -> Prop :=
| MEps c : Matches ic Eps EmptyString c c
| MLit a x c :
    lit_ok ic a x = true -> Matches ic (Lit a) (String x EmptyString) c c
| MCls p x c :
    cls_ok ic p x = true -> Matches ic (Cls p) (String x EmptyString) c c
| MSeq r1 r2 w1 w2 c c1 c2 :
    Matches ic r1 w1 c c1 -> Matches ic r2 w2 c1 c2 ->
    Matches ic (Seq r1 r2) (w1 ++ w2) c c2
| MAltL r1 r2 w c c' : Matches ic r1 w c c' -> Matches ic (Alt r1 r2) w c c'
| MAltR r1 r2 w c c' : Matches ic r2 w c c' -> Matches ic (Alt r1 r2) w c c'
| MOptSome g r w c c' : Matches ic r w c c' -> Matches ic (Opt g r) w c c'
| MOptNone g r c : Matches ic (Opt g r) EmptyString c c
| MStarNil g r c : Matches ic (Star g r) EmptyString c c
| MStarCons g r w1 w2 c c1 c2 :
    Matches ic r w1 c c1 -> Matches ic (Star g r) w2 c1 c2 ->
    Matches ic (Star g r) (w1 ++ w2) c c2
| MGrp n r w c c' :
    Matches ic r w c c' -> Matches ic (Grp n r) w c (<[n := w]> c').

(** The capturing groups of a pattern, with their bodies. *)
Fixpoint grps (r : regex) : list (nat * regex) :=
  match r with
  | Seq r1 r2 | Alt r1 r2 => grps r1 ++ grps r2
  | Opt _ r1 | Star _ r1 => grps r1
  | Grp n r1 => (n, r1) :: grps r1
  | _ => []
  end.

(** The groups that take part in every match of a pattern. *)
Fixpoint mandatory (r : regex) : list nat :=
  match r with
  | Seq r1 r2 => mandatory r1 ++ mandatory r2
  | Alt r1 r2 => List.filter (fun n => bool_decide (n ∈ mandatory r2)) (mandatory r1)
  | Grp n r1 => n :: mandatory r1
  | _ => []
  end.

(** The words a group body can capture. *)
Definition Lang (ic : bool) (r : regex) (w : string) : Prop :=
  exists c c', Matches ic r w c c'.

(** What soundness of the matcher means at one pattern: a successful run has
    matched some prefix of the input and handed the rest to its continuation. *)
Definition sound_at (R : Type) (ic : bool) (r : regex) : Prop :=
  forall (s : string) (c : caps) (k : string -> caps -> option R) (x : R),
    run ic r s c k = Some x ->
    exists w s' c', s = w ++ s' /\ Matches ic r w c c' /\ k s' c' = Some x.

End ReSpec.

(** ** Reference descriptions used by the statements *)

(** The record each grammar builds from its captures. *)
Definition record_a (code : option string) (qty up amt : string) : product :=
  {| product_code := code; description := None; quantity := digits_val 0 qty;
     unit_price := fix_float up; total_price := fix_float amt; po_number := None |}.

Definition record_b (code descr qty price total : string) (po : option string)
  : product :=
  {| product_code := Some (strip code); description := Some (strip descr);
     quantity := digits_val 0 qty; unit_price := fix_float (strip price);
     total_price := fix_float (strip total); po_number := po |}.

Definition record_s (svc hrs rate amt : string) : service :=
  {| service_name := strip_chars (":,.- " ++ nl) svc; hours := digits_val 0 hrs;
     rate_per_hour := fix_float (strip rate); amount := fix_float (strip amt) |}.

(** Whether [int] converts a string of digits: it has no more of them than
    the limit. *)
Definition within_limit (digits : string) : bool :=
  (String.length digits <=? MAX_STR_DIGITS)%nat.

(** What a builder appends for a match whose quantity or hours capture is
    [digits]: its record, or nothing when [int] rejects the capture. *)
Definition built {A : Type} (digits : string) (rec : A) : list A :=
  if within_limit digits then [rec] else [].

(** Whether some grammar matches a line. *)
Definition line_matches (line : string) : bool :=
  bool_decide (is_Some (search true PRODUCT_CODE_PATTERN_A line))
  || bool_decide (is_Some (search true PRODUCT_CODE_PATTERN_B line))
  || bool_decide (is_Some (search true SERVICE_PATTERN line)).

(** One step of the accumulation [merged += " " + l]. *)
Definition glue (acc l : string) : string := acc ++ " " ++ l.

(** The merge window of width [k] at line [i]: the line and the [k] lines after
    it, each stripped, joined by single spaces. *)
Definition window (lines : list string) (i k : nat) : string :=
  join " " (map strip (firstn (S k) (skipn i lines))).


(** The normalizer as the specification words it, step by step. *)
Fixpoint count_chr (a : ascii) (s : string) : nat :=
  match s with
  | String c s' => ((if Ascii.eqb c a then 1 else 0) + count_chr a s')%nat
  | EmptyString => 0%nat
  end.

Definition remove_noise (t : string) : string := replace "_" "" (replace "S" "" t).

(** Step 5: with more than one dot left, the segments before the last dot are
    concatenated and the last segment is appended as the fractional part. *)
Definition merge_thousands (t : string) : string :=
  if (1 <? count_chr "." t)%nat then
    let segments := split "." t in
    join "" (removelast segments) ++ "." ++ List.last segments EmptyString
  else t.

Definition collapse_dot_runs (t : string) : string := sub false DOT_RUN "." t.

Definition normalize (token : string) : float :=
  let t := strip token in
  let t := remove_noise t in
  let t := replace ".," "." t in
  let t := replace "," "." t in
  let t := merge_thousands t in
  let t := collapse_dot_runs t in
  let t := replace " " "" t in
  let t := if String.eqb t EmptyString then "0" else t in
  match py_float t with
  | Ok x => x
  | Raise _ => zero
  end.

(** The mismatch entries one record contributes: one when the tolerance is
    exceeded, none otherwise. *)
Definition product_flag (p : product) : list (mismatch (option string)) :=
  match int_mul_float (quantity p) (unit_price p) with
  | Ok exp => if exceeds exp (total_price p) then [product_entry p exp] else []
  | Raise _ => []
  end.

Definition service_flag (s : service) : list (mismatch string) :=
  match int_mul_float (hours s) (rate_per_hour s) with
  | Ok exp => if exceeds exp (amount s) then [service_entry s exp] else []
  | Raise _ => []
  end.

(** An [int] that [float] can represent: converting it does not overflow. *)
Definition in_float_range (n : Z) : Prop := exists x, float_of_int n = Ok x.


(** ** Notions used by the further properties *)

(** The product a line gives: the record of Grammar A when it matches, and
    otherwise that of Grammar B. *)
Definition product_of (line : string) (p : product) : Prop :=
  (exists m code qty up amt,
     search true PRODUCT_CODE_PATTERN_A line = Some m /\
     group m 1 = Some code /\ group m 2 = Some qty /\
     group m 3 = Some up /\ group m 4 = Some amt /\
     p = record_a (Some code) qty up amt) \/
  (exists m code descr qty price total,
     search true PRODUCT_CODE_PATTERN_A line = None /\
     search true PRODUCT_CODE_PATTERN_B line = Some m /\
     group m 1 = Some code /\ group m 2 = Some descr /\
     group m 3 = Some qty /\ group m 4 = Some price /\ group m 5 = Some total /\
     p = record_b code descr qty price total
           (if truthy (group m 6) then group m 6 else None)).

(** The service a line gives: the record of the service grammar when neither
    product grammar matches. *)
Definition service_of (line : string) (s : service) : Prop :=
  exists m svc hrs rate amt,
    search true PRODUCT_CODE_PATTERN_A line = None /\
    search true PRODUCT_CODE_PATTERN_B line = None /\
    search true SERVICE_PATTERN line = Some m /\
    group m 1 = Some svc /\ group m 2 = Some hrs /\
    group m 3 = Some rate /\ group m 4 = Some amt /\
    s = record_s svc hrs rate amt.

(** A merge window of the lines: a line and at most [MAX_LINE_MERGE - 1]
    lines after it, all inside the list. *)
Definition windows (lines : list string) (w : string) : Prop :=
  exists i k, (k < MAX_LINE_MERGE)%nat /\ (i + k < length lines)%nat /\
              w = window lines i k.

(** What the tokenizer has added to the lists [ps], [ss] in reaching [ps'],
    [ss']: [n] records at most, the products satisfying [P] and the services
    [Q]. *)
Definition added (P : product -> Prop) (Q : service -> Prop)
    (ps ps' : list product) (ss ss' : list service) (n : nat) : Prop :=
  exists newp news,
    ps' = (ps ++ newp)%list /\ ss' = (ss ++ news)%list /\
    (length newp + length news <= n)%nat /\
    Forall P newp /\ Forall Q news.

(** Whether some character of a string satisfies [q]. *)
Fixpoint has_chr (q : ascii -> bool) (s : string) : bool :=
  match s with
  | String c s' => q c || has_chr q s'
  | EmptyString => false
  end.

(** The 256 characters. *)
Definition all_ascii : list ascii := map ascii_of_nat (seq 0 256).

(** A sufficient syntactic test that every word a pattern matches holds a
    character satisfying [q]. *)
Fixpoint must_have (ic : bool) (q : ascii -> bool) (r : regex) : bool :=
  match r with
  | Lit a => forallb (fun x => implb (lit_ok ic a x) (q x)) all_ascii
  | Cls p => forallb (fun x => implb (cls_ok ic p x) (q x)) all_ascii
  | Seq r1 r2 => must_have ic q r1 || must_have ic q r2
  | Alt r1 r2 => must_have ic q r1 && must_have ic q r2
  | Grp _ r1 => must_have ic q r1
  | _ => false
  end.

(** A number written in groups of digits: a first group, then separators each
    followed by a group. *)
Fixpoint grouped (first : string) (rest : list (ascii * string)) : string :=
  match rest with
  | [] => first
  | (sep, g) :: rest' => first ++ String sep (grouped g rest')
  end.

(** The groups before the last one, written together, and the last group. *)
Fixpoint int_part (first : string) (rest : list (ascii * string)) : string :=
  match rest with
  | [] => EmptyString
  | (_, g) :: rest' => first ++ int_part g rest'
  end.

Fixpoint last_group (first : string) (rest : list (ascii * string)) : string :=
  match rest with
  | [] => first
  | (_, g) :: rest' => last_group g rest'
  end.

(** The separators are points and commas, the groups after them non-empty
    strings of digits. *)
Definition well_grouped (first : string) (rest : list (ascii * string)) : Prop :=
  all_chars is_digit first = true /\
  Forall (fun sg : ascii * string =>
            (fst sg = "."%char \/ fst sg = ","%char) /\
            snd sg <> EmptyString /\ all_chars is_digit (snd sg) = true) rest.

(** The characters of such a number. *)
Definition is_numeral (c : ascii) : bool :=
  is_digit c || Ascii.eqb c "." || Ascii.eqb c ",".

(** ** Sample inputs *)

Definition sample_a : string :=
  "Product Code: PRD-001 Quantity: 3 units Unit Price: $10.00 Amount: $30.00".

Definition sample_b_po : string :=
  "PRD-77X Power Supply Qty: 2 Price: $5.00 Total: $10.00 PO: PO-123".

Definition sample_service : string :=
  "Consulting Hours: 5 x Rate: $100.00/hr Amount: $450.00".

(** A line on which both Grammar A and Grammar B match. *)
Definition sample_a_and_b : string :=
  "Product Code: PRD-1 Quantity: 3 Unit Price: 1.50 Amount: 4.50 " ++
  "PRD-2 Widget Qty: 1 Price: 2 Total: 2".

(** The record of [sample_a] split over three lines, between two other lines. *)
Definition split_lines : list string :=
  ["Invoice"; "Product Code: PRD-001 Quantity: 3 units";
   "  Unit Price: $10.00  "; "Amount: $30.00"; "Thank you"].

Definition mk_product (q : Z) (u t : float) (po : option string) : product :=
  {| product_code := Some "PRD-1"; description := None; quantity := q;
     unit_price := u; total_price := t; po_number := po |}.

(** A quantity of 401 digits, beyond the range of [float]. *)
Definition huge : Z := 10 ^ 400.

(** A file no library can read: every collaborator raises. *)
Definition unreadable_pdf : document :=
  {| camelot_read_pdf := Raise CollaboratorError;
     pypdf2_pages := Raise CollaboratorError;
     easyocr_pages := Raise CollaboratorError |}.

Definition page_text : string :=
  sample_service ++ nl ++
  "ACME LTD" ++ nl ++ "1 Main St" ++ nl ++ "Invoice Number: INV-7" ++ nl ++
  "Purchase Order: 100 and PO-200 as agreed with the purchasing department" ++ nl.

(** A file with one ruled table and a text layer. *)
Definition table_pdf (qty : string) : document :=
  {| camelot_read_pdf :=
       Ok [[["Product Code"; "Qty"; "Price"; "Total"];
            ["PRD-9"; qty; "2.50"; "5.00"]]];
     pypdf2_pages := Ok [page_text];
     easyocr_pages := Raise CollaboratorError |}.

Definition huge_digits : string :=
  String "1" (string_of_list_ascii (repeat "0"%char 400)).

(** A quantity of 4301 digits, one more than [int] converts. *)
Definition long_digits : string :=
  string_of_list_ascii (repeat "9"%char (S MAX_STR_DIGITS)).

(** Lines the three grammars match, with such a quantity or hour count. *)
Definition long_quantity_a : string :=
  "Product Code: PRD-001 Quantity: " ++ long_digits ++
  " units Unit Price: $10.00 Amount: $30.00".

Definition long_quantity_b : string :=
  "PRD-77X Power Supply Qty: " ++ long_digits ++ " Price: $5.00 Total: $10.00".

Definition long_hours : string :=
  "Consulting Hours: " ++ long_digits ++ " x Rate: $100.00/hr Amount: $450.00".

(** A line on which both Grammar A and Grammar B match, with such a quantity
    in the part Grammar A reads. *)
Definition long_quantity_a_and_b : string :=
  "Product Code: PRD-1 Quantity: " ++ long_digits ++
  " Unit Price: 1.50 Amount: 4.50 PRD-2 Widget Qty: 1 Price: 2 Total: 2".

Import ReSpec.

(** * Properties *)

Section StringFacts.

Lemma app_cons (a : ascii) (s t : string) : String a s ++ t = String a (s ++ t).
Proof. reflexivity. Qed.

Lemma app_nil_l (s : string) : EmptyString ++ s = s.
Proof. reflexivity. Qed.

Lemma app_empty_r (s : string) : s ++ EmptyString = s.
Proof. induction s as [|a s IH]; [reflexivity | now rewrite app_cons, IH]. Qed.

Lemma app_assoc_str (s1 s2 s3 : string) : (s1 ++ s2) ++ s3 = s1 ++ (s2 ++ s3).
Proof. induction s1 as [|a s1 IH]; [reflexivity | now rewrite !app_cons, IH]. Qed.

Lemma length_app_str (s1 s2 : string) :
  String.length (s1 ++ s2) = (String.length s1 + String.length s2)%nat.
Proof.
  induction s1 as [|a s1 IH]; [reflexivity | rewrite app_cons; simpl; now rewrite IH].
Qed.

Lemma take_app_exact (w s : string) : str_take (String.length w) (w ++ s) = w.
Proof.
  induction w as [|a w IH].
  - rewrite app_nil_l. destruct s; reflexivity.
  - rewrite app_cons. simpl. now rewrite IH.
Qed.

Lemma take_consumed (w s : string) :
  str_take (String.length (w ++ s) - String.length s) (w ++ s) = w.
Proof.
  rewrite length_app_str.
  replace (String.length w + String.length s - String.length s)%nat
    with (String.length w) by lia.
  apply take_app_exact.
Qed.

End StringFacts.

Section Soundness.
Context (R : Type) (ic : bool).

Lemma orelse_Some {A : Type} (a b : option A) (x : A) :
  orelse a b = Some x -> a = Some x \/ b = Some x.
Proof. destruct a; simpl; auto. Qed.

Lemma star_sound (g : bool) (r : regex) :
  sound_at R ic r -> sound_at R ic (Star g r).
Proof.
  intros IH s c k x. simpl.
  generalize (String.length s) at 1. intros fuel. revert s c.
  induction fuel as [|fuel IHf]; intros s c H.
  - exists EmptyString, s, c. split; [reflexivity|]. split; [constructor | exact H].
  - assert (Hcases :
      run ic r s c
        (fun s1 c1 =>
           if (String.length s1 <? String.length s)%nat
           then (fix iter (fuel : nat) (s : string) (c : caps) {struct fuel} : option R :=
                   match fuel with
                   | O => k s c
                   | S fuel' =>
                       let more :=
                         run ic r s c
                           (fun s1 c1 =>
                              if (String.length s1 <? String.length s)%nat
                              then iter fuel' s1 c1 else None) in
                       if g then orelse more (k s c) else orelse (k s c) more
                   end) fuel s1 c1
           else None) = Some x \/ k s c = Some x).
    { destruct g; apply orelse_Some in H; tauto. }
    destruct Hcases as [Hmore | Hk].
    + apply IH in Hmore. destruct Hmore as (w1 & s1 & c1 & -> & Hm1 & Hrest).
      destruct (String.length s1 <? String.length (w1 ++ s1))%nat; [|discriminate].
      apply IHf in Hrest. destruct Hrest as (w2 & s2 & c2 & -> & Hm2 & Hk).
      exists (w1 ++ w2), s2, c2. split; [now rewrite app_assoc_str|].
      split; [econstructor; eassumption | exact Hk].
    + exists EmptyString, s, c. split; [reflexivity|]. split; [constructor | exact Hk].
Qed.

Lemma run_sound (r : regex) : sound_at R ic r.
Proof.
  induction r as [ | a | p | r1 IH1 r2 IH2 | r1 IH1 r2 IH2 | g r IH | g r IH | n r IH ].
  - intros s c k x H. simpl in H. exists EmptyString, s, c. repeat split; [constructor | exact H].
  - intros s c k x H. simpl in H. destruct s as [|y s]; [discriminate|].
    destruct (lit_ok ic a y) eqn:E; [|discriminate].
    exists (String y EmptyString), s, c. repeat split; [now constructor | exact H].
  - intros s c k x H. simpl in H. destruct s as [|y s]; [discriminate|].
    destruct (cls_ok ic p y) eqn:E; [|discriminate].
    exists (String y EmptyString), s, c. repeat split; [now constructor | exact H].
  - intros s c k x H. simpl in H.
    apply IH1 in H. destruct H as (w1 & s1 & c1 & -> & Hm1 & H).
    apply IH2 in H. destruct H as (w2 & s2 & c2 & -> & Hm2 & H).
    exists (w1 ++ w2), s2, c2. split; [now rewrite app_assoc_str|].
    split; [econstructor; eassumption | exact H].
  - intros s c k x H. simpl in H. apply orelse_Some in H. destruct H as [H|H].
    + apply IH1 in H. destruct H as (w & s' & c' & -> & Hm & H).
      exists w, s', c'. repeat split; [now apply MAltL | exact H].
    + apply IH2 in H. destruct H as (w & s' & c' & -> & Hm & H).
      exists w, s', c'. repeat split; [now apply MAltR | exact H].
  - intros s c k x H. simpl in H.
    assert (Hc : run ic r s c k = Some x \/ k s c = Some x).
    { destruct g; apply orelse_Some in H; tauto. }
    destruct Hc as [H1|H1].
    + apply IH in H1. destruct H1 as (w & s' & c' & -> & Hm & H1).
      exists w, s', c'. repeat split; [now apply MOptSome | exact H1].
    + exists EmptyString, s, c. repeat split; [apply MOptNone | exact H1].
  - now apply star_sound.
  - intros s c k x H. simpl in H.
    apply IH in H. destruct H as (w & s' & c' & -> & Hm & H).
    rewrite take_consumed in H.
    exists w, s', (<[n := w]> c'). repeat split; [now constructor | exact H].
Qed.

End Soundness.

Section Captures.
Context (ic : bool).

Lemma Matches_keeps r w c c' :
  Matches ic r w c c' -> forall n, is_Some (c !! n) -> is_Some (c' !! n).
Proof.
  induction 1; intros m Hm; auto.
  destruct (decide (n = m)) as [->|Hne].
  - rewrite lookup_insert_eq. eauto.
  - rewrite lookup_insert_ne by done. auto.
Qed.

Lemma Matches_mandatory r w c c' :
  Matches ic r w c c' -> forall n, In n (mandatory r) -> is_Some (c' !! n).
Proof.
  induction 1; simpl; intros m Hm; try contradiction.
  - apply in_app_or in Hm. destruct Hm as [Hm|Hm].
    + eapply Matches_keeps; eauto.
    + auto.
  - apply List.filter_In in Hm. destruct Hm as [Hm _]. auto.
  - apply List.filter_In in Hm. destruct Hm as [_ Hm].
    apply bool_decide_eq_true_1 in Hm. apply list_elem_of_In in Hm. auto.
  - destruct Hm as [->|Hm].
    + rewrite lookup_insert_eq. eauto.
    + destruct (decide (n = m)) as [->|Hne].
      * rewrite lookup_insert_eq. eauto.
      * rewrite lookup_insert_ne by done. auto.
Qed.

Lemma Matches_captured r w c c' :
  Matches ic r w c c' ->
  forall n v, c' !! n = Some v ->
    c !! n = Some v \/ exists body, In (n, body) (grps r) /\ Lang ic body v.
Proof.
  induction 1; simpl; intros m v Hv; auto.
  - apply IHMatches2 in Hv. destruct Hv as [Hv|(b & Hin & HL)].
    + apply IHMatches1 in Hv. destruct Hv as [Hv|(b & Hin & HL)]; auto.
      right. exists b. split; [apply in_or_app; auto | done].
    + right. exists b. split; [apply in_or_app; auto | done].
  - apply IHMatches in Hv. destruct Hv as [Hv|(b & Hin & HL)]; auto.
    right. exists b. split; [apply in_or_app; auto | done].
  - apply IHMatches in Hv. destruct Hv as [Hv|(b & Hin & HL)]; auto.
    right. exists b. split; [apply in_or_app; auto | done].
  - apply IHMatches2 in Hv. destruct Hv as [Hv|(b & Hin & HL)].
    + apply IHMatches1 in Hv. destruct Hv as [Hv|(b & Hin & HL)]; auto.
      right. eauto.
    + right. eauto.
  - destruct (decide (n = m)) as [->|Hne].
    + rewrite lookup_insert_eq in Hv. injection Hv as <-.
      right. exists r. split; [now left | now exists c, c'].
    + rewrite lookup_insert_ne in Hv by done.
      apply IHMatches in Hv. destruct Hv as [Hv|(b & Hin & HL)]; auto.
      right. exists b. split; [now right | done].
Qed.

Lemma match_at_Matches r s m :
  match_at ic r s = Some m ->
  exists w s', s = w ++ s' /\ Matches ic r w ∅ (groups m).
Proof.
  unfold match_at. intros H. apply run_sound in H.
  destruct H as (w & s' & c' & -> & Hm & [= <-]). simpl. eauto.
Qed.

Lemma search_Matches r s m :
  search ic r s = Some m -> exists w, Matches ic r w ∅ (groups m).
Proof.
  induction s as [|a s IH]; simpl.
  - destruct (match_at ic r EmptyString) eqn:E; [|discriminate].
    intros [= <-]. apply match_at_Matches in E. destruct E as (w & _ & _ & ?). eauto.
  - destruct (match_at ic r (String a s)) eqn:E.
    + intros [= <-]. apply match_at_Matches in E. destruct E as (w & _ & _ & ?). eauto.
    + exact IH.
Qed.

(** A group of the pattern that takes part in every match is set by
    [search]. *)
Lemma search_group_set r s m n :
  search ic r s = Some m -> In n (mandatory r) -> is_Some (group m n).
Proof.
  intros H Hn. apply search_Matches in H. destruct H as (w & H).
  unfold group. eapply Matches_mandatory; eauto.
Qed.

(** What [search] reports for a group is a word its body can match. *)
Lemma search_group_lang r s m n v :
  search ic r s = Some m -> group m n = Some v ->
  exists body, In (n, body) (grps r) /\ Lang ic body v.
Proof.
  intros H Hv. apply search_Matches in H. destruct H as (w & H).
  unfold group in Hv. eapply Matches_captured in H; eauto.
  destruct H as [H|H]; [|exact H]. rewrite lookup_empty in H. discriminate.
Qed.

Lemma Cls_word p w c c' :
  Matches ic (Cls p) w c c' ->
  exists x, w = String x EmptyString /\ cls_ok ic p x = true.
Proof. inversion 1; subst; eauto. Qed.

Lemma Star_Cls_word g p w c c' :
  Matches ic (Star g (Cls p)) w c c' -> all_chars (cls_ok ic p) w = true.
Proof.
  remember (Star g (Cls p)) as r eqn:Er. induction 1; try discriminate.
  - reflexivity.
  - injection Er as -> ->. apply Cls_word in H. destruct H as (x & -> & Hx).
    rewrite app_cons, app_nil_l. simpl. rewrite Hx. simpl. now apply IHMatches2.
Qed.

Lemma Plus_Cls_word g p w :
  Lang ic (Plus g (Cls p)) w ->
  exists x w', w = String x w' /\ all_chars (cls_ok ic p) w = true.
Proof.
  intros (c & c' & H). unfold Plus in H. inversion H as [| | |? ? w1 w2 ? c1 ? H1 H2| | | | | | |]; subst.
  apply Cls_word in H1. destruct H1 as (x & -> & Hx).
  exists x, w2. rewrite app_cons, app_nil_l. split; [done|].
  simpl. rewrite Hx. simpl. eapply Star_Cls_word; eauto.
Qed.

End Captures.

Section DigitWords.

Ltac by_cases_on_char x :=
  destruct x as [[] [] [] [] [] [] [] []]; vm_compute; intros; congruence.

Lemma digit_of_cls_ok (x : ascii) : cls_ok true cls_d x = true -> is_digit x = true.
Proof. by_cases_on_char x. Qed.

Lemma digit_not_space (x : ascii) : is_digit x = true -> is_space x = false.
Proof. by_cases_on_char x. Qed.

Lemma digit_not_blank (x : ascii) : is_digit x = true -> is_blank x = false.
Proof. by_cases_on_char x. Qed.

Lemma digit_not_underscore (x : ascii) : is_digit x = true -> Ascii.eqb x "_" = false.
Proof. by_cases_on_char x. Qed.

Lemma digit_not_sign (x : ascii) (s : string) :
  is_digit x = true -> split_sign (String x s) = (false, String x s).
Proof.
  destruct x as [[] [] [] [] [] [] [] []]; vm_compute; intros; congruence.
Qed.

Lemma all_chars_impl (p q : ascii -> bool) (w : string) :
  (forall x, p x = true -> q x = true) ->
  all_chars p w = true -> all_chars q w = true.
Proof.
  intros Hpq. induction w as [|a w IH]; simpl; [done|].
  intros [Ha Hw]%andb_true_iff. rewrite (Hpq a Ha). simpl. auto.
Qed.

Lemma lstrip_by_head (p : ascii -> bool) (x : ascii) (w : string) :
  p x = false -> lstrip_by p (String x w) = String x w.
Proof. intros H. simpl. now rewrite H. Qed.

Lemma rstrip_by_none (p : ascii -> bool) (w : string) :
  all_chars (fun x => negb (p x)) w = true -> rstrip_by p w = w.
Proof.
  induction w as [|a w IH]; simpl; [done|].
  intros [Ha Hw]%andb_true_iff. rewrite (IH Hw).
  apply negb_true_iff in Ha. rewrite Ha. now destruct w.
Qed.

Lemma strip_by_none (p : ascii -> bool) (w : string) :
  all_chars (fun x => negb (p x)) w = true -> strip_by p w = w.
Proof.
  intros H. unfold strip_by. destruct w as [|a w]; [reflexivity|].
  pose proof H as H'. simpl in H'. apply andb_true_iff in H'. destruct H' as [Ha _].
  apply negb_true_iff in Ha. rewrite lstrip_by_head by done.
  now apply rstrip_by_none.
Qed.

Lemma strip_digits (w : string) : all_chars is_digit w = true -> strip w = w.
Proof.
  intros H. apply strip_by_none. revert H. apply all_chars_impl.
  intros x Hx. now rewrite digit_not_space.
Qed.

Lemma drop_underscores_digits (w : string) (prev : ascii) :
  Ascii.eqb prev "_" = false -> all_chars is_digit w = true ->
  drop_underscores prev w = Some w.
Proof.
  revert prev. induction w as [|a w IH]; intros prev Hp; simpl.
  - now rewrite Hp.
  - intros [Ha Hw]%andb_true_iff.
    rewrite (digit_not_underscore a Ha), Ha. rewrite andb_false_r.
    rewrite IH; auto using digit_not_underscore.
Qed.

(** [int] accepts a non-empty string of digits exactly when it has no more
    of them than the limit, and rejects it with [ValueError] otherwise. *)
Lemma py_int_digits (w : string) :
  w <> EmptyString -> all_chars is_digit w = true ->
  py_int w = if within_limit w then Ok (digits_val 0 w) else Raise ValueError.
Proof.
  intros Hne Hw. unfold py_int, within_limit.
  rewrite strip_by_none.
  2:{ revert Hw. apply all_chars_impl. intros x Hx. now rewrite digit_not_blank. }
  destruct w as [|a w]; [done|].
  pose proof Hw as H'. cbn [all_chars] in H'. apply andb_true_iff in H'.
  destruct H' as [Ha _].
  rewrite digit_not_sign by done.
  rewrite drop_underscores_digits by done. rewrite Hw.
  destruct (Nat.ltb_spec MAX_STR_DIGITS (String.length (String a w))),
           (Nat.leb_spec (String.length (String a w)) MAX_STR_DIGITS);
    first [reflexivity | lia].
Qed.

Lemma built_in {A : Type} (digits : string) (rec : A) :
  within_limit digits = true -> built digits rec = [rec].
Proof. unfold built. now intros ->. Qed.

Lemma built_out {A : Type} (digits : string) (rec : A) :
  within_limit digits = false -> built digits rec = [].
Proof. unfold built. now intros ->. Qed.

Lemma built_length {A : Type} (digits : string) (rec : A) :
  (length (built digits rec) <= 1)%nat.
Proof. unfold built. destruct (within_limit digits); simpl; lia. Qed.

Lemma built_Forall {A : Type} (P : A -> Prop) (digits : string) (rec : A) :
  P rec -> Forall P (built digits rec).
Proof. intros H. unfold built. destruct (within_limit digits); repeat constructor. exact H. Qed.

(** Under [IGNORECASE] too, a word matched by [\d+] is a non-empty string of
    digits. *)
Lemma digits_word (w : string) :
  Lang true digits w -> w <> EmptyString /\ all_chars is_digit w = true.
Proof.
  intros H. apply Plus_Cls_word in H. destruct H as (x & w' & -> & H).
  split; [done|]. revert H. apply all_chars_impl, digit_of_cls_ok.
Qed.

End DigitWords.

Section Builders.

Ltac group_set Hs n :=
  let H := fresh "Hset" in
  let v := fresh "v" in
  pose proof (search_group_set _ _ _ _ n Hs) as H;
  destruct H as [v H]; [vm_compute; tauto|].

Ltac group_digits Hs Hv :=
  let b := fresh "body" in
  let Hin := fresh "Hin" in
  let HL := fresh "HL" in
  destruct (search_group_lang _ _ _ _ _ _ Hs Hv) as (b & Hin & HL);
  simpl in Hin;
  repeat (destruct Hin as [Hin|Hin]; [try discriminate; injection Hin as <-|]);
  try contradiction;
  apply digits_word in HL.

Lemma parse_pattern_a_appends line m ps :
  search true PRODUCT_CODE_PATTERN_A line = Some m ->
  exists code qty up amt,
    group m 1 = Some code /\ group m 2 = Some qty /\
    group m 3 = Some up /\ group m 4 = Some amt /\
    qty <> EmptyString /\ all_chars is_digit qty = true /\
    int_of (group m 2) =
      (if within_limit qty then Ok (digits_val 0 qty) else Raise ValueError) /\
    parse_pattern_a m ps = Ok (ps ++ built qty (record_a (Some code) qty up amt))%list.
Proof.
  intros Hs.
  group_set Hs 1%nat. group_set Hs 2%nat. group_set Hs 3%nat. group_set Hs 4%nat.
  group_digits Hs Hset0. destruct HL as [Hne Hd].
  exists v, v0, v1, v2. repeat (split; [assumption|]).
  pose proof (py_int_digits _ Hne Hd) as Hint.
  split; [rewrite Hset0; exact Hint|].
  unfold parse_pattern_a, int_of, fix_float_of, built.
  rewrite Hset, Hset0, Hset1, Hset2, Hint.
  destruct (within_limit v0); [reflexivity|]. cbn. now rewrite app_nil_r.
Qed.

Lemma parse_pattern_b_appends line m ps :
  search true PRODUCT_CODE_PATTERN_B line = Some m ->
  exists code descr qty price total,
    group m 1 = Some code /\ group m 2 = Some descr /\
    group m 3 = Some qty /\ group m 4 = Some price /\ group m 5 = Some total /\
    qty <> EmptyString /\ all_chars is_digit qty = true /\
    (qty_str <- strip_of (group m 3) ;; py_int qty_str) =
      (if within_limit qty then Ok (digits_val 0 qty) else Raise ValueError) /\
    parse_pattern_b m ps =
      Ok (ps ++ built qty (record_b code descr qty price total
                             (if truthy (group m 6) then group m 6 else None)))%list.
Proof.
  intros Hs.
  group_set Hs 1%nat. group_set Hs 2%nat. group_set Hs 3%nat. group_set Hs 4%nat.
  group_set Hs 5%nat.
  group_digits Hs Hset1. destruct HL as [Hne Hd].
  exists v, v0, v1, v2, v3. repeat (split; [assumption|]).
  pose proof (py_int_digits _ Hne Hd) as Hint.
  split.
  { unfold strip_of. rewrite Hset1. cbn [bind]. now rewrite (strip_digits _ Hd). }
  unfold parse_pattern_b, strip_of, built.
  rewrite Hset, Hset0, Hset1, Hset2, Hset3. cbn [bind].
  rewrite (strip_digits _ Hd), Hint.
  destruct (within_limit v1); [reflexivity|]. cbn. now rewrite app_nil_r.
Qed.

Lemma parse_pattern_service_appends line m ss :
  search true SERVICE_PATTERN line = Some m ->
  exists svc hrs rate amt,
    group m 1 = Some svc /\ group m 2 = Some hrs /\
    group m 3 = Some rate /\ group m 4 = Some amt /\
    hrs <> EmptyString /\ all_chars is_digit hrs = true /\
    (hrs_str <- strip_of (group m 2) ;; py_int hrs_str) =
      (if within_limit hrs then Ok (digits_val 0 hrs) else Raise ValueError) /\
    parse_pattern_service m ss = Ok (ss ++ built hrs (record_s svc hrs rate amt))%list.
Proof.
  intros Hs.
  group_set Hs 1%nat. group_set Hs 2%nat. group_set Hs 3%nat. group_set Hs 4%nat.
  group_digits Hs Hset0. destruct HL as [Hne Hd].
  exists v, v0, v1, v2. repeat (split; [assumption|]).
  pose proof (py_int_digits _ Hne Hd) as Hint.
  split.
  { unfold strip_of. rewrite Hset0. cbn [bind]. now rewrite (strip_digits _ Hd). }
  unfold parse_pattern_service, strip_of, built.
  rewrite Hset, Hset0, Hset1, Hset2. cbn [bind].
  rewrite (strip_digits _ Hd), Hint.
  destruct (within_limit v0); [reflexivity|]. cbn. now rewrite app_nil_r.
Qed.

(** The optional group of Grammar B, when set, holds a non-empty string of
    digits, so the record gets its [po_number] key. *)
Lemma pattern_b_po line m po :
  search true PRODUCT_CODE_PATTERN_B line = Some m ->
  group m 6 = Some po -> truthy (group m 6) = true.
Proof.
  intros Hs Hv. group_digits Hs Hv. destruct HL as [Hne Hd].
  rewrite Hv. destruct po; [done | reflexivity].
Qed.

End Builders.

Section Matcher.

Lemma try_match_line_a line m ps ss :
  search true PRODUCT_CODE_PATTERN_A line = Some m ->
  exists code qty up amt,
    group m 1 = Some code /\ group m 2 = Some qty /\
    group m 3 = Some up /\ group m 4 = Some amt /\
    try_match_line line ps ss =
      Ok (true, (ps ++ built qty (record_a (Some code) qty up amt))%list, ss).
Proof.
  intros Hs. destruct (parse_pattern_a_appends line m ps Hs)
    as (code & qty & up & amt & H1 & H2 & H3 & H4 & _ & _ & _ & Hp).
  exists code, qty, up, amt. repeat (split; [assumption|]).
  unfold try_match_line. rewrite Hs, Hp. reflexivity.
Qed.

Lemma try_match_line_b line m ps ss :
  search true PRODUCT_CODE_PATTERN_A line = None ->
  search true PRODUCT_CODE_PATTERN_B line = Some m ->
  exists code descr qty price total,
    group m 1 = Some code /\ group m 2 = Some descr /\
    group m 3 = Some qty /\ group m 4 = Some price /\ group m 5 = Some total /\
    try_match_line line ps ss =
      Ok (true,
          (ps ++ built qty (record_b code descr qty price total
                              (if truthy (group m 6) then group m 6 else None)))%list,
          ss).
Proof.
  intros Ha Hs. destruct (parse_pattern_b_appends line m ps Hs)
    as (code & descr & qty & price & total & H1 & H2 & H3 & H4 & H5 & _ & _ & _ & Hp).
  exists code, descr, qty, price, total. repeat (split; [assumption|]).
  unfold try_match_line. rewrite Ha, Hs, Hp. reflexivity.
Qed.

Lemma try_match_line_s line m ps ss :
  search true PRODUCT_CODE_PATTERN_A line = None ->
  search true PRODUCT_CODE_PATTERN_B line = None ->
  search true SERVICE_PATTERN line = Some m ->
  exists svc hrs rate amt,
    group m 1 = Some svc /\ group m 2 = Some hrs /\
    group m 3 = Some rate /\ group m 4 = Some amt /\
    try_match_line line ps ss =
      Ok (true, ps, (ss ++ built hrs (record_s svc hrs rate amt))%list).
Proof.
  intros Ha Hb Hs. destruct (parse_pattern_service_appends line m ss Hs)
    as (svc & hrs & rate & amt & H1 & H2 & H3 & H4 & _ & _ & _ & Hp).
  exists svc, hrs, rate, amt. repeat (split; [assumption|]).
  unfold try_match_line. rewrite Ha, Hb, Hs, Hp. reflexivity.
Qed.

Lemma try_match_line_none line ps ss :
  search true PRODUCT_CODE_PATTERN_A line = None ->
  search true PRODUCT_CODE_PATTERN_B line = None ->
  search true SERVICE_PATTERN line = None ->
  try_match_line line ps ss = Ok (false, ps, ss).
Proof. intros Ha Hb Hs. unfold try_match_line. now rewrite Ha, Hb, Hs. Qed.

(** [try_match_line] never raises; it answers whether a grammar matches, and
    leaves both lists alone when none does. *)
Lemma try_match_line_total line ps ss :
  exists ps' ss',
    try_match_line line ps ss = Ok (line_matches line, ps', ss') /\
    (line_matches line = false -> ps' = ps /\ ss' = ss).
Proof.
  unfold line_matches.
  destruct (search true PRODUCT_CODE_PATTERN_A line) as [mA|] eqn:Ha.
  { destruct (try_match_line_a line mA ps ss Ha) as (? & ? & ? & ? & _ & _ & _ & _ & H).
    eexists _, _. split; [exact H | done]. }
  destruct (search true PRODUCT_CODE_PATTERN_B line) as [mB|] eqn:Hb.
  { destruct (try_match_line_b line mB ps ss Ha Hb)
      as (? & ? & ? & ? & ? & _ & _ & _ & _ & _ & H).
    eexists _, _. split; [exact H | done]. }
  destruct (search true SERVICE_PATTERN line) as [mS|] eqn:Hs.
  { destruct (try_match_line_s line mS ps ss Ha Hb Hs)
      as (? & ? & ? & ? & _ & _ & _ & _ & H).
    eexists _, _. split; [exact H | done]. }
  exists ps, ss. split; [|done].
  now apply try_match_line_none.
Qed.

End Matcher.

Section Tokenizer.
Context (lines : list string).

Lemma get_item_lookup {A : Type} (xs : list A) (i : nat) (x : A) :
  xs !! i = Some x -> get_item xs i = Ok x.
Proof. unfold get_item. now intros ->. Qed.

Lemma fold_glue_prefix (p a : string) (rest : list string) :
  fold_left glue rest (p ++ a) = p ++ fold_left glue rest a.
Proof.
  revert a. induction rest as [|l rest IH]; intros a; simpl; [done|].
  replace (glue (p ++ a) l) with (p ++ glue a l)
    by (unfold glue; now rewrite app_assoc_str).
  apply IH.
Qed.

Lemma join_fold (l0 : string) (rest : list string) :
  join " " (l0 :: rest) = fold_left glue rest l0.
Proof.
  revert l0. induction rest as [|l1 rest IH]; intros l0; [done|].
  change (join " " (l0 :: l1 :: rest)) with (l0 ++ " " ++ join " " (l1 :: rest)).
  rewrite IH. simpl.
  change (l0 ++ " " ++ fold_left glue rest l1)
    with (l0 ++ (" " ++ fold_left glue rest l1)).
  now rewrite <- !fold_glue_prefix.
Qed.

Lemma merge_lines_fold (i n : nat) :
  forall (j : nat) (acc : string),
    (i + j + n <= length lines)%nat ->
    merge_lines lines i acc (seq j n) =
    Ok (fold_left glue (map strip (firstn n (skipn (i + j) lines))) acc).
Proof.
  induction n as [|n IH]; intros j acc Hlen; simpl; [done|].
  destruct (lookup_lt_is_Some_2 lines (i + j)) as [x Hx]; [lia|].
  rewrite (get_item_lookup _ _ _ Hx). simpl.
  rewrite (drop_S _ _ _ Hx). simpl.
  rewrite IH by lia. now replace (i + S j)%nat with (S (i + j)) by lia.
Qed.

(** The string the inner loop builds for [merge_count = k] is the window of
    width [k]. *)
Lemma merge_lines_window (i k : nat) (l : string) :
  (i + k < length lines)%nat -> lines !! i = Some l ->
  merge_lines lines i (strip l) (range_nat 1 (k + 1)) = Ok (window lines i k).
Proof.
  intros Hlen Hl. unfold range_nat, window.
  replace (k + 1 - 1)%nat with k by lia.
  rewrite merge_lines_fold by lia.
  rewrite (drop_S _ _ _ Hl). simpl firstn. simpl map. rewrite join_fold.
  now replace (i + 1)%nat with (S i) by lia.
Qed.


Lemma try_merges_miss (i : nat) (l : string) ps ss (n : nat) :
  lines !! i = Some l ->
  forall j : nat,
    (forall k, (j <= k < j + n)%nat -> (i + k < length lines)%nat ->
               line_matches (window lines i k) = false) ->
    try_merges lines i (strip l) ps ss (seq j n) = Ok (None, ps, ss).
Proof.
  intros Hl. induction n as [|n IH]; intros j Hmiss; simpl; [done|].
  destruct (i + j <? length lines)%nat eqn:Hlt; [|done].
  apply Nat.ltb_lt in Hlt.
  rewrite (merge_lines_window i j l Hlt Hl). simpl.
  destruct (try_match_line_total (window lines i j) ps ss) as (ps' & ss' & -> & Hsame).
  rewrite (Hmiss j) in * by lia. simpl.
  destruct Hsame as [-> ->]; [done|].
  apply IH. intros k Hk. apply Hmiss. lia.
Qed.

Lemma try_merges_hit (i : nat) (l : string) ps ss (n : nat) :
  lines !! i = Some l ->
  forall j k : nat,
    (j <= k < j + n)%nat -> (i + k < length lines)%nat ->
    (forall k', (j <= k' < k)%nat -> line_matches (window lines i k') = false) ->
    line_matches (window lines i k) = true ->
    exists ps' ss',
      try_match_line (window lines i k) ps ss = Ok (true, ps', ss') /\
      try_merges lines i (strip l) ps ss (seq j n) = Ok (Some k, ps', ss').
Proof.
  intros Hl. induction n as [|n IH]; intros j k Hk Hlen Hmiss Hhit; [lia|].
  simpl.
  assert (Hlt : (i + j <? length lines)%nat = true) by (apply Nat.ltb_lt; lia).
  rewrite Hlt. apply Nat.ltb_lt in Hlt.
  rewrite (merge_lines_window i j l Hlt Hl). simpl.
  destruct (try_match_line_total (window lines i j) ps ss) as (ps' & ss' & Ht & Hsame).
  destruct (decide (j = k)) as [->|Hne].
  - rewrite Hhit in Ht. rewrite Ht. simpl. eauto.
  - rewrite (Hmiss j) in * by lia. rewrite Ht. simpl.
    destruct Hsame as [-> ->]; [done|].
    apply IH; [lia | done | | done].
    intros k' Hk'. apply Hmiss. lia.
Qed.

Lemma step_blank st l :
  lines !! cursor st = Some l -> strip l = EmptyString ->
  step lines st =
  Ok {| cursor := cursor st + 1; st_products := st_products st;
        st_services := st_services st |}.
Proof.
  intros Hl Hb. unfold step. rewrite (get_item_lookup _ _ _ Hl). simpl.
  now rewrite Hb.
Qed.

Lemma step_single st l :
  lines !! cursor st = Some l -> strip l <> EmptyString ->
  line_matches (strip l) = true ->
  exists ps' ss',
    try_match_line (strip l) (st_products st) (st_services st) = Ok (true, ps', ss') /\
    step lines st = Ok {| cursor := cursor st + 1; st_products := ps'; st_services := ss' |}.
Proof.
  intros Hl Hb Hm. unfold step. rewrite (get_item_lookup _ _ _ Hl). simpl.
  apply String.eqb_neq in Hb. rewrite Hb.
  destruct (try_match_line_total (strip l) (st_products st) (st_services st))
    as (ps' & ss' & Ht & _).
  rewrite Hm in Ht. rewrite Ht. simpl. eauto.
Qed.

Lemma step_merged st l k :
  lines !! cursor st = Some l -> strip l <> EmptyString ->
  line_matches (strip l) = false ->
  (1 <= k < MAX_LINE_MERGE)%nat -> (cursor st + k < length lines)%nat ->
  (forall k', (1 <= k' < k)%nat -> line_matches (window lines (cursor st) k') = false) ->
  line_matches (window lines (cursor st) k) = true ->
  exists ps' ss',
    try_match_line (window lines (cursor st) k) (st_products st) (st_services st)
      = Ok (true, ps', ss') /\
    step lines st =
    Ok {| cursor := cursor st + (k + 1); st_products := ps'; st_services := ss' |}.
Proof.
  intros Hl Hb Hm Hk Hlen Hmiss Hhit. unfold step.
  rewrite (get_item_lookup _ _ _ Hl). cbn [bind].
  apply String.eqb_neq in Hb. rewrite Hb.
  destruct (try_match_line_total (strip l) (st_products st) (st_services st))
    as (ps0 & ss0 & Ht & Hsame).
  rewrite Hm in Ht. rewrite Ht. cbn [bind]. destruct (Hsame Hm) as [-> ->].
  destruct (try_merges_hit (cursor st) l (st_products st) (st_services st)
              (MAX_LINE_MERGE - 1) Hl 1%nat k) as (ps' & ss' & Hw & Hmerge);
    [unfold MAX_LINE_MERGE in *; lia | done | done | done |].
  unfold range_nat. rewrite Hmerge. cbn [bind]. eauto.
Qed.

Lemma step_dropped st l :
  lines !! cursor st = Some l -> strip l <> EmptyString ->
  line_matches (strip l) = false ->
  (forall k, (1 <= k < MAX_LINE_MERGE)%nat -> (cursor st + k < length lines)%nat ->
             line_matches (window lines (cursor st) k) = false) ->
  step lines st =
  Ok {| cursor := cursor st + 1; st_products := st_products st;
        st_services := st_services st |}.
Proof.
  intros Hl Hb Hm Hmiss. unfold step.
  rewrite (get_item_lookup _ _ _ Hl). cbn [bind].
  apply String.eqb_neq in Hb. rewrite Hb.
  destruct (try_match_line_total (strip l) (st_products st) (st_services st))
    as (ps0 & ss0 & Ht & Hsame).
  rewrite Hm in Ht. rewrite Ht. cbn [bind]. destruct (Hsame Hm) as [-> ->].
  unfold range_nat. rewrite (try_merges_miss _ l); [done | done |].
  intros k Hk. apply Hmiss. unfold MAX_LINE_MERGE in *. lia.
Qed.


Lemma try_merges_total (i : nat) (l : string) (mcs : list nat) :
  lines !! i = Some l ->
  forall ps ss, exists w ps' ss',
    try_merges lines i (strip l) ps ss mcs = Ok (w, ps', ss').
Proof.
  intros Hl. induction mcs as [|mc mcs IH]; intros ps ss; simpl; [eauto|].
  destruct (i + mc <? length lines)%nat eqn:Hlt; [|eauto].
  apply Nat.ltb_lt in Hlt.
  rewrite (merge_lines_window i mc l Hlt Hl). cbn [bind].
  destruct (try_match_line_total (window lines i mc) ps ss) as (ps' & ss' & -> & _).
  cbn [bind]. destruct (line_matches (window lines i mc)); eauto.
Qed.

(** Inside the list an iteration never raises and moves the cursor forward. *)
Lemma step_total st :
  (cursor st < length lines)%nat ->
  exists st', step lines st = Ok st' /\ (cursor st < cursor st')%nat.
Proof.
  intros Hlt. destruct (lookup_lt_is_Some_2 lines (cursor st) Hlt) as [l Hl].
  unfold step. rewrite (get_item_lookup _ _ _ Hl). cbn [bind].
  destruct (String.eqb (strip l) EmptyString).
  { eexists. split; [reflexivity | simpl; lia]. }
  destruct (try_match_line_total (strip l) (st_products st) (st_services st))
    as (ps' & ss' & -> & _).
  cbn [bind]. destruct (line_matches (strip l)).
  { eexists. split; [reflexivity | simpl; lia]. }
  destruct (try_merges_total (cursor st) l (range_nat 1 MAX_LINE_MERGE) Hl ps' ss')
    as (w & ps'' & ss'' & ->).
  cbn [bind]. destruct w; (eexists; split; [reflexivity | simpl; lia]).
Qed.

(** With as much fuel as there are lines left, the loop ends by its own
    condition. *)
Lemma while_loop_exits (fuel : nat) :
  forall st, (length lines - cursor st <= fuel)%nat ->
    exists st', while_loop fuel lines st = Ok st' /\ (length lines <= cursor st')%nat.
Proof.
  induction fuel as [|fuel IH]; intros st Hfuel.
  - simpl. destruct (cursor st <? length lines)%nat eqn:E.
    + apply Nat.ltb_lt in E. lia.
    + apply Nat.ltb_ge in E. eauto.
  - simpl. destruct (cursor st <? length lines)%nat eqn:E.
    + apply Nat.ltb_lt in E. destruct (step_total st E) as (st1 & -> & Hadv).
      cbn [bind]. apply IH. lia.
    + apply Nat.ltb_ge in E. eauto.
Qed.

End Tokenizer.

Lemma extract_line_by_line_items_total (text : string) :
  exists ps ss, extract_line_by_line_items text = Ok (ps, ss).
Proof.
  unfold extract_line_by_line_items.
  destruct (while_loop_exits (clean_lines text) (length (clean_lines text))
              {| cursor := 0; st_products := []; st_services := [] |})
    as (st & -> & _); [simpl; lia|].
  cbn [bind]. eauto.
Qed.

Section Normalizer.

Lemma split_length (a : ascii) (s : string) :
  length (split a s) = S (count_chr a s).
Proof.
  induction s as [|c s IH]; [reflexivity|]. simpl.
  destruct (Ascii.eqb c a); simpl; [now rewrite IH|].
  destruct (split a s) as [|h t] eqn:E; simpl in *; [discriminate | lia].
Qed.

Lemma join_removelast (h : string) (t : list string) :
  t <> [] ->
  h ++ join "" (removelast t) = join "" (removelast (h :: t)).
Proof.
  intros Ht. destruct t as [|x t]; [done|].
  change (removelast (h :: x :: t)) with (h :: removelast (x :: t)).
  destruct (removelast (x :: t)) as [|y ys] eqn:E.
  - simpl. now rewrite app_empty_r.
  - reflexivity.
Qed.

Lemma merge_thousands_code (raw : string) :
  (if (2 <? length (split "." raw))%nat
   then hd EmptyString (split "." raw) ++ join "" (middle_of (split "." raw))
        ++ "." ++ List.last (split "." raw) EmptyString
   else raw) = merge_thousands raw.
Proof.
  unfold merge_thousands. rewrite split_length.
  change (2 <? S (count_chr "." raw))%nat with (1 <? count_chr "." raw)%nat.
  destruct (1 <? count_chr "." raw)%nat eqn:E; [|reflexivity].
  apply Nat.ltb_lt in E.
  pose proof (split_length "." raw) as Hlen.
  destruct (split "." raw) as [|h t]; [simpl in Hlen; lia|].
  destruct t as [|x t]; [simpl in Hlen; lia|].
  unfold middle_of. cbn [hd tl].
  rewrite <- app_assoc_str. now rewrite join_removelast.
Qed.

Lemma fix_float_normalize (token : string) : fix_float token = normalize token.
Proof.
  unfold fix_float, normalize, fix_float_clean, remove_noise, collapse_dot_runs.
  cbv zeta. now rewrite merge_thousands_code.
Qed.

End Normalizer.

Section Reports.

Lemma int_mul_float_in_range (n : Z) (x : float) :
  in_float_range n -> exists exp, int_mul_float n x = Ok exp.
Proof. intros [y Hy]. unfold int_mul_float. rewrite Hy. simpl. eauto. Qed.

Lemma int_mul_float_overflow (n : Z) (x : float) :
  ~ in_float_range n -> int_mul_float n x = Raise OverflowError.
Proof.
  intros Hn. unfold int_mul_float, in_float_range, float_of_int in *.
  destruct (binary_normalize prec emax n 0 false);
    try solve [exfalso; apply Hn; eauto].
  reflexivity.
Qed.

Lemma product_mismatches_overflow (ps : list product) :
  Exists (fun p => ~ in_float_range (quantity p)) ps ->
  forall acc, product_mismatches ps acc = Raise OverflowError.
Proof.
  induction ps as [|p ps IH]; intros HE acc; [inversion HE|].
  simpl. destruct (int_mul_float (quantity p) (unit_price p)) as [exp|e] eqn:He.
  - cbn [bind]. apply IH. inversion HE as [? ? Hp|? ? Hps]; subst; [|exact Hps].
    rewrite (int_mul_float_overflow _ _ Hp) in He. discriminate.
  - unfold int_mul_float, float_of_int in He.
    destruct (binary_normalize prec emax (quantity p) 0 false); try discriminate.
    simpl in He. now injection He as <-.
Qed.

Lemma product_mismatches_spec (ps : list product) :
  Forall (fun p => in_float_range (quantity p)) ps ->
  forall acc, product_mismatches ps acc = Ok (acc ++ flat_map product_flag ps)%list.
Proof.
  induction 1 as [|p ps Hp _ IH]; intros acc; simpl.
  - now rewrite app_nil_r.
  - destruct (int_mul_float_in_range _ (unit_price p) Hp) as [exp He].
    unfold product_flag. rewrite He. cbn [bind]. rewrite IH.
    destruct (exceeds exp (total_price p)); [|reflexivity].
    now rewrite <- app_assoc.
Qed.

Lemma service_mismatches_spec (ss : list service) :
  Forall (fun s => in_float_range (hours s)) ss ->
  forall acc, service_mismatches ss acc = Ok (acc ++ flat_map service_flag ss)%list.
Proof.
  induction 1 as [|s ss Hs _ IH]; intros acc; simpl.
  - now rewrite app_nil_r.
  - destruct (int_mul_float_in_range _ (rate_per_hour s) Hs) as [exp He].
    unfold service_flag. rewrite He. cbn [bind]. rewrite IH.
    destruct (exceeds exp (amount s)); [|reflexivity].
    now rewrite <- app_assoc.
Qed.

Lemma product_report_in_range (ps : list product) :
  Forall (fun p => in_float_range (quantity p)) ps ->
  generate_consistency_report_for_products ps =
  Ok {| price_mismatches := flat_map product_flag ps;
        total_inconsistencies := length (flat_map product_flag ps) |}.
Proof.
  intros H. unfold generate_consistency_report_for_products.
  now rewrite (product_mismatches_spec ps H).
Qed.

Lemma service_report_in_range (ss : list service) :
  Forall (fun s => in_float_range (hours s)) ss ->
  generate_consistency_report_for_services ss =
  Ok {| price_mismatches := flat_map service_flag ss;
        total_inconsistencies := length (flat_map service_flag ss) |}.
Proof.
  intros H. unfold generate_consistency_report_for_services.
  now rewrite (service_mismatches_spec ss H).
Qed.

Lemma product_po_list_elem (ps : list product) (po : string) :
  po ∈ product_po_list ps <->
  exists p, p ∈ ps /\ po_number p = Some po /\ po <> EmptyString.
Proof.
  unfold product_po_list. rewrite list_elem_of_In, in_flat_map. split.
  - intros (p & Hp & Hin). exists p. rewrite list_elem_of_In. split; [done|].
    destruct (po_number p) as [[|c s]|]; simpl in Hin; try contradiction.
    destruct Hin as [<-|[]]. done.
  - intros (p & Hp & Hpo & Hne). exists p. rewrite <- list_elem_of_In. split; [done|].
    rewrite Hpo. destruct po; [done | now left].
Qed.

Lemma extract_supplier_info_total (text : string) :
  exists o, extract_supplier_info text = Ok o.
Proof.
  unfold extract_supplier_info.
  destruct (search false SUPPLIER_PATTERN text) as [m|] eqn:Hs; [|eauto].
  destruct (search_group_set _ _ _ _ 1%nat Hs) as [n Hn]; [vm_compute; tauto|].
  destruct (search_group_set _ _ _ _ 2%nat Hs) as [a Ha]; [vm_compute; tauto|].
  rewrite Hn, Ha. simpl. eauto.
Qed.

End Reports.


(** * Stated properties *)

(** C1.  [fix_float] is the normalizer of the specification, step for step and
    in its order; on the four vectors it gives 1234.56, 12.34, 0.0 and 10.5 (as
    binary64 values); and when [float] rejects the cleaned token it gives 0.0
    instead of raising. *)
Theorem C1_fix_float_normalizer :
  (forall token, fix_float token = normalize token) /\
  fix_float_clean "1.234,56" = "1234.56" /\
  fix_float "1.234,56" = S754_finite false 5429652300748554 (-42) /\
  fix_float "12..34" = S754_finite false 6946802425218990 (-49) /\
  fix_float EmptyString = S754_zero false /\
  fix_float "S1_0.5" = S754_finite false 5910974510923776 (-49) /\
  (forall token e,
     py_float (fix_float_clean token) = Raise e -> fix_float token = S754_zero false).
Proof.
  split; [exact fix_float_normalize|].
  repeat (split; [vm_compute; reflexivity|]).
  intros token e H. unfold fix_float. now rewrite H.
Qed.

(** C2.  One iteration of the tokenizer at a cursor inside the list.  A blank
    line moves the cursor by one and calls no grammar.  A line some grammar
    matches moves it by one.  Otherwise the windows of width 1, 2, ... up to 5
    that fit in the list are tried in turn, each the stripped lines joined by
    single spaces; the first one some grammar matches, of width [k], moves the
    cursor by [k + 1], and when none matches the cursor moves by one and both
    lists are unchanged. *)
Theorem C2_merge_window (lines : list string) (st : cursor_state) (l : string) :
  lines !! cursor st = Some l ->
  (strip l = EmptyString ->
   step lines st =
   Ok {| cursor := cursor st + 1; st_products := st_products st;
         st_services := st_services st |}) /\
  (strip l <> EmptyString -> line_matches (strip l) = true ->
   exists ps' ss',
     try_match_line (strip l) (st_products st) (st_services st) = Ok (true, ps', ss') /\
     step lines st =
     Ok {| cursor := cursor st + 1; st_products := ps'; st_services := ss' |}) /\
  (strip l <> EmptyString -> line_matches (strip l) = false ->
   forall k : nat,
     (1 <= k <= 5)%nat -> (cursor st + k < length lines)%nat ->
     (forall k', (1 <= k' < k)%nat ->
                 line_matches (window lines (cursor st) k') = false) ->
     line_matches (window lines (cursor st) k) = true ->
     exists ps' ss',
       try_match_line (window lines (cursor st) k) (st_products st) (st_services st)
         = Ok (true, ps', ss') /\
       step lines st =
       Ok {| cursor := cursor st + (k + 1); st_products := ps'; st_services := ss' |}) /\
  (strip l <> EmptyString -> line_matches (strip l) = false ->
   (forall k : nat,
      (1 <= k <= 5)%nat -> (cursor st + k < length lines)%nat ->
      line_matches (window lines (cursor st) k) = false) ->
   step lines st =
   Ok {| cursor := cursor st + 1; st_products := st_products st;
         st_services := st_services st |}).
Proof.
  intros Hl. repeat split.
  - exact (step_blank lines st l Hl).
  - exact (step_single lines st l Hl).
  - intros Hb Hm k Hk. apply (step_merged lines st l k Hl Hb Hm).
    unfold MAX_LINE_MERGE. lia.
  - intros Hb Hm Hmiss. apply (step_dropped lines st l Hl Hb Hm).
    intros k Hk. apply Hmiss. unfold MAX_LINE_MERGE in Hk. lia.
Qed.

(** The record of [sample_a] split over lines 1 to 3 of [split_lines]: the
    iteration at cursor 1 recovers the record of the single line and leaves the
    cursor at 4, three lines further. *)
Lemma C2_merge_window_witness :
  split_lines !! 1%nat = Some "Product Code: PRD-001 Quantity: 3 units" /\
  exists ps' ss',
    try_match_line (window split_lines 1 2) [] [] = Ok (true, ps', ss') /\
    try_match_line sample_a [] [] = Ok (true, ps', ss') /\
    step split_lines {| cursor := 1; st_products := []; st_services := [] |} =
    Ok {| cursor := 4; st_products := ps'; st_services := ss' |}.
Proof.
  split; [reflexivity|].
  destruct (C2_merge_window split_lines
              {| cursor := 1; st_products := []; st_services := [] |}
              "Product Code: PRD-001 Quantity: 3 units" eq_refl)
    as (_ & _ & Hwin & _).
  destruct (Hwin ltac:(vm_compute; discriminate) ltac:(vm_compute; reflexivity) 2%nat)
    as (ps' & ss' & Ht & Hs).
  - lia.
  - simpl. lia.
  - intros k' Hk'. assert (k' = 1%nat) as -> by lia. vm_compute. reflexivity.
  - vm_compute. reflexivity.
  - exists ps', ss'. split; [exact Ht|]. split; [|exact Hs].
    rewrite <- Ht. vm_compute. reflexivity.
Defined.

(** C3, as amended.  For product records whose quantities [float] can
    represent, the report lists, in order, one entry for each record with
    [abs(quantity * unit_price - total_price) > 0.01] (strictly: a difference
    equal to the tolerance is not reported), carrying the expected total rounded
    to two decimals and the stated total, and [total_inconsistencies] is the
    number of entries; the same for service records with hours, rate and
    amount. *)
Theorem C3_price_reports (ps : list product) (ss : list service) :
  Forall (fun p => in_float_range (quantity p)) ps ->
  Forall (fun s => in_float_range (hours s)) ss ->
  generate_consistency_report_for_products ps =
    Ok {| price_mismatches := flat_map product_flag ps;
          total_inconsistencies := length (flat_map product_flag ps) |} /\
  generate_consistency_report_for_services ss =
    Ok {| price_mismatches := flat_map service_flag ss;
          total_inconsistencies := length (flat_map service_flag ss) |} /\
  (forall p, p ∈ ps -> exists exp,
     int_mul_float (quantity p) (unit_price p) = Ok exp /\
     product_flag p =
       if fgt (fabs (fsub exp (total_price p))) tolerance
       then [{| item := product_code p; expected_total := round2 exp;
                actual_total := total_price p |}]
       else []) /\
  (forall s, s ∈ ss -> exists exp,
     int_mul_float (hours s) (rate_per_hour s) = Ok exp /\
     service_flag s =
       if fgt (fabs (fsub exp (amount s))) tolerance
       then [{| item := service_name s; expected_total := round2 exp;
                actual_total := amount s |}]
       else []) /\
  (forall exp act, fabs (fsub exp act) = tolerance -> exceeds exp act = false).
Proof.
  intros Hps Hss.
  split; [now apply product_report_in_range|].
  split; [now apply service_report_in_range|].
  split; [|split]; [| |intros exp act H; unfold exceeds; now rewrite H].
  - intros p Hp. rewrite Forall_forall in Hps.
    destruct (int_mul_float_in_range _ (unit_price p) (Hps p Hp)) as [exp He].
    exists exp. split; [exact He|]. unfold product_flag. now rewrite He.
  - intros s Hs. rewrite Forall_forall in Hss.
    destruct (int_mul_float_in_range _ (rate_per_hour s) (Hss s Hs)) as [exp He].
    exists exp. split; [exact He|]. unfold service_flag. now rewrite He.
Qed.

(** The vectors of the specification: 3 x 10.0 against 31.0 is reported with
    expected 30.0 and actual 31.0; against 30.0 it is not; and 1 x 0.01 against
    0.0, a difference equal to the tolerance, is not. *)
Lemma C3_price_reports_witness :
  Forall (fun p => in_float_range (quantity p))
    [mk_product 3 (lit 100 1) (lit 310 1) None;
     mk_product 3 (lit 100 1) (lit 300 1) None;
     mk_product 1 (lit 1 2) zero None] /\
  Forall (fun s => in_float_range (hours s)) [] /\
  generate_consistency_report_for_products
    [mk_product 3 (lit 100 1) (lit 310 1) None;
     mk_product 3 (lit 100 1) (lit 300 1) None;
     mk_product 1 (lit 1 2) zero None] =
  Ok {| price_mismatches :=
          [{| item := Some "PRD-1"; expected_total := lit 300 1;
              actual_total := lit 310 1 |}];
        total_inconsistencies := 1 |}.
Proof.
  assert (H1 : Forall (fun p => in_float_range (quantity p))
                 [mk_product 3 (lit 100 1) (lit 310 1) None;
                  mk_product 3 (lit 100 1) (lit 300 1) None;
                  mk_product 1 (lit 1 2) zero None]).
  { repeat constructor; eexists; vm_compute; reflexivity. }
  assert (H2 : Forall (fun s => in_float_range (hours s)) []) by constructor.
  split; [exact H1|]. split; [exact H2|].
  destruct (C3_price_reports _ _ H1 H2) as (-> & _). vm_compute. reflexivity.
Defined.

(** At a quantity of 401 digits the multiplication overflows and no report is
    produced. *)
Lemma C3_overflow_counterexample :
  generate_consistency_report_for_products [mk_product huge (lit 10 1) (lit 10 1) None]
  = Raise OverflowError.
Proof. vm_compute. reflexivity. Qed.

(** C4.  The PO report is the difference of the two collections in both
    directions: [missing_in_extracted] holds the PO numbers some product
    carries that the header list lacks, [unused_in_products] the header PO
    numbers no product carries, and the total is the sum of their lengths.
    Header POs 100 and 200 with one product on PO 100 give no missing PO and
    200 unused. *)
Theorem C4_po_report (ps : list product) (pos : list string) :
  let r := generate_po_consistency_report ps pos in
  (forall po, po ∈ missing_in_extracted r <->
     (exists p, p ∈ ps /\ po_number p = Some po /\ po <> EmptyString) /\ po ∉ pos) /\
  (forall po, po ∈ unused_in_products r <->
     po ∈ pos /\ ~ (exists p, p ∈ ps /\ po_number p = Some po /\ po <> EmptyString)) /\
  po_total_inconsistencies r =
    (length (missing_in_extracted r) + length (unused_in_products r))%nat /\
  generate_po_consistency_report [mk_product 1 zero zero (Some "100")] ["100"; "200"] =
    {| missing_in_extracted := []; unused_in_products := ["200"];
       po_total_inconsistencies := 1 |}.
Proof.
  cbv zeta. unfold generate_po_consistency_report. cbn [missing_in_extracted
    unused_in_products po_total_inconsistencies].
  split; [|split; [|split]].
  - intros po. rewrite list_elem_of_filter, product_po_list_elem. tauto.
  - intros po. rewrite list_elem_of_filter, product_po_list_elem. tauto.
  - reflexivity.
  - vm_compute. reflexivity.
Qed.

(** C5, as amended.  When Camelot returns at least one table and every
    quantity read from the table rows is one [float] can represent, the result
    has no services and a service report with no mismatch; the invoice number,
    supplier and PO numbers are those found in the PyPDF2 text, the products
    are those of the table rows, and the product and PO reports are the ones
    the report functions compute for them. *)
Theorem C5_table_mode (pdf : document) (tables : list table) :
  camelot_read_pdf pdf = Ok tables ->
  tables <> [] ->
  Forall (fun p => in_float_range (quantity p))
    (map row_to_product (parse_camelot_tables tables)) ->
  exists r,
    process_pdf pdf = Ok r /\
    services r = [] /\
    total_inconsistencies (service_inconsistencies r) = 0%nat /\
    price_mismatches (service_inconsistencies r) = [] /\
    invoice_number r = extract_invoice_details (extract_text_with_pypdf2 pdf) /\
    extract_supplier_info (extract_text_with_pypdf2 pdf) = Ok (supplier_info r) /\
    po_numbers r = extract_po_numbers (extract_text_with_pypdf2 pdf) /\
    products r = map row_to_product (parse_camelot_tables tables) /\
    generate_consistency_report_for_products (products r)
      = Ok (product_inconsistencies r) /\
    po_inconsistencies r = generate_po_consistency_report (products r) (po_numbers r).
Proof.
  intros Hc Hne Hrange.
  destruct (extract_supplier_info_total (extract_text_with_pypdf2 pdf)) as [supp Hsupp].
  pose proof (product_report_in_range _ Hrange) as Hrep.
  unfold process_pdf, table_path. rewrite Hc. cbn [bind].
  destruct tables as [|t ts]; [done|].
  rewrite Hsupp. cbn [bind]. rewrite Hrep. cbn [bind].
  eexists. split; [reflexivity|]. cbn. repeat split; auto.
Qed.

Lemma C5_table_mode_witness :
  camelot_read_pdf (table_pdf "2") =
    Ok [[["Product Code"; "Qty"; "Price"; "Total"]; ["PRD-9"; "2"; "2.50"; "5.00"]]] /\
  exists r,
    process_pdf (table_pdf "2") = Ok r /\ services r = [] /\
    total_inconsistencies (service_inconsistencies r) = 0%nat /\
    invoice_number r = Some "INV-7" /\ po_numbers r = ["100"; "200"] /\
    supplier_info r = Some {| name := "ACME LTD"; address := "1 Main St" |}.
Proof.
  split; [reflexivity|].
  destruct (C5_table_mode (table_pdf "2")
              [[["Product Code"; "Qty"; "Price"; "Total"];
                ["PRD-9"; "2"; "2.50"; "5.00"]]] eq_refl)
    as (r & Hr & Hs & Ht & _ & Hi & Hsupp & Hpo & _).
  - discriminate.
  - repeat constructor. eexists. vm_compute. reflexivity.
  - exists r. repeat (split; [assumption|]).
    assert (E : extract_supplier_info (extract_text_with_pypdf2 (table_pdf "2")) =
                Ok (Some {| name := "ACME LTD"; address := "1 Main St" |}))
      by (vm_compute; reflexivity).
    rewrite E in Hsupp. congruence.
Defined.

(** With a table whose quantity cell has 401 digits the product report
    overflows inside the [try], the text path takes over, and the result has a
    service and a service mismatch. *)
Lemma C5_overflow_counterexample :
  exists tables r,
    camelot_read_pdf (table_pdf huge_digits) = Ok tables /\ tables <> [] /\
    process_pdf (table_pdf huge_digits) = Ok r /\
    services r =
      [{| service_name := "Consulting"; hours := 5; rate_per_hour := lit 1000 1;
          amount := lit 4500 1 |}] /\
    total_inconsistencies (service_inconsistencies r) = 1%nat.
Proof.
  eexists _, _. split; [reflexivity|]. split; [discriminate|].
  split; [vm_compute; reflexivity|]. split; reflexivity.
Qed.

(** C6.  [try_match_line] tries Grammar A, then B, then the service grammar,
    and the first that matches alone decides what the line gives, whatever the
    later ones would match: when A matches, the record of A's captures; when A
    does not and B does, the record of B's captures; when only the service
    grammar does, its service record; and when none matches, no record.  The
    record is appended when [int] converts the quantity or hours capture, and
    the line gives no record when the capture has more than 4300 digits.  On
    [sample_a_and_b], which both A and B match, only A's record is produced. *)
Theorem C6_grammar_priority (line : string) (ps : list product) (ss : list service) :
  (forall m, search true PRODUCT_CODE_PATTERN_A line = Some m ->
     exists code qty up amt,
       group m 1 = Some code /\ group m 2 = Some qty /\
       group m 3 = Some up /\ group m 4 = Some amt /\
       try_match_line line ps ss =
         Ok (true,
             (ps ++ if (String.length qty <=? MAX_STR_DIGITS)%nat
                    then [record_a (Some code) qty up amt] else [])%list,
             ss)) /\
  (forall m, search true PRODUCT_CODE_PATTERN_A line = None ->
     search true PRODUCT_CODE_PATTERN_B line = Some m ->
     exists code descr qty price total,
       group m 1 = Some code /\ group m 2 = Some descr /\
       group m 3 = Some qty /\ group m 4 = Some price /\ group m 5 = Some total /\
       try_match_line line ps ss =
         Ok (true,
             (ps ++ if (String.length qty <=? MAX_STR_DIGITS)%nat
                    then [record_b code descr qty price total
                            (if truthy (group m 6) then group m 6 else None)]
                    else [])%list,
             ss)) /\
  (forall m, search true PRODUCT_CODE_PATTERN_A line = None ->
     search true PRODUCT_CODE_PATTERN_B line = None ->
     search true SERVICE_PATTERN line = Some m ->
     exists svc hrs rate amt,
       group m 1 = Some svc /\ group m 2 = Some hrs /\
       group m 3 = Some rate /\ group m 4 = Some amt /\
       try_match_line line ps ss =
         Ok (true, ps,
             (ss ++ if (String.length hrs <=? MAX_STR_DIGITS)%nat
                    then [record_s svc hrs rate amt] else [])%list)) /\
  (search true PRODUCT_CODE_PATTERN_A line = None ->
   search true PRODUCT_CODE_PATTERN_B line = None ->
   search true SERVICE_PATTERN line = None ->
   try_match_line line ps ss = Ok (false, ps, ss)) /\
  (is_Some (search true PRODUCT_CODE_PATTERN_A sample_a_and_b) /\
   is_Some (search true PRODUCT_CODE_PATTERN_B sample_a_and_b) /\
   try_match_line sample_a_and_b [] [] =
     Ok (true, [record_a (Some "PRD-1") "3" "1.50" "4.50"], [])).
Proof.
  split; [intros m; apply try_match_line_a|].
  split; [intros m; apply try_match_line_b|].
  split; [intros m; apply try_match_line_s|].
  split; [apply try_match_line_none|].
  split; [vm_compute; eauto|]. split; [vm_compute; eauto|].
  vm_compute. reflexivity.
Qed.

(** On [long_quantity_a_and_b] both A and B match, and the line gives no
    record: A's quantity has 4301 digits, [int] raises [ValueError], the
    builder leaves the list as it was, and B is not tried. *)
Lemma C6_digit_limit_counterexample :
  is_Some (search true PRODUCT_CODE_PATTERN_A long_quantity_a_and_b) /\
  is_Some (search true PRODUCT_CODE_PATTERN_B long_quantity_a_and_b) /\
  try_match_line long_quantity_a_and_b [] [] = Ok (true, [], []).
Proof.
  split; [vm_compute; eauto|]. split; [vm_compute; eauto|].
  vm_compute. reflexivity.
Qed.

(** C7.  What [extract_supplier_info] does on a supplier line ending in INC or
    GMBH: the name it returns is the bare suffix, not the line, because the
    alternation of the pattern spans the whole group; such a suffix is found
    on a line that is not made of uppercase words as well.  A line ending in
    LTD gives the line and the next one. *)
Theorem C7_supplier_suffix_only :
  extract_supplier_info ("ACME INC" ++ nl ++ "1 Main St" ++ nl) =
    Ok (Some {| name := "INC"; address := "1 Main St" |}) /\
  extract_supplier_info ("ACME GMBH" ++ nl ++ "1 Main St" ++ nl) =
    Ok (Some {| name := "GMBH"; address := "1 Main St" |}) /\
  extract_supplier_info ("paid by wire to INC" ++ nl ++ "thanks" ++ nl) =
    Ok (Some {| name := "INC"; address := "thanks" |}) /\
  extract_supplier_info ("ACME LTD" ++ nl ++ "1 Main St" ++ nl) =
    Ok (Some {| name := "ACME LTD"; address := "1 Main St" |}).
Proof. repeat split; vm_compute; reflexivity. Qed.

(** C8.  An exception of Camelot sends the document to the text path and an
    exception of PyPDF2 gives the empty text, but an exception of the OCR
    reader leaves [process_pdf]: when no table is found, the text is shorter
    than the threshold and the OCR reader raises, [process_pdf] raises. *)
Theorem C8_ocr_exception_escapes :
  process_pdf unreadable_pdf = Raise CollaboratorError /\
  (forall pdf e, camelot_read_pdf pdf = Raise e -> process_pdf pdf = text_path pdf) /\
  (forall pdf e, pypdf2_pages pdf = Raise e ->
                 extract_text_with_pypdf2 pdf = EmptyString) /\
  (forall pdf e,
     (camelot_read_pdf pdf = Ok [] \/ exists e', camelot_read_pdf pdf = Raise e') ->
     (String.length (extract_text_with_pypdf2 pdf) < MIN_CHAR_THRESHOLD)%nat ->
     easyocr_pages pdf = Raise e ->
     process_pdf pdf = Raise e).
Proof.
  split; [reflexivity|].
  split; [intros pdf e H; unfold process_pdf, table_path; now rewrite H|].
  split; [intros pdf e H; unfold extract_text_with_pypdf2; now rewrite H|].
  intros pdf e Hc Hlen Hocr.
  assert (Htext : text_path pdf = Raise e).
  { unfold text_path, pdf_to_text_fallback, ocr_with_easyocr.
    apply Nat.leb_gt in Hlen. rewrite Hlen, Hocr. reflexivity. }
  unfold process_pdf, table_path.
  destruct Hc as [-> | [e' ->]]; exact Htext.
Qed.

(** C9.  On every line a grammar matches, the quantity or hours capture is a
    non-empty string of digits.  When it has at most 4300 digits, [int]
    accepts it and the builder appends exactly one record, with that number:
    the [except ValueError] branch is not taken and no other exception is
    raised.  When it has more, [int] raises [ValueError], the branch is taken
    and the builder returns the list as it was. *)
Theorem C9_match_appends_one_record (line : string) :
  (forall m ps, search true PRODUCT_CODE_PATTERN_A line = Some m ->
     exists qty rec,
       group m 2 = Some qty /\ qty <> EmptyString /\
       all_chars is_digit qty = true /\ quantity rec = digits_val 0 qty /\
       ((String.length qty <= MAX_STR_DIGITS)%nat ->
        int_of (group m 2) = Ok (digits_val 0 qty) /\
        parse_pattern_a m ps = Ok (ps ++ [rec])%list) /\
       ((MAX_STR_DIGITS < String.length qty)%nat ->
        int_of (group m 2) = Raise ValueError /\
        parse_pattern_a m ps = Ok ps)) /\
  (forall m ps, search true PRODUCT_CODE_PATTERN_B line = Some m ->
     exists qty rec,
       group m 3 = Some qty /\ qty <> EmptyString /\
       all_chars is_digit qty = true /\ quantity rec = digits_val 0 qty /\
       ((String.length qty <= MAX_STR_DIGITS)%nat ->
        (qty_str <- strip_of (group m 3) ;; py_int qty_str) = Ok (digits_val 0 qty) /\
        parse_pattern_b m ps = Ok (ps ++ [rec])%list) /\
       ((MAX_STR_DIGITS < String.length qty)%nat ->
        (qty_str <- strip_of (group m 3) ;; py_int qty_str) = Raise ValueError /\
        parse_pattern_b m ps = Ok ps)) /\
  (forall m ss, search true SERVICE_PATTERN line = Some m ->
     exists hrs rec,
       group m 2 = Some hrs /\ hrs <> EmptyString /\
       all_chars is_digit hrs = true /\ hours rec = digits_val 0 hrs /\
       ((String.length hrs <= MAX_STR_DIGITS)%nat ->
        (hrs_str <- strip_of (group m 2) ;; py_int hrs_str) = Ok (digits_val 0 hrs) /\
        parse_pattern_service m ss = Ok (ss ++ [rec])%list) /\
       ((MAX_STR_DIGITS < String.length hrs)%nat ->
        (hrs_str <- strip_of (group m 2) ;; py_int hrs_str) = Raise ValueError /\
        parse_pattern_service m ss = Ok ss)).
Proof.
  repeat split.
  - intros m ps Hs.
    destruct (parse_pattern_a_appends line m ps Hs)
      as (code & qty & up & amt & _ & H2 & _ & _ & Hne & Hd & Hint & Hp).
    exists qty, (record_a (Some code) qty up amt).
    repeat (split; [done|]). unfold built, within_limit in Hint, Hp. rewrite Hint, Hp.
    split; intros Hlen.
    + apply Nat.leb_le in Hlen. now rewrite Hlen.
    + apply Nat.leb_gt in Hlen. now rewrite Hlen, app_nil_r.
  - intros m ps Hs.
    destruct (parse_pattern_b_appends line m ps Hs)
      as (code & descr & qty & price & total & _ & _ & H3 & _ & _ & Hne & Hd & Hint & Hp).
    exists qty, (record_b code descr qty price total
                   (if truthy (group m 6) then group m 6 else None)).
    repeat (split; [done|]). unfold built, within_limit in Hint, Hp. rewrite Hint, Hp.
    split; intros Hlen.
    + apply Nat.leb_le in Hlen. now rewrite Hlen.
    + apply Nat.leb_gt in Hlen. now rewrite Hlen, app_nil_r.
  - intros m ss Hs.
    destruct (parse_pattern_service_appends line m ss Hs)
      as (svc & hrs & rate & amt & _ & H2 & _ & _ & Hne & Hd & Hint & Hp).
    exists hrs, (record_s svc hrs rate amt).
    repeat (split; [done|]). unfold built, within_limit in Hint, Hp. rewrite Hint, Hp.
    split; intros Hlen.
    + apply Nat.leb_le in Hlen. now rewrite Hlen.
    + apply Nat.leb_gt in Hlen. now rewrite Hlen, app_nil_r.
Qed.

(** Each grammar matches its line with a quantity or hour count of 4301
    digits; [int] rejects the capture and the builder appends nothing, so the
    matched line leaves no record. *)
Lemma C9_digit_limit_counterexample :
  option_map (fun m => (int_of (group m 2), parse_pattern_a m []))
    (search true PRODUCT_CODE_PATTERN_A long_quantity_a)
  = Some (Raise ValueError, Ok []) /\
  option_map (fun m => (qty_str <- strip_of (group m 3) ;; py_int qty_str,
                        parse_pattern_b m []))
    (search true PRODUCT_CODE_PATTERN_B long_quantity_b)
  = Some (Raise ValueError, Ok []) /\
  option_map (fun m => (hrs_str <- strip_of (group m 2) ;; py_int hrs_str,
                        parse_pattern_service m []))
    (search true SERVICE_PATTERN long_hours)
  = Some (Raise ValueError, Ok []) /\
  try_match_line long_quantity_a [] [] = Ok (true, [], []) /\
  try_match_line long_quantity_b [] [] = Ok (true, [], []) /\
  try_match_line long_hours [] [] = Ok (true, [], []).
Proof. repeat split; vm_compute; reflexivity. Qed.

(** C10.  In the table path a row whose Qty cell [int] rejects gives quantity
    0, unit price 0.0 and total 0.0 together, whatever its Price and Total
    cells hold; a row whose Qty cell parses gets its three numbers from the
    cells; a missing column reads as the empty string for the product code and
    as the string 0 for the numbers; and a table with fewer than two rows
    gives no row. *)
Theorem C10_table_rows :
  (forall row e,
     py_int (row_get row "Qty" "0") = Raise e ->
     row_to_product row =
       {| product_code := Some (row_get row "Product Code" EmptyString);
          description := None; quantity := 0; unit_price := zero;
          total_price := zero; po_number := None |}) /\
  (forall row q,
     py_int (row_get row "Qty" "0") = Ok q ->
     row_to_product row =
       {| product_code := Some (row_get row "Product Code" EmptyString);
          description := None; quantity := q;
          unit_price := fix_float (row_get row "Price" "0");
          total_price := fix_float (row_get row "Total" "0");
          po_number := None |}) /\
  (forall (row : gmap string string) key dflt,
     row !! key = None -> row_get row key dflt = dflt) /\
  row_to_product ∅ =
    {| product_code := Some EmptyString; description := None; quantity := 0;
       unit_price := zero; total_price := zero; po_number := None |} /\
  row_to_product (to_dict ["Product Code"; "Qty"; "Price"; "Total"]
                          ["PRD-9"; "two"; "2.50"; "5.00"]) =
    {| product_code := Some "PRD-9"; description := None; quantity := 0;
       unit_price := zero; total_price := zero; po_number := None |} /\
  (forall (t : table) ts,
     (length t < 2)%nat -> parse_camelot_tables (t :: ts) = parse_camelot_tables ts) /\
  (forall header r rs ts,
     parse_camelot_tables ((header :: r :: rs) :: ts) =
     (map (to_dict header) (r :: rs) ++ parse_camelot_tables ts)%list).
Proof.
  split; [intros row e H; unfold row_to_product; cbv zeta; now rewrite H|].
  split; [intros row q H; unfold row_to_product; cbv zeta; now rewrite H|].
  split; [intros row key dflt H; unfold row_get; now rewrite H|].
  split; [vm_compute; reflexivity|].
  split; [vm_compute; reflexivity|].
  split; [|reflexivity].
  intros t ts Hlen. destruct t as [|h [|r rs]]; simpl in *; [done | done | lia].
Qed.

(** * Worked examples *)

(** The Grammar A and Grammar B vectors of the specification. *)
Example grammar_a_vector :
  try_match_line sample_a [] [] =
  Ok (true,
      [{| product_code := Some "PRD-001"; description := None; quantity := 3;
          unit_price := lit 100 1; total_price := lit 300 1; po_number := None |}],
      []).
Proof. vm_compute. reflexivity. Qed.

Example grammar_b_vector_with_po :
  try_match_line sample_b_po [] [] =
  Ok (true,
      [{| product_code := Some "PRD-77X"; description := Some "Power Supply";
          quantity := 2; unit_price := lit 50 1; total_price := lit 100 1;
          po_number := Some "123" |}],
      []).
Proof. vm_compute. reflexivity. Qed.

Example grammar_b_vector_without_po :
  try_match_line "PRD-77X Power Supply Qty: 2 Price: $5.00 Total: $10.00" [] [] =
  Ok (true,
      [{| product_code := Some "PRD-77X"; description := Some "Power Supply";
          quantity := 2; unit_price := lit 50 1; total_price := lit 100 1;
          po_number := None |}],
      []).
Proof. vm_compute. reflexivity. Qed.

(** The whole tokenizer on the split record and on its single-line form. *)
Example tokenizer_recovers_split_record :
  extract_line_by_line_items (join nl split_lines) =
  extract_line_by_line_items (join nl ["Invoice"; sample_a; "Thank you"]).
Proof. vm_compute. reflexivity. Qed.

(** A blank line inside a window is one of its lines: with a blank line after
    the first part, the record is found at width 3 and four lines are
    consumed. *)
Example blank_line_inside_window :
  step ["Product Code: PRD-001 Quantity: 3 units"; EmptyString;
        "Unit Price: $10.00"; "Amount: $30.00"]
       {| cursor := 0; st_products := []; st_services := [] |} =
  Ok {| cursor := 4;
        st_products :=
          [{| product_code := Some "PRD-001"; description := None; quantity := 3;
              unit_price := lit 100 1; total_price := lit 300 1;
              po_number := None |}];
        st_services := [] |}.
Proof. vm_compute. reflexivity. Qed.

(** The tolerance is compared in binary64: 30.01 is not exactly representable,
    so 3 x 10.0 against 30.01 differs by slightly more than the float 0.01 and
    is reported, while 1 x 0.02 against 0.01 differs by exactly the float 0.01
    and is not. *)
Example tolerance_in_binary64 :
  exceeds (lit 300 1) (lit 3001 2) = true /\
  exceeds (lit 2 2) (lit 1 2) = false.
Proof. split; vm_compute; reflexivity. Qed.

(** An overflowing quantity met on the text path leaves [process_pdf] as an
    exception too. *)
Example overflow_on_text_path :
  process_pdf
    {| camelot_read_pdf := Ok [];
       pypdf2_pages :=
         Ok ["Product Code: PRD-001 Quantity: " ++ huge_digits ++
             " Unit Price: $10.00 Amount: $30.00 and some more text to pass the threshold"];
       easyocr_pages := Raise CollaboratorError |}
  = Raise OverflowError.
Proof. vm_compute. reflexivity. Qed.

(** * Further properties *)

Section Acquisition.

Lemma ocr_text_from (images : list (list string)) (acc : string) :
  fold_left (fun extracted_text blocks => extracted_text ++ join " " blocks ++ nl)
    images acc = acc ++ ocr_text images.
Proof.
  unfold ocr_text. revert acc. induction images as [|b bs IH]; intros acc; simpl.
  - now rewrite app_empty_r.
  - rewrite IH. rewrite (IH (EmptyString ++ join " " b ++ nl)).
    rewrite app_nil_l. now rewrite !app_assoc_str.
Qed.

Lemma ocr_text_app (p q : list (list string)) :
  ocr_text (p ++ q)%list = ocr_text p ++ ocr_text q.
Proof.
  unfold ocr_text at 1. rewrite fold_left_app. fold (ocr_text p).
  apply ocr_text_from.
Qed.

Lemma ocr_text_length (images : list (list string)) :
  (length images <= String.length (ocr_text images))%nat.
Proof.
  induction images as [|b bs IH]; [simpl; lia|].
  change (b :: bs) with ([b] ++ bs)%list. rewrite ocr_text_app, length_app_str.
  unfold ocr_text at 1. simpl fold_left. rewrite app_nil_l, length_app_str.
  simpl. lia.
Qed.

End Acquisition.

(** X1.  [ocr_with_easyocr] builds its text page by page: the text of a run of
    pages followed by another is the concatenation of their texts, one page
    gives its blocks joined by spaces and a line feed, and the text has at
    least one character per page. *)
Theorem X1_ocr_text_by_page (c : result (list table)) (t : result (list string))
    (p q : list (list string)) :
  ocr_with_easyocr {| camelot_read_pdf := c; pypdf2_pages := t;
                      easyocr_pages := Ok (p ++ q)%list |}
    = Ok (ocr_text p ++ ocr_text q) /\
  (forall blocks, ocr_text [blocks] = join " " blocks ++ nl) /\
  (length (p ++ q)%list <= String.length (ocr_text p ++ ocr_text q))%nat.
Proof.
  split; [|split].
  - unfold ocr_with_easyocr. cbn [bind easyocr_pages]. fold (ocr_text (p ++ q)%list).
    now rewrite ocr_text_app.
  - intros blocks. unfold ocr_text. simpl. now rewrite app_nil_l.
  - rewrite <- ocr_text_app. apply ocr_text_length.
Qed.

Section Tables.

Lemma parse_camelot_tables_app (ts1 ts2 : list table) :
  parse_camelot_tables (ts1 ++ ts2)%list =
  (parse_camelot_tables ts1 ++ parse_camelot_tables ts2)%list.
Proof. unfold parse_camelot_tables. apply flat_map_app. Qed.

Lemma fold_insert_other (l : list (string * string)) (k : string) :
  forall acc : gmap string string,
    k ∉ l.*1 ->
    fold_left (fun d kv => <[kv.1 := kv.2]> d) l acc !! k = acc !! k.
Proof.
  induction l as [|[k' v'] l IH]; intros acc Hk; simpl; [done|].
  rewrite fmap_cons in Hk. apply not_elem_of_cons in Hk. destruct Hk as [Hne Hk].
  rewrite IH by done. simpl. now rewrite lookup_insert_ne.
Qed.

Lemma fold_insert_found (l : list (string * string)) (k v : string) :
  forall acc : gmap string string,
    NoDup l.*1 -> (k, v) ∈ l ->
    fold_left (fun d kv => <[kv.1 := kv.2]> d) l acc !! k = Some v.
Proof.
  induction l as [|[k' v'] l IH]; intros acc Hnd Hin; [inversion Hin|].
  rewrite fmap_cons in Hnd. apply NoDup_cons in Hnd. destruct Hnd as [Hk' Hnd].
  simpl. apply elem_of_cons in Hin. destruct Hin as [[= <- <-]|Hin].
  - rewrite fold_insert_other by done. apply lookup_insert_eq.
  - now apply IH.
Qed.

Lemma zip_keys_prefix (header row : list string) :
  exists rest, header = ((zip header row).*1 ++ rest)%list.
Proof.
  revert row. induction header as [|h hs IH]; intros row; [now exists []|].
  destruct row as [|r rs]; [now exists (h :: hs)|].
  destruct (IH rs) as [rest Hrest]. exists rest. cbn. f_equal. exact Hrest.
Qed.

Lemma po_number_row (row : gmap string string) : po_number (row_to_product row) = None.
Proof.
  unfold row_to_product.
  destruct (try_or _ _) as [[q p] t]. reflexivity.
Qed.

Lemma product_po_list_rows (rows : list (gmap string string)) :
  product_po_list (map row_to_product rows) = [].
Proof.
  induction rows as [|r rows IH]; [reflexivity|].
  simpl. unfold product_po_list in *. simpl. rewrite po_number_row. exact IH.
Qed.

Lemma filter_not_in_nil (l : list string) : filter (fun po => po ∉ []) l = l.
Proof.
  induction l as [|x l IH]; [reflexivity|].
  rewrite filter_cons_True by apply not_elem_of_nil. now rewrite IH.
Qed.

End Tables.

(** X2.  [parse_camelot_tables] gives one row dictionary per data row: a table
    of [n] rows contributes [n - 1] of them (none when it has no data row), in
    table order. *)
Theorem X2_parse_camelot_tables_count (tables : list table) :
  length (parse_camelot_tables tables) =
  list_sum (map (fun df => Nat.pred (length df)) tables) /\
  (forall ts1 ts2,
     parse_camelot_tables (ts1 ++ ts2)%list =
     (parse_camelot_tables ts1 ++ parse_camelot_tables ts2)%list).
Proof.
  split; [|apply parse_camelot_tables_app].
  induction tables as [|t ts IH]; [reflexivity|].
  change (t :: ts) with ([t] ++ ts)%list.
  rewrite parse_camelot_tables_app, length_app, IH. simpl.
  destruct t as [|h [|r rs]]; simpl; try lia.
  rewrite app_nil_r, length_map. lia.
Qed.

(** X3.  A row dictionary gives back each cell under its column name when the
    column names are distinct, and nothing under a name that is no column; the
    last of two columns of the same name wins. *)
Theorem X3_to_dict_lookup (header row : list string) :
  (NoDup header ->
   forall i k v, header !! i = Some k -> row !! i = Some v ->
                 to_dict header row !! k = Some v) /\
  (forall k, k ∉ header -> to_dict header row !! k = None) /\
  (forall k v, length header = length row ->
     to_dict (header ++ [k]) (row ++ [v]) !! k = Some v).
Proof.
  unfold to_dict. split; [|split].
  - intros Hnd i k v Hk Hv.
    apply fold_insert_found.
    + destruct (zip_keys_prefix header row) as [rest Hrest].
      rewrite Hrest in Hnd. now apply NoDup_app in Hnd.
    + apply list_elem_of_lookup. exists i.
      rewrite lookup_zip_with. rewrite Hk. simpl. now rewrite Hv.
  - intros k Hk. rewrite fold_insert_other; [apply lookup_empty|].
    intros Hin. apply Hk.
    destruct (zip_keys_prefix header row) as [rest Hrest].
    rewrite Hrest. apply elem_of_app. now left.
  - intros k v Hlen. rewrite zip_with_app by done.
    simpl. rewrite fold_left_app. simpl. apply lookup_insert_eq.
Qed.

Section Cascade.

Lemma product_mismatches_raise (ps : list product) :
  forall acc e, product_mismatches ps acc = Raise e -> e = OverflowError.
Proof.
  induction ps as [|p ps IH]; intros acc e; simpl; [discriminate|].
  unfold int_mul_float, float_of_int.
  destruct (binary_normalize prec emax (quantity p) 0 false); cbn [bind];
    try (now apply IH).
  now intros [= <-].
Qed.

Lemma service_mismatches_raise (ss : list service) :
  forall acc e, service_mismatches ss acc = Raise e -> e = OverflowError.
Proof.
  induction ss as [|s ss IH]; intros acc e; simpl; [discriminate|].
  unfold int_mul_float, float_of_int.
  destruct (binary_normalize prec emax (hours s) 0 false); cbn [bind];
    try (now apply IH).
  now intros [= <-].
Qed.

Lemma product_report_raise (ps : list product) (e : exn) :
  generate_consistency_report_for_products ps = Raise e -> e = OverflowError.
Proof.
  unfold generate_consistency_report_for_products.
  destruct (product_mismatches ps []) eqn:E; cbn [bind]; [discriminate|].
  intros [= <-]. eapply product_mismatches_raise; eauto.
Qed.

Lemma service_report_raise (ss : list service) (e : exn) :
  generate_consistency_report_for_services ss = Raise e -> e = OverflowError.
Proof.
  unfold generate_consistency_report_for_services.
  destruct (service_mismatches ss []) eqn:E; cbn [bind]; [discriminate|].
  intros [= <-]. eapply service_mismatches_raise; eauto.
Qed.

Lemma text_path_raise (pdf : document) (e : exn) :
  text_path pdf = Raise e -> e = OverflowError \/ easyocr_pages pdf = Raise e.
Proof.
  unfold text_path, pdf_to_text_fallback.
  destruct (MIN_CHAR_THRESHOLD <=? String.length (extract_text_with_pypdf2 pdf))%nat.
  - cbn [bind].
    destruct (extract_supplier_info_total (extract_text_with_pypdf2 pdf)) as [o ->].
    cbn [bind].
    destruct (extract_line_by_line_items_total (extract_text_with_pypdf2 pdf))
      as (ps & ss & ->).
    cbn [bind].
    destruct (generate_consistency_report_for_products ps) eqn:Ep; cbn [bind].
    + destruct (generate_consistency_report_for_services ss) eqn:Es; cbn [bind];
        [discriminate|].
      intros [= <-]. left. eapply service_report_raise; eauto.
    + intros [= <-]. left. eapply product_report_raise; eauto.
  - unfold ocr_with_easyocr. destruct (easyocr_pages pdf) as [images|e'] eqn:Eo.
    + cbn [bind].
      match goal with |- context [extract_supplier_info ?t] =>
        destruct (extract_supplier_info_total t) as [o ->];
        cbn [bind];
        destruct (extract_line_by_line_items_total t) as (ps & ss & ->)
      end.
      cbn [bind].
      destruct (generate_consistency_report_for_products ps) eqn:Ep; cbn [bind].
      * destruct (generate_consistency_report_for_services ss) eqn:Es; cbn [bind];
          [discriminate|].
        intros [= <-]. left. eapply service_report_raise; eauto.
      * intros [= <-]. left. eapply product_report_raise; eauto.
    + cbn [bind]. intros [= <-]. now right.
Qed.

End Cascade.

(** X4.  [process_pdf] lets only two kinds of exception out: the one the OCR
    reader raised, and [OverflowError] from a quantity or an hour count too
    large for a [float].  No [ValueError], [TypeError], [AttributeError] or
    [IndexError] of its own code escapes, and an exception of Camelot or
    PyPDF2 never does. *)
Theorem X4_process_pdf_exceptions (pdf : document) (e : exn) :
  process_pdf pdf = Raise e ->
  e = OverflowError \/ easyocr_pages pdf = Raise e.
Proof.
  unfold process_pdf.
  destruct (table_path pdf) as [[r|]|e']; [discriminate | |]; apply text_path_raise.
Qed.

Lemma X4_process_pdf_exceptions_witness :
  process_pdf unreadable_pdf = Raise CollaboratorError /\
  (CollaboratorError = OverflowError \/
   easyocr_pages unreadable_pdf = Raise CollaboratorError).
Proof.
  split; [reflexivity|].
  apply (X4_process_pdf_exceptions unreadable_pdf CollaboratorError). reflexivity.
Defined.

(** X5.  The OCR reader matters only when it is needed: with a PyPDF2 text of
    at least 100 characters, [pdf_to_text_fallback] and [process_pdf] give the
    same answer whatever the OCR reader would answer, even an exception; and
    when PyPDF2 raises, the text is the OCR text. *)
Theorem X5_ocr_only_below_threshold (pdf : document) :
  ((MIN_CHAR_THRESHOLD <= String.length (extract_text_with_pypdf2 pdf))%nat ->
   forall o,
     pdf_to_text_fallback (with_ocr pdf o) MIN_CHAR_THRESHOLD
       = Ok (extract_text_with_pypdf2 pdf) /\
     process_pdf (with_ocr pdf o) = process_pdf pdf) /\
  (forall e, pypdf2_pages pdf = Raise e ->
     pdf_to_text_fallback pdf MIN_CHAR_THRESHOLD = ocr_with_easyocr pdf).
Proof.
  split.
  - intros Hlen o. apply Nat.leb_le in Hlen.
    assert (H1 : pdf_to_text_fallback (with_ocr pdf o) MIN_CHAR_THRESHOLD
                 = Ok (extract_text_with_pypdf2 pdf)).
    { unfold pdf_to_text_fallback.
      change (extract_text_with_pypdf2 (with_ocr pdf o))
        with (extract_text_with_pypdf2 pdf). now rewrite Hlen. }
    split; [exact H1|].
    assert (H2 : pdf_to_text_fallback pdf MIN_CHAR_THRESHOLD
                 = Ok (extract_text_with_pypdf2 pdf)).
    { unfold pdf_to_text_fallback. now rewrite Hlen. }
    unfold process_pdf.
    change (table_path (with_ocr pdf o)) with (table_path pdf).
    unfold text_path. now rewrite H1, H2.
  - intros e He. unfold pdf_to_text_fallback, extract_text_with_pypdf2.
    rewrite He. reflexivity.
Qed.

(** X6.  [try_camelot_tables] never raises: it answers [None] exactly when
    Camelot raises or finds no table, and otherwise the non-empty list of
    tables; whenever it answers [None], [process_pdf] is the text path. *)
Theorem X6_try_camelot_tables (pdf : document) :
  (try_camelot_tables pdf = None <->
   camelot_read_pdf pdf = Ok [] \/ exists e, camelot_read_pdf pdf = Raise e) /\
  (forall tables, try_camelot_tables pdf = Some tables <->
     camelot_read_pdf pdf = Ok tables /\ tables <> []) /\
  (try_camelot_tables pdf = None -> process_pdf pdf = text_path pdf).
Proof.
  unfold try_camelot_tables, process_pdf, table_path.
  destruct (camelot_read_pdf pdf) as [[|t ts]|e]; cbn [bind].
  - split; [split; [auto | done]|]. split; [|done].
    intros tables. split; [done | intros [[= <-] H]; done].
  - split; [split; [done | intros [H|[e H]]; discriminate]|]. split; [|done].
    intros tables. split; [intros [= <-]; done | intros [[= <-] _]; done].
  - split; [split; [eauto | done]|]. split; [|done].
    intros tables. split; [done | intros [H _]; discriminate].
Qed.

(** X7.  Products read from table rows carry no PO number, so in table mode
    the PO report has nothing missing and lists every PO number of the text as
    unused. *)
Theorem X7_table_mode_po_report (rows : list (gmap string string))
    (pnums : list string) :
  product_po_list (map row_to_product rows) = [] /\
  generate_po_consistency_report (map row_to_product rows) pnums =
    {| missing_in_extracted := []; unused_in_products := pnums;
       po_total_inconsistencies := length pnums |}.
Proof.
  split; [apply product_po_list_rows|].
  unfold generate_po_consistency_report. rewrite product_po_list_rows.
  rewrite filter_not_in_nil. reflexivity.
Qed.

Section Records.

Lemma digit_val_nonneg (c : ascii) : is_digit c = true -> 0 <= digit_val c.
Proof.
  unfold is_digit, digit_val. intros H. apply andb_true_iff in H.
  destruct H as [H _]. apply N.leb_le in H. lia.
Qed.

Lemma digits_val_nonneg (w : string) :
  forall acc, 0 <= acc -> all_chars is_digit w = true -> 0 <= digits_val acc w.
Proof.
  induction w as [|c w IH]; intros acc Hacc; simpl; [done|].
  intros [Hc Hw]%andb_true_iff. apply IH; [|done].
  pose proof (digit_val_nonneg c Hc). lia.
Qed.

Ltac captured_digits Hs Hv :=
  let b := fresh "body" in
  let Hin := fresh "Hin" in
  let HL := fresh "HL" in
  destruct (search_group_lang _ _ _ _ _ _ Hs Hv) as (b & Hin & HL);
  simpl in Hin;
  repeat (destruct Hin as [Hin|Hin]; [try discriminate; injection Hin as <-|]);
  try contradiction;
  apply digits_word in HL.

Lemma pattern_a_quantity line m qty :
  search true PRODUCT_CODE_PATTERN_A line = Some m -> group m 2 = Some qty ->
  qty <> EmptyString /\ all_chars is_digit qty = true.
Proof. intros Hs Hv. captured_digits Hs Hv. exact HL. Qed.

Lemma pattern_b_quantity line m qty :
  search true PRODUCT_CODE_PATTERN_B line = Some m -> group m 3 = Some qty ->
  qty <> EmptyString /\ all_chars is_digit qty = true.
Proof. intros Hs Hv. captured_digits Hs Hv. exact HL. Qed.

Lemma pattern_b_po_digits line m po :
  search true PRODUCT_CODE_PATTERN_B line = Some m -> group m 6 = Some po ->
  po <> EmptyString /\ all_chars is_digit po = true.
Proof. intros Hs Hv. captured_digits Hs Hv. exact HL. Qed.

Lemma pattern_s_hours line m hrs :
  search true SERVICE_PATTERN line = Some m -> group m 2 = Some hrs ->
  hrs <> EmptyString /\ all_chars is_digit hrs = true.
Proof. intros Hs Hv. captured_digits Hs Hv. exact HL. Qed.

Lemma product_of_quantity line p : product_of line p -> 0 <= quantity p.
Proof.
  intros [(m & code & qty & up & amt & Hs & _ & H2 & _ & _ & ->)
         |(m & code & descr & qty & price & total & _ & Hs & _ & _ & H3 & _ & _ & ->)].
  - destruct (pattern_a_quantity _ _ _ Hs H2) as [_ Hd].
    simpl. now apply digits_val_nonneg.
  - destruct (pattern_b_quantity _ _ _ Hs H3) as [_ Hd].
    simpl. now apply digits_val_nonneg.
Qed.

Lemma service_of_hours line s : service_of line s -> 0 <= hours s.
Proof.
  intros (m & svc & hrs & rate & amt & _ & _ & Hs & _ & H2 & _ & _ & ->).
  destruct (pattern_s_hours _ _ _ Hs H2) as [_ Hd].
  simpl. now apply digits_val_nonneg.
Qed.

(** What a call of [try_match_line] does to the two lists: it appends at
    most one record, that of the line, and nothing when no grammar matches. *)
Lemma try_match_line_effect line ps ss :
  exists newp news,
    try_match_line line ps ss =
      Ok (line_matches line, (ps ++ newp)%list, (ss ++ news)%list) /\
    (length newp + length news <= if line_matches line then 1 else 0)%nat /\
    Forall (product_of line) newp /\
    Forall (service_of line) news.
Proof.
  unfold line_matches.
  destruct (search true PRODUCT_CODE_PATTERN_A line) as [mA|] eqn:Ha.
  { destruct (try_match_line_a line mA ps ss Ha)
      as (code & qty & up & amt & H1 & H2 & H3 & H4 & H).
    exists (built qty (record_a (Some code) qty up amt)), []. rewrite app_nil_r.
    split; [exact H|].
    split; [pose proof (built_length qty (record_a (Some code) qty up amt)); simpl; lia|].
    split; [|constructor].
    apply built_Forall. left. exists mA, code, qty, up, amt. done. }
  destruct (search true PRODUCT_CODE_PATTERN_B line) as [mB|] eqn:Hb.
  { destruct (try_match_line_b line mB ps ss Ha Hb)
      as (code & descr & qty & price & total & H1 & H2 & H3 & H4 & H5 & H).
    eexists (built qty _), []. rewrite app_nil_r.
    split; [exact H|].
    split; [match goal with |- context [built ?d ?r] =>
              pose proof (built_length d r) end; simpl; lia|].
    split; [|constructor].
    apply built_Forall. right.
    exists mB, code, descr, qty, price, total. done. }
  destruct (search true SERVICE_PATTERN line) as [mS|] eqn:Hs.
  { destruct (try_match_line_s line mS ps ss Ha Hb Hs)
      as (svc & hrs & rate & amt & H1 & H2 & H3 & H4 & H).
    exists [], (built hrs (record_s svc hrs rate amt)). rewrite app_nil_r.
    split; [exact H|].
    split; [pose proof (built_length hrs (record_s svc hrs rate amt)); simpl; lia|].
    split; [constructor|].
    apply built_Forall. exists mS, svc, hrs, rate, amt. done. }
  exists [], []. rewrite !app_nil_r.
  split; [now apply try_match_line_none|]. repeat split; constructor.
Qed.

End Records.

Section Loop.
Context (lines : list string).

Lemma added_refl P Q ps ss n : added P Q ps ps ss ss n.
Proof.
  exists [], []. rewrite !app_nil_r. repeat split; try constructor. simpl. lia.
Qed.

Lemma added_trans P Q ps ps1 ps2 ss ss1 ss2 n1 n2 :
  added P Q ps ps1 ss ss1 n1 -> added P Q ps1 ps2 ss1 ss2 n2 ->
  added P Q ps ps2 ss ss2 (n1 + n2).
Proof.
  intros (p1 & s1 & -> & -> & H1 & Hp1 & Hs1) (p2 & s2 & -> & -> & H2 & Hp2 & Hs2).
  exists (p1 ++ p2)%list, (s1 ++ s2)%list. rewrite !app_assoc.
  repeat split; [rewrite !length_app; lia | | ]; apply Forall_app; done.
Qed.

Lemma try_match_line_added line ps ss :
  exists ps' ss',
    try_match_line line ps ss = Ok (line_matches line, ps', ss') /\
    added (product_of line) (service_of line) ps ps' ss ss'
          (if line_matches line then 1 else 0).
Proof.
  destruct (try_match_line_effect line ps ss) as (newp & news & H & Hn & Hp & Hs).
  eexists _, _. split; [exact H|]. exists newp, news. repeat split; done.
Qed.

(** The records of a window of the lines. *)
Lemma added_window w ps ps' ss ss' n :
  windows lines w ->
  added (product_of w) (service_of w) ps ps' ss ss' n ->
  added (fun p => exists w, windows lines w /\ product_of w p)
        (fun s => exists w, windows lines w /\ service_of w s) ps ps' ss ss' n.
Proof.
  intros Hw (newp & news & -> & -> & Hn & Hp & Hs).
  exists newp, news. repeat split; try done.
  - eapply Forall_impl; [exact Hp|]. intros p Hp'. exists w. done.
  - eapply Forall_impl; [exact Hs|]. intros s Hs'. exists w. done.
Qed.

Lemma window_single (i : nat) (l : string) :
  lines !! i = Some l -> window lines i 0 = strip l.
Proof. intros Hl. unfold window. now rewrite (drop_S _ _ _ Hl). Qed.

Lemma try_merges_added (i : nat) (l : string) (mcs : list nat) :
  lines !! i = Some l ->
  Forall (fun mc => (mc < MAX_LINE_MERGE)%nat) mcs ->
  forall ps ss, exists w ps' ss',
    try_merges lines i (strip l) ps ss mcs = Ok (w, ps', ss') /\
    match w with
    | Some k =>
        (i + k < length lines)%nat /\
        added (fun p => exists w, windows lines w /\ product_of w p)
              (fun s => exists w, windows lines w /\ service_of w s) ps ps' ss ss' 1
    | None => ps' = ps /\ ss' = ss
    end.
Proof.
  intros Hl. induction 1 as [|mc mcs Hmc Hmcs IH]; intros ps ss; simpl.
  { exists None, ps, ss. done. }
  destruct (i + mc <? length lines)%nat eqn:Hlt; [|exists None, ps, ss; done].
  apply Nat.ltb_lt in Hlt.
  rewrite (merge_lines_window lines i mc l Hlt Hl). cbn [bind].
  destruct (try_match_line_added (window lines i mc) ps ss) as (ps' & ss' & -> & Ha).
  cbn [bind]. destruct (line_matches (window lines i mc)).
  - eexists _, _, _. split; [reflexivity|]. split; [done|].
    eapply added_window; [|exact Ha]. exists i, mc. done.
  - destruct Ha as (newp & news & -> & -> & Hn & _).
    destruct newp; [|simpl in Hn; lia]. destruct news; [|simpl in Hn; lia].
    rewrite !app_nil_r. apply IH.
Qed.

Lemma step_added st :
  (cursor st < length lines)%nat ->
  exists st',
    step lines st = Ok st' /\
    (cursor st < cursor st' <= length lines)%nat /\
    added (fun p => exists w, windows lines w /\ product_of w p)
          (fun s => exists w, windows lines w /\ service_of w s)
          (st_products st) (st_products st') (st_services st) (st_services st') 1.
Proof.
  intros Hlt. destruct (lookup_lt_is_Some_2 lines (cursor st) Hlt) as [l Hl].
  unfold step. rewrite (get_item_lookup _ _ _ Hl). cbn [bind].
  destruct (String.eqb (strip l) EmptyString).
  { eexists. split; [reflexivity|]. simpl. split; [lia | apply added_refl]. }
  destruct (try_match_line_added (strip l) (st_products st) (st_services st))
    as (ps' & ss' & -> & Ha).
  cbn [bind]. destruct (line_matches (strip l)).
  { eexists. split; [reflexivity|]. simpl. split; [lia|].
    eapply added_window; [|exact Ha].
    exists (cursor st), 0%nat. rewrite (window_single _ _ Hl).
    unfold MAX_LINE_MERGE. split; [lia|]. split; [lia | reflexivity]. }
  destruct Ha as (newp & news & -> & -> & Hn & _).
  destruct newp; [|simpl in Hn; lia]. destruct news; [|simpl in Hn; lia].
  rewrite !app_nil_r.
  destruct (try_merges_added (cursor st) l (range_nat 1 MAX_LINE_MERGE) Hl)
    with (ps := st_products st) (ss := st_services st)
    as (w & ps'' & ss'' & Hm & Hw).
  { unfold range_nat, MAX_LINE_MERGE. simpl. repeat constructor. }
  rewrite Hm. cbn [bind]. destruct w as [k|].
  - destruct Hw as [Hk Ha]. eexists. split; [reflexivity|]. simpl.
    split; [lia | done].
  - destruct Hw as [-> ->]. eexists. split; [reflexivity|]. simpl.
    split; [lia | apply added_refl].
Qed.

Lemma while_loop_added (fuel : nat) :
  forall st,
    (length lines - cursor st <= fuel)%nat -> (cursor st <= length lines)%nat ->
    exists st',
      while_loop fuel lines st = Ok st' /\
      cursor st' = length lines /\
      added (fun p => exists w, windows lines w /\ product_of w p)
            (fun s => exists w, windows lines w /\ service_of w s)
            (st_products st) (st_products st') (st_services st) (st_services st')
            (length lines - cursor st).
Proof.
  induction fuel as [|fuel IH]; intros st Hfuel Hle.
  - simpl. destruct (cursor st <? length lines)%nat eqn:E.
    + apply Nat.ltb_lt in E. lia.
    + apply Nat.ltb_ge in E. exists st.
      split; [done|]. split; [lia | apply added_refl].
  - simpl. destruct (cursor st <? length lines)%nat eqn:E.
    + apply Nat.ltb_lt in E.
      destruct (step_added st E) as (st1 & -> & Hadv & Ha1). cbn [bind].
      destruct (IH st1) as (st' & Hw & Hc & Ha2); [lia | lia |].
      exists st'. split; [exact Hw|]. split; [exact Hc|].
      destruct (added_trans _ _ _ _ _ _ _ _ _ _ Ha1 Ha2)
        as (newp & news & Hp & Hs & Hn & HF).
      exists newp, news. repeat split; try done; try tauto. lia.
    + apply Nat.ltb_ge in E. exists st.
      split; [done|]. split; [lia | apply added_refl].
Qed.

End Loop.

(** X8.  The tokenizer never raises: on every text it runs its loop to the end
    of the lines and returns its two lists, holding in all at most one record
    per line of the text. *)
Theorem X8_tokenizer_total (extracted_text : string) :
  exists st,
    while_loop (length (clean_lines extracted_text)) (clean_lines extracted_text)
      {| cursor := 0; st_products := []; st_services := [] |} = Ok st /\
    cursor st = length (splitlines extracted_text) /\
    extract_line_by_line_items extracted_text = Ok (st_products st, st_services st) /\
    (length (st_products st) + length (st_services st)
     <= length (splitlines extracted_text))%nat.
Proof.
  destruct (while_loop_added (clean_lines extracted_text)
              (length (clean_lines extracted_text))
              {| cursor := 0; st_products := []; st_services := [] |})
    as (st & Hw & Hc & newp & news & Hp & Hs & Hn & _); [simpl; lia | simpl; lia|].
  assert (Hlen : length (clean_lines extracted_text) = length (splitlines extracted_text))
    by apply length_map.
  exists st. split; [exact Hw|]. split; [congruence|].
  split; [unfold extract_line_by_line_items; now rewrite Hw|].
  rewrite Hp, Hs, <- Hlen. simpl in Hn |- *. lia.
Qed.

(** X9.  Every product the tokenizer returns has a quantity that is not
    negative, and every service an hour count that is not negative. *)
Theorem X9_tokenizer_nonnegative (extracted_text : string)
    (ps : list product) (ss : list service) :
  extract_line_by_line_items extracted_text = Ok (ps, ss) ->
  Forall (fun p => 0 <= quantity p) ps /\ Forall (fun s => 0 <= hours s) ss.
Proof.
  unfold extract_line_by_line_items.
  destruct (while_loop_added (clean_lines extracted_text)
              (length (clean_lines extracted_text))
              {| cursor := 0; st_products := []; st_services := [] |})
    as (st & -> & _ & newp & news & Hp & Hs & _ & HFp & HFs); [simpl; lia | simpl; lia|].
  cbn [bind]. intros [= <- <-]. simpl in Hp, Hs. rewrite Hp, Hs. split.
  - eapply Forall_impl; [exact HFp|]. intros p (w & _ & Hp'). eapply product_of_quantity, Hp'.
  - eapply Forall_impl; [exact HFs|]. intros s (w & _ & Hs'). eapply service_of_hours, Hs'.
Qed.

Lemma X9_tokenizer_nonnegative_witness :
  extract_line_by_line_items sample_a =
    Ok ([record_a (Some "PRD-001") "3" "10.00" "30.00"], []) /\
  Forall (fun p => 0 <= quantity p) [record_a (Some "PRD-001") "3" "10.00" "30.00"] /\
  Forall (fun s : service => 0 <= hours s) [].
Proof.
  assert (H : extract_line_by_line_items sample_a =
              Ok ([record_a (Some "PRD-001") "3" "10.00" "30.00"], []))
    by (vm_compute; reflexivity).
  split; [exact H|]. exact (X9_tokenizer_nonnegative _ _ _ H).
Defined.

(** X10.  The tokenizer invents nothing: every product it returns is the record
    of Grammar A, or of Grammar B where A does not match, on a merge window of
    the cleaned lines (a line and at most five lines after it, stripped and
    joined by single spaces), and every service is the record of the service
    grammar on such a window where no product grammar matches. *)
Theorem X10_tokenizer_provenance (extracted_text : string)
    (ps : list product) (ss : list service) :
  extract_line_by_line_items extracted_text = Ok (ps, ss) ->
  Forall (fun p => exists w, windows (clean_lines extracted_text) w /\ product_of w p) ps /\
  Forall (fun s => exists w, windows (clean_lines extracted_text) w /\ service_of w s) ss.
Proof.
  unfold extract_line_by_line_items.
  destruct (while_loop_added (clean_lines extracted_text)
              (length (clean_lines extracted_text))
              {| cursor := 0; st_products := []; st_services := [] |})
    as (st & -> & _ & newp & news & Hp & Hs & _ & HFp & HFs); [simpl; lia | simpl; lia|].
  cbn [bind]. intros [= <- <-]. simpl in Hp, Hs. now rewrite Hp, Hs.
Qed.

Lemma X10_tokenizer_provenance_witness :
  extract_line_by_line_items sample_a =
    Ok ([record_a (Some "PRD-001") "3" "10.00" "30.00"], []) /\
  Forall (fun p => exists w, windows (clean_lines sample_a) w /\ product_of w p)
    [record_a (Some "PRD-001") "3" "10.00" "30.00"] /\
  Forall (fun s => exists w, windows (clean_lines sample_a) w /\ service_of w s) [].
Proof.
  assert (H : extract_line_by_line_items sample_a =
              Ok ([record_a (Some "PRD-001") "3" "10.00" "30.00"], []))
    by (vm_compute; reflexivity).
  split; [exact H|]. exact (X10_tokenizer_provenance _ _ _ H).
Defined.

(** X11.  A record of Grammar B carries under [po_number] exactly what the
    optional group captured: the key is present when the PO suffix matched,
    with a non-empty string of digits, and absent when it did not.  The
    builder appends the record when the quantity has at most 4300 digits and
    returns the list as it was otherwise. *)
Theorem X11_grammar_b_po_number (line : string) (m : rmatch) (ps : list product) :
  search true PRODUCT_CODE_PATTERN_B line = Some m ->
  exists qty rec,
    group m 3 = Some qty /\
    parse_pattern_b m ps =
      Ok (ps ++ if (String.length qty <=? MAX_STR_DIGITS)%nat
                then [rec] else [])%list /\
    po_number rec = group m 6 /\
    (forall po, group m 6 = Some po ->
                po <> EmptyString /\ all_chars is_digit po = true).
Proof.
  intros Hs.
  destruct (parse_pattern_b_appends line m ps Hs)
    as (code & descr & qty & price & total & _ & _ & H3 & _ & _ & _ & _ & _ & Hp).
  eexists qty, _. split; [exact H3|]. split; [exact Hp|]. split.
  - simpl. destruct (group m 6) as [po|] eqn:E; [|reflexivity].
    destruct (pattern_b_po_digits line m po Hs E) as [Hne _].
    destruct po; [done | reflexivity].
  - intros po E. exact (pattern_b_po_digits line m po Hs E).
Qed.

Lemma X11_grammar_b_po_number_witness :
  exists m,
    search true PRODUCT_CODE_PATTERN_B sample_b_po = Some m /\
    group m 6 = Some "123" /\
    exists qty rec,
      group m 3 = Some qty /\
      parse_pattern_b m [] =
        Ok ([] ++ if (String.length qty <=? MAX_STR_DIGITS)%nat
                  then [rec] else [])%list /\
      po_number rec = group m 6 /\
      (forall po, group m 6 = Some po ->
                  po <> EmptyString /\ all_chars is_digit po = true).
Proof.
  destruct (search true PRODUCT_CODE_PATTERN_B sample_b_po) as [m|] eqn:E;
    [|vm_compute in E; discriminate].
  exists m. split; [reflexivity|]. split.
  - revert E. vm_compute. intros [= <-]. reflexivity.
  - exact (X11_grammar_b_po_number sample_b_po m [] E).
Defined.

Section ReportFacts.

Lemma in_float_range_dec (n : Z) : in_float_range n \/ ~ in_float_range n.
Proof.
  unfold in_float_range. destruct (float_of_int n) as [x|e]; [eauto|].
  right. intros [x H]. discriminate.
Qed.

Lemma range_or_overflow {A : Type} (f : A -> Z) (l : list A) :
  Forall (fun a => in_float_range (f a)) l \/
  Exists (fun a => ~ in_float_range (f a)) l.
Proof.
  induction l as [|a l [IH|IH]].
  - left. constructor.
  - destruct (in_float_range_dec (f a)) as [H|H].
    + left. now constructor.
    + right. now constructor.
  - right. now apply Exists_cons_tl.
Qed.

Lemma service_mismatches_overflow (ss : list service) :
  Exists (fun s => ~ in_float_range (hours s)) ss ->
  forall acc, service_mismatches ss acc = Raise OverflowError.
Proof.
  induction ss as [|s ss IH]; intros HE acc; [inversion HE|].
  simpl. destruct (int_mul_float (hours s) (rate_per_hour s)) as [exp|e] eqn:He.
  - cbn [bind]. apply IH. inversion HE as [? ? Hs|? ? Hss]; subst; [|exact Hss].
    rewrite (int_mul_float_overflow _ _ Hs) in He. discriminate.
  - unfold int_mul_float, float_of_int in He.
    destruct (binary_normalize prec emax (hours s) 0 false); try discriminate.
    simpl in He. now injection He as <-.
Qed.

Lemma product_flag_length (p : product) : (length (product_flag p) <= 1)%nat.
Proof.
  unfold product_flag. destruct (int_mul_float _ _); [|simpl; lia].
  destruct (exceeds _ _); simpl; lia.
Qed.

Lemma service_flag_length (s : service) : (length (service_flag s) <= 1)%nat.
Proof.
  unfold service_flag. destruct (int_mul_float _ _); [|simpl; lia].
  destruct (exceeds _ _); simpl; lia.
Qed.

Lemma flat_map_length_le {A B : Type} (f : A -> list B) (l : list A) :
  (forall a, length (f a) <= 1)%nat -> (length (flat_map f l) <= length l)%nat.
Proof.
  intros Hf. induction l as [|a l IH]; simpl; [lia|].
  rewrite length_app. specialize (Hf a). lia.
Qed.

Lemma filter_nil_iff (P : string -> Prop) `{forall x, Decision (P x)} (l : list string) :
  filter P l = [] <-> forall x, x ∈ l -> ~ P x.
Proof.
  split.
  - intros Hnil x Hx HP.
    assert (Hin : x ∈ filter P l) by (apply list_elem_of_filter; done).
    rewrite Hnil in Hin. inversion Hin.
  - intros Hall. destruct (filter P l) as [|y ys] eqn:E; [done|].
    assert (Hin : y ∈ filter P l) by (rewrite E; left).
    apply list_elem_of_filter in Hin. destruct Hin as [HP Hy].
    destruct (Hall y Hy HP).
Qed.

End ReportFacts.

(** X12.  A consistency report fails exactly when some record has a quantity (or
    hour count) outside the range of [float], the exception is then
    [OverflowError] and never another one; this holds wherever the record
    stands in the list. *)
Theorem X12_report_raises_iff_overflow (ps : list product) (ss : list service) :
  (generate_consistency_report_for_products ps = Raise OverflowError <->
   Exists (fun p => ~ in_float_range (quantity p)) ps) /\
  (generate_consistency_report_for_services ss = Raise OverflowError <->
   Exists (fun s => ~ in_float_range (hours s)) ss) /\
  (forall e, generate_consistency_report_for_products ps = Raise e -> e = OverflowError) /\
  (forall e, generate_consistency_report_for_services ss = Raise e -> e = OverflowError).
Proof.
  split; [|split; [|split]].
  - split.
    + intros H. destruct (range_or_overflow quantity ps) as [Hr|He]; [|exact He].
      rewrite (product_report_in_range ps Hr) in H. discriminate.
    + intros He. unfold generate_consistency_report_for_products.
      now rewrite (product_mismatches_overflow ps He).
  - split.
    + intros H. destruct (range_or_overflow hours ss) as [Hr|He]; [|exact He].
      rewrite (service_report_in_range ss Hr) in H. discriminate.
    + intros He. unfold generate_consistency_report_for_services.
      now rewrite (service_mismatches_overflow ss He).
  - intros e. apply product_report_raise.
  - intros e. apply service_report_raise.
Qed.

(** X13.  A product report that is produced counts its own entries, has at most
    one entry per record, and every entry repeats the product code and the
    stated total of some record of the list. *)
Theorem X13_product_report_entries (ps : list product)
    (rep : price_report (option string)) :
  generate_consistency_report_for_products ps = Ok rep ->
  total_inconsistencies rep = length (price_mismatches rep) /\
  (total_inconsistencies rep <= length ps)%nat /\
  (forall mm, mm ∈ price_mismatches rep ->
     exists p, p ∈ ps /\ item mm = product_code p /\ actual_total mm = total_price p).
Proof.
  intros H.
  destruct (range_or_overflow quantity ps) as [Hr|He].
  - rewrite (product_report_in_range ps Hr) in H. injection H as <-. simpl.
    split; [reflexivity|]. split.
    + apply flat_map_length_le, product_flag_length.
    + intros mm Hmm. apply list_elem_of_In, in_flat_map in Hmm.
      destruct Hmm as (p & Hp & Hmm). exists p. split; [now apply list_elem_of_In|].
      unfold product_flag in Hmm. destruct (int_mul_float _ _); [|destruct Hmm].
      destruct (exceeds _ _); [|destruct Hmm]. destruct Hmm as [<-|[]]. done.
  - unfold generate_consistency_report_for_products in H.
    rewrite (product_mismatches_overflow ps He) in H. discriminate.
Qed.

Lemma X13_product_report_entries_witness :
  generate_consistency_report_for_products
    [mk_product 3 (lit 100 1) (lit 310 1) None; mk_product 3 (lit 100 1) (lit 300 1) None]
  = Ok {| price_mismatches :=
            [{| item := Some "PRD-1"; expected_total := lit 300 1;
                actual_total := lit 310 1 |}];
          total_inconsistencies := 1 |} /\
  (1 <= 2)%nat.
Proof.
  assert (H : generate_consistency_report_for_products
                [mk_product 3 (lit 100 1) (lit 310 1) None;
                 mk_product 3 (lit 100 1) (lit 300 1) None]
              = Ok {| price_mismatches :=
                        [{| item := Some "PRD-1"; expected_total := lit 300 1;
                            actual_total := lit 310 1 |}];
                      total_inconsistencies := 1 |})
    by (vm_compute; reflexivity).
  split; [exact H|].
  destruct (X13_product_report_entries _ _ H) as (_ & Hle & _). exact Hle.
Defined.

(** X14.  The report of two lists of products one after the other is the report
    of the first followed by the report of the second, with the totals
    added. *)
Theorem X14_product_report_app (ps1 ps2 : list product)
    (r1 r2 : price_report (option string)) :
  generate_consistency_report_for_products ps1 = Ok r1 ->
  generate_consistency_report_for_products ps2 = Ok r2 ->
  generate_consistency_report_for_products (ps1 ++ ps2)%list =
  Ok {| price_mismatches := (price_mismatches r1 ++ price_mismatches r2)%list;
        total_inconsistencies :=
          (total_inconsistencies r1 + total_inconsistencies r2)%nat |}.
Proof.
  intros H1 H2.
  destruct (range_or_overflow quantity ps1) as [Hr1|He1].
  2:{ unfold generate_consistency_report_for_products in H1.
      rewrite (product_mismatches_overflow ps1 He1) in H1. discriminate. }
  destruct (range_or_overflow quantity ps2) as [Hr2|He2].
  2:{ unfold generate_consistency_report_for_products in H2.
      rewrite (product_mismatches_overflow ps2 He2) in H2. discriminate. }
  rewrite (product_report_in_range ps1 Hr1) in H1. injection H1 as <-.
  rewrite (product_report_in_range ps2 Hr2) in H2. injection H2 as <-.
  rewrite (product_report_in_range (ps1 ++ ps2)%list) by (apply Forall_app; done).
  simpl. now rewrite flat_map_app, length_app.
Qed.

Lemma X14_product_report_app_witness :
  generate_consistency_report_for_products [mk_product 3 (lit 100 1) (lit 310 1) None]
  = Ok {| price_mismatches :=
            [{| item := Some "PRD-1"; expected_total := lit 300 1;
                actual_total := lit 310 1 |}];
          total_inconsistencies := 1 |} /\
  generate_consistency_report_for_products [mk_product 3 (lit 100 1) (lit 300 1) None]
  = Ok {| price_mismatches := []; total_inconsistencies := 0 |} /\
  generate_consistency_report_for_products
    ([mk_product 3 (lit 100 1) (lit 310 1) None] ++
     [mk_product 3 (lit 100 1) (lit 300 1) None])%list
  = Ok {| price_mismatches :=
            ([{| item := Some "PRD-1"; expected_total := lit 300 1;
                 actual_total := lit 310 1 |}] ++ [])%list;
          total_inconsistencies := (1 + 0)%nat |}.
Proof.
  assert (H1 : generate_consistency_report_for_products
                 [mk_product 3 (lit 100 1) (lit 310 1) None]
               = Ok {| price_mismatches :=
                         [{| item := Some "PRD-1"; expected_total := lit 300 1;
                             actual_total := lit 310 1 |}];
                       total_inconsistencies := 1 |})
    by (vm_compute; reflexivity).
  assert (H2 : generate_consistency_report_for_products
                 [mk_product 3 (lit 100 1) (lit 300 1) None]
               = Ok {| price_mismatches := []; total_inconsistencies := 0 |})
    by (vm_compute; reflexivity).
  split; [exact H1|]. split; [exact H2|].
  exact (X14_product_report_app _ _ _ _ H1 H2).
Defined.

(** X15.  The PO report counts no inconsistency exactly when the products and
    the header name the same PO numbers; no PO number is both missing and
    unused; and the total is at most the number of products plus the number of
    header PO numbers. *)
Theorem X15_po_report_consistent (ps : list product) (pos : list string) :
  let r := generate_po_consistency_report ps pos in
  (po_total_inconsistencies r = 0%nat <->
   forall po, po ∈ product_po_list ps <-> po ∈ pos) /\
  (forall po, po ∈ missing_in_extracted r -> po ∉ unused_in_products r) /\
  (po_total_inconsistencies r <= length ps + length pos)%nat.
Proof.
  cbv zeta. unfold generate_po_consistency_report.
  cbn [missing_in_extracted unused_in_products po_total_inconsistencies].
  split; [|split].
  - rewrite Nat.eq_add_0, !length_zero_iff_nil, !filter_nil_iff.
    split.
    + intros [H1 H2] po. split; intros Hpo.
      * destruct (decide (po ∈ pos)) as [|Hn]; [done|]. destruct (H1 po Hpo Hn).
      * destruct (decide (po ∈ product_po_list ps)) as [|Hn]; [done|].
        destruct (H2 po Hpo Hn).
    + intros H. split; intros po Hpo Hn; apply Hn, H, Hpo.
  - intros po [Hn _]%list_elem_of_filter [_ Hin]%list_elem_of_filter. done.
  - pose proof (length_filter (fun po => po ∉ pos) (product_po_list ps)).
    pose proof (length_filter (fun po => po ∉ product_po_list ps) pos).
    assert (length (product_po_list ps) <= length ps)%nat.
    { unfold product_po_list. apply flat_map_length_le.
      intros p. destruct (po_number p) as [[|c s]|]; simpl; lia. }
    lia.
Qed.

Section Needs.
Context (ic : bool).

Lemma in_all_ascii (x : ascii) : In x all_ascii.
Proof.
  unfold all_ascii. rewrite <- (ascii_nat_embedding x).
  apply in_map, in_seq. pose proof (nat_ascii_bounded x). lia.
Qed.

Lemma has_chr_app (q : ascii -> bool) (a b : string) :
  has_chr q (a ++ b) = has_chr q a || has_chr q b.
Proof.
  induction a as [|c a IH]; [reflexivity|].
  rewrite app_cons. simpl. now rewrite IH, orb_assoc.
Qed.

Lemma Matches_must_have (q : ascii -> bool) r w c c' :
  Matches ic r w c c' -> must_have ic q r = true -> has_chr q w = true.
Proof.
  induction 1; cbn [must_have]; intros Hm; try discriminate.
  - rewrite forallb_forall in Hm. specialize (Hm x (in_all_ascii x)).
    rewrite H in Hm. simpl in Hm. simpl. now rewrite Hm.
  - rewrite forallb_forall in Hm. specialize (Hm x (in_all_ascii x)).
    rewrite H in Hm. simpl in Hm. simpl. now rewrite Hm.
  - rewrite has_chr_app. apply orb_true_iff in Hm. destruct Hm as [Hm|Hm].
    + now rewrite IHMatches1.
    + rewrite IHMatches2 by done. apply orb_true_r.
  - apply andb_true_iff in Hm. tauto.
  - apply andb_true_iff in Hm. tauto.
  - auto.
Qed.

Lemma match_at_must_have (q : ascii -> bool) r s m :
  match_at ic r s = Some m -> must_have ic q r = true -> has_chr q s = true.
Proof.
  intros H Hm. apply match_at_Matches in H. destruct H as (w & s' & -> & H).
  rewrite has_chr_app, (Matches_must_have q _ _ _ _ H Hm). reflexivity.
Qed.

Lemma match_at_none (q : ascii -> bool) r s :
  must_have ic q r = true -> has_chr q s = false -> match_at ic r s = None.
Proof.
  intros Hm Hs. destruct (match_at ic r s) as [m|] eqn:E; [|reflexivity].
  rewrite (match_at_must_have q r s m E Hm) in Hs. discriminate.
Qed.

Lemma search_none (q : ascii -> bool) r s :
  must_have ic q r = true -> has_chr q s = false -> search ic r s = None.
Proof.
  intros Hm. induction s as [|a s IH]; intros Hs; simpl.
  - now rewrite (match_at_none q r EmptyString Hm Hs).
  - rewrite (match_at_none q r (String a s) Hm Hs).
    simpl in Hs. apply orb_false_iff in Hs. now apply IH.
Qed.

Lemma finditer_none (q : ascii -> bool) r s :
  must_have ic q r = true -> has_chr q s = false ->
  forall skip, finditer_from ic r skip s = [].
Proof.
  intros Hm. induction s as [|a s IH]; intros Hs skip; [reflexivity|].
  simpl. pose proof Hs as Hs'. simpl in Hs'. apply orb_false_iff in Hs'.
  destruct skip; [|now apply IH].
  rewrite (match_at_none q r (String a s) Hm Hs). now apply IH.
Qed.

Lemma sub_unchanged (q : ascii -> bool) r repl s :
  must_have ic q r = true -> has_chr q s = false -> sub ic r repl s = s.
Proof.
  intros Hm. unfold sub. induction s as [|a s IH]; intros Hs; [reflexivity|].
  simpl. rewrite (match_at_none q r (String a s) Hm Hs).
  simpl in Hs. apply orb_false_iff in Hs. now rewrite IH.
Qed.

Lemma finditer_Matches r s :
  forall skip m, In m (finditer_from ic r skip s) ->
                 exists w, Matches ic r w ∅ (groups m).
Proof.
  induction s as [|a s IH]; intros skip m; simpl; [contradiction|].
  destruct skip; [|apply IH].
  destruct (match_at ic r (String a s)) as [m'|] eqn:E; [|apply IH].
  intros [<-|Hin]; [|eapply IH; eauto].
  apply match_at_Matches in E. destruct E as (w & _ & _ & H). eauto.
Qed.

End Needs.

Section Stripping.
Context (p : ascii -> bool).

Lemma lstrip_by_shape (s : string) :
  lstrip_by p s = EmptyString \/
  exists c t, lstrip_by p s = String c t /\ p c = false.
Proof.
  induction s as [|c s IH]; simpl; [now left|].
  destruct (p c) eqn:E; [exact IH|]. right. eauto.
Qed.

Lemma rstrip_by_head (c : ascii) (t : string) :
  p c = false -> exists t', rstrip_by p (String c t) = String c t'.
Proof.
  intros Hc. simpl. destruct (rstrip_by p t); [rewrite Hc|]; eauto.
Qed.

Lemma rstrip_by_idem (s : string) : rstrip_by p (rstrip_by p s) = rstrip_by p s.
Proof.
  induction s as [|c s IH]; simpl; [reflexivity|].
  destruct (rstrip_by p s) as [|d t] eqn:E.
  - destruct (p c) eqn:Ec; simpl; [reflexivity | now rewrite Ec].
  - change (rstrip_by p (String c (String d t)))
      with (match rstrip_by p (String d t) with
            | EmptyString => if p c then EmptyString else String c EmptyString
            | u => String c u
            end).
    now rewrite IH.
Qed.

(** Stripping twice is stripping once. *)
Lemma strip_by_idem (s : string) : strip_by p (strip_by p s) = strip_by p s.
Proof.
  unfold strip_by. destruct (lstrip_by_shape s) as [->|(c & t & -> & Hc)].
  - reflexivity.
  - destruct (rstrip_by_head c t Hc) as [t' Ht]. rewrite Ht.
    rewrite lstrip_by_head by done. rewrite <- Ht. apply rstrip_by_idem.
Qed.

Lemma all_chars_app (q : ascii -> bool) (a b : string) :
  all_chars q (a ++ b) = all_chars q a && all_chars q b.
Proof.
  induction a as [|c a IH]; [reflexivity|].
  rewrite app_cons. simpl. now rewrite IH, andb_assoc.
Qed.

(** A string with a character that is not stripped does not strip to the
    empty string. *)
Lemma strip_by_nonempty (s : string) :
  has_chr (fun c => negb (p c)) s = true -> strip_by p s <> EmptyString.
Proof.
  unfold strip_by. induction s as [|c s IH]; simpl; [discriminate|].
  destruct (p c) eqn:Ec; simpl; [exact IH|]. intros _.
  destruct (rstrip_by p s); [rewrite Ec|]; discriminate.
Qed.

End Stripping.

Section Chars.

Ltac by_char x := destruct x as [[] [] [] [] [] [] [] []]; vm_compute; intros; congruence.

Lemma word_dash_of_cls_ok (x : ascii) :
  cls_ok true cls_word_dash x = true -> cls_word_dash x = true.
Proof. by_char x. Qed.

Lemma word_dash_not_space (x : ascii) : cls_word_dash x = true -> is_space x = false.
Proof. by_char x. Qed.

Lemma has_chr_none (q p : ascii -> bool) (s : string) :
  (forall x, p x = true -> q x = false) -> all_chars p s = true -> has_chr q s = false.
Proof.
  intros Hpq. induction s as [|c s IH]; simpl; [done|].
  intros [Hc Hs]%andb_true_iff. now rewrite (Hpq c Hc), IH.
Qed.

End Chars.

(** X16.  [extract_supplier_info] never raises.  A supplier it returns has a
    non-empty name, and its name and address have no blank at either end.
    A text without a line feed has no supplier. *)
Theorem X16_supplier_info (text : string) :
  (exists o, extract_supplier_info text = Ok o) /\
  (forall sup, extract_supplier_info text = Ok (Some sup) ->
     name sup <> EmptyString /\ strip (name sup) = name sup /\
     strip (address sup) = address sup) /\
  (has_chr (fun c => Ascii.eqb c LF) text = false ->
   extract_supplier_info text = Ok None).
Proof.
  split; [apply extract_supplier_info_total|]. split.
  - unfold extract_supplier_info.
    destruct (search false SUPPLIER_PATTERN text) as [m|] eqn:Hs; [|discriminate].
    destruct (search_group_set _ _ _ _ 1%nat Hs) as [n Hn]; [vm_compute; tauto|].
    destruct (search_group_set _ _ _ _ 2%nat Hs) as [a Ha]; [vm_compute; tauto|].
    rewrite Hn, Ha. cbn [strip_of bind]. intros sup [= <-]. cbn [name address].
    split; [|split; apply strip_by_idem].
    destruct (search_group_lang _ _ _ _ _ _ Hs Hn) as (body & Hin & c & c' & HM).
    simpl in Hin. destruct Hin as [Hin|[Hin|[]]]; [|discriminate].
    injection Hin as <-.
    apply strip_by_nonempty.
    eapply (Matches_must_have false (fun c => negb (is_space c))); [exact HM|].
    vm_compute. reflexivity.
  - intros Hlf. unfold extract_supplier_info.
    rewrite (search_none false (fun c => Ascii.eqb c LF)); [reflexivity | | exact Hlf].
    vm_compute. reflexivity.
Qed.

(** X17.  An invoice number, when one is found, is a non-empty token of word
    characters and hyphens: it holds no blank. *)
Theorem X17_invoice_number_token (text tok : string) :
  extract_invoice_details text = Some tok ->
  tok <> EmptyString /\ all_chars cls_word_dash tok = true /\
  has_chr is_space tok = false.
Proof.
  unfold extract_invoice_details.
  destruct (search true INVOICE_PATTERN text) as [m|] eqn:Hs; [|discriminate].
  intros Hg.
  destruct (search_group_lang _ _ _ _ _ _ Hs Hg) as (body & Hin & HL).
  simpl in Hin. destruct Hin as [Hin|[]]. injection Hin as <-.
  apply Plus_Cls_word in HL. destruct HL as (x & w' & -> & Hall).
  assert (Hw : all_chars cls_word_dash (String x w') = true).
  { revert Hall. apply all_chars_impl, word_dash_of_cls_ok. }
  split; [done|]. split; [exact Hw|].
  revert Hw. apply has_chr_none, word_dash_not_space.
Qed.

Lemma X17_invoice_number_token_witness :
  extract_invoice_details "Invoice Number: INV-7 of May" = Some "INV-7" /\
  "INV-7" <> EmptyString /\ all_chars cls_word_dash "INV-7" = true /\
  has_chr is_space "INV-7" = false.
Proof.
  split; [reflexivity|].
  apply (X17_invoice_number_token "Invoice Number: INV-7 of May" "INV-7"). reflexivity.
Defined.

(** X18.  Every PO number [extract_po_numbers] returns is a non-empty string of
    digits; a text without a digit has none. *)
Theorem X18_po_numbers_digits (text : string) :
  (forall po, po ∈ extract_po_numbers text ->
     po <> EmptyString /\ all_chars is_digit po = true) /\
  (has_chr is_digit text = false -> extract_po_numbers text = []).
Proof.
  split.
  - intros po Hpo. unfold extract_po_numbers in Hpo.
    apply list_elem_of_In, in_map_iff in Hpo. destruct Hpo as (m & <- & Hm).
    apply finditer_Matches in Hm. destruct Hm as (w & HM).
    destruct (Matches_mandatory true _ _ _ _ HM 2%nat) as [v Hv]; [vm_compute; tauto|].
    unfold group. rewrite Hv. simpl.
    destruct (Matches_captured true _ _ _ _ HM _ _ Hv) as [H|(body & Hin & HL)].
    { rewrite lookup_empty in H. discriminate. }
    simpl in Hin.
    repeat (destruct Hin as [Hin|Hin]; [try discriminate; injection Hin as <-|]);
      try contradiction.
    apply digits_word in HL. exact HL.
  - intros Hd. unfold extract_po_numbers, finditer.
    rewrite (finditer_none true is_digit); [reflexivity | | exact Hd].
    vm_compute. reflexivity.
Qed.

(** X19.  [cleanup_line] changes nothing in a line without a colon. *)
Theorem X19_cleanup_line_no_colon (line : string) :
  has_chr (fun c => Ascii.eqb c ":") line = false -> cleanup_line line = line.
Proof.
  intros H. unfold cleanup_line.
  rewrite (sub_unchanged true (fun c => Ascii.eqb c ":") PRICE_LABEL);
    [| vm_compute; reflexivity | exact H].
  apply (sub_unchanged true (fun c => Ascii.eqb c ":")); [vm_compute; reflexivity | exact H].
Qed.

Lemma X19_cleanup_line_no_colon_witness :
  has_chr (fun c => Ascii.eqb c ":") "P r i c e 10.00" = false /\
  cleanup_line "P r i c e 10.00" = "P r i c e 10.00".
Proof.
  split; [reflexivity|]. apply X19_cleanup_line_no_colon. reflexivity.
Defined.

(** No grammar matches a line without a digit. *)
Lemma no_digit_line_matches (line : string) :
  has_chr is_digit line = false -> line_matches line = false.
Proof.
  intros H. unfold line_matches.
  rewrite (search_none true is_digit PRODUCT_CODE_PATTERN_A line), 
          (search_none true is_digit PRODUCT_CODE_PATTERN_B line),
          (search_none true is_digit SERVICE_PATTERN line);
    first [exact H | vm_compute; reflexivity].
Qed.

(** X20.  Every grammar needs a digit: on a line without one [try_match_line]
    answers [False] and leaves both lists as they are. *)
Theorem X20_no_digit_no_match (line : string) (ps : list product) (ss : list service) :
  has_chr is_digit line = false ->
  line_matches line = false /\ try_match_line line ps ss = Ok (false, ps, ss).
Proof.
  intros H. pose proof (no_digit_line_matches line H) as Hm.
  split; [exact Hm|].
  destruct (try_match_line_total line ps ss) as (ps' & ss' & Ht & Hsame).
  rewrite Hm in Ht. destruct (Hsame Hm) as [-> ->]. exact Ht.
Qed.

Lemma X20_no_digit_no_match_witness :
  has_chr is_digit "Thank you for your business" = false /\
  line_matches "Thank you for your business" = false /\
  try_match_line "Thank you for your business" [] [] = Ok (false, [], []).
Proof.
  split; [reflexivity|].
  apply (X20_no_digit_no_match "Thank you for your business" [] []). reflexivity.
Defined.

Section Codes.

Ltac by_char x := destruct x as [[] [] [] [] [] [] [] []]; vm_compute; intros; congruence.

Lemma Str_word (s : string) :
  forall w c c', Matches true (Str s) w c c' -> map_chars lower w = map_chars lower s.
Proof.
  induction s as [|a s IH]; intros w c c' H.
  - inversion H; subst. reflexivity.
  - destruct s as [|b s].
    + inversion H as [|? x ? Hx| | | | | | | | |]; subst.
      simpl in Hx. apply Ascii.eqb_eq in Hx. simpl. now rewrite Hx.
    + change (Str (String a (String b s))) with (Seq (Lit a) (Str (String b s))) in H.
      inversion H as [| | |? ? w1 w2 ? ? ? H1 H2| | | | | | |]; subst.
      inversion H1 as [|? x ? Hx| | | | | | | | |]; subst.
      simpl in Hx. apply Ascii.eqb_eq in Hx.
      rewrite app_cons, app_nil_l. cbn [map_chars]. rewrite Hx.
      f_equal. exact (IH _ _ _ H2).
Qed.

Lemma code_a_not_space (x : ascii) : cls_ok true cls_code_a x = true -> is_space x = false.
Proof. by_char x. Qed.

Lemma code_b_not_space (x : ascii) : cls_ok true cls_word_dash x = true -> is_space x = false.
Proof. by_char x. Qed.

Lemma lower_not_space (x y : ascii) :
  lower x = y -> is_space y = false -> is_space x = false.
Proof. intros <-. by_char x. Qed.

(** A word that reads [prd-] in lower case holds four characters, none of
    them a blank. *)
Lemma prd_word (w : string) :
  map_chars lower w = "prd-" ->
  String.length w = 4%nat /\ has_chr is_space w = false.
Proof.
  destruct w as [|x1 [|x2 [|x3 [|x4 [|x5 w]]]]]; try discriminate.
  cbn [map_chars]. intros [= H1 H2 H3 H4]. split; [reflexivity|].
  cbn [has_chr].
  rewrite (lower_not_space x1 _ H1 eq_refl), (lower_not_space x2 _ H2 eq_refl),
          (lower_not_space x3 _ H3 eq_refl), (lower_not_space x4 _ H4 eq_refl).
  reflexivity.
Qed.

Lemma no_space_strip (s : string) : has_chr is_space s = false -> strip s = s.
Proof.
  intros H. apply strip_by_none. induction s as [|c s IH]; [reflexivity|].
  simpl in H. apply orb_false_iff in H. destruct H as [Hc Hs].
  simpl. now rewrite Hc, IH.
Qed.

(** A word matched by [PRD-] and a run of a class of characters that are no
    blanks. *)
Lemma prd_code (p : ascii -> bool) (code : string) :
  (forall x, cls_ok true p x = true -> is_space x = false) ->
  Lang true (Seq (Str "PRD-") (Plus true (Cls p))) code ->
  map_chars lower (str_take 4 code) = "prd-" /\
  (4 < String.length code)%nat /\ has_chr is_space code = false.
Proof.
  intros Hp (c & c' & H).
  inversion H as [| | |? ? w1 w2 ? ? ? H1 H2| | | | | | |]; subst.
  apply (Str_word "PRD-") in H1. change (map_chars lower "PRD-") with "prd-" in H1.
  destruct (prd_word w1 H1) as [Hlen Hsp].
  assert (HL : Lang true (Plus true (Cls p)) w2) by (eexists _, _; exact H2).
  apply Plus_Cls_word in HL. destruct HL as (x & w' & -> & Hall).
  split; [|split].
  - rewrite <- Hlen, take_app_exact. exact H1.
  - rewrite length_app_str, Hlen. simpl. lia.
  - rewrite has_chr_app, Hsp. cbn [orb]. revert Hall. apply has_chr_none, Hp.
Qed.

Lemma product_of_code (line : string) (p : product) :
  product_of line p ->
  exists code,
    product_code p = Some code /\
    map_chars lower (str_take 4 code) = "prd-" /\
    (4 < String.length code)%nat /\ has_chr is_space code = false.
Proof.
  intros [(m & code & qty & up & amt & Hs & H1 & _ & _ & _ & ->)
         |(m & code & descr & qty & price & total & _ & Hs & H1 & _ & _ & _ & _ & ->)].
  - destruct (search_group_lang _ _ _ _ _ _ Hs H1) as (body & Hin & HL).
    simpl in Hin.
    repeat (destruct Hin as [Hin|Hin]; [try discriminate; injection Hin as <-|]);
      try contradiction.
    exists code. split; [reflexivity|]. exact (prd_code _ _ code_a_not_space HL).
  - destruct (search_group_lang _ _ _ _ _ _ Hs H1) as (body & Hin & HL).
    simpl in Hin.
    repeat (destruct Hin as [Hin|Hin]; [try discriminate; injection Hin as <-|]);
      try contradiction.
    destruct (prd_code _ _ code_b_not_space HL) as (Hpre & Hlen & Hsp).
    exists code. cbn [record_b product_code]. rewrite (no_space_strip code Hsp). done.
Qed.

End Codes.

(** X21.  Every product the tokenizer returns has a product code, and the code
    starts with [PRD-] in any letter case, goes on with at least one more
    character, and holds no blank. *)
Theorem X21_tokenizer_product_codes (extracted_text : string)
    (ps : list product) (ss : list service) :
  extract_line_by_line_items extracted_text = Ok (ps, ss) ->
  Forall (fun p => exists code,
            product_code p = Some code /\
            map_chars lower (str_take 4 code) = "prd-" /\
            (4 < String.length code)%nat /\ has_chr is_space code = false) ps.
Proof.
  unfold extract_line_by_line_items.
  destruct (while_loop_added (clean_lines extracted_text)
              (length (clean_lines extracted_text))
              {| cursor := 0; st_products := []; st_services := [] |})
    as (st & -> & _ & newp & news & Hp & Hs & _ & HFp & HFs); [simpl; lia | simpl; lia|].
  cbn [bind]. intros [= <- <-]. simpl in Hp. rewrite Hp.
  eapply Forall_impl; [exact HFp|]. intros p (w & _ & Hp'). exact (product_of_code w p Hp').
Qed.

Lemma X21_tokenizer_product_codes_witness :
  extract_line_by_line_items sample_b_po =
    Ok ([record_b "PRD-77X" "Power Supply" "2" "5.00" "10.00" (Some "123")], []) /\
  Forall (fun p => exists code,
            product_code p = Some code /\
            map_chars lower (str_take 4 code) = "prd-" /\
            (4 < String.length code)%nat /\ has_chr is_space code = false)
    [record_b "PRD-77X" "Power Supply" "2" "5.00" "10.00" (Some "123")].
Proof.
  assert (H : extract_line_by_line_items sample_b_po =
              Ok ([record_b "PRD-77X" "Power Supply" "2" "5.00" "10.00" (Some "123")], []))
    by (vm_compute; reflexivity).
  split; [exact H|]. exact (X21_tokenizer_product_codes _ _ _ H).
Defined.

Section Counting.

Lemma count_chr_app (a : ascii) (s t : string) :
  count_chr a (s ++ t) = (count_chr a s + count_chr a t)%nat.
Proof.
  induction s as [|c s IH]; [reflexivity|].
  rewrite app_cons. simpl. rewrite IH. lia.
Qed.

Lemma replace_from_count (x : ascii) (old new : string) (s : string) :
  count_chr x new = 0%nat ->
  forall k, (count_chr x (replace_from old new k s) <= count_chr x s)%nat.
Proof.
  intros Hnew. induction s as [|c s IH]; intros k; simpl; [lia|].
  destruct k as [|k].
  - destruct (starts_with old (String c s)).
    + rewrite count_chr_app, Hnew. specialize (IH (Nat.pred (String.length old))). lia.
    + simpl. specialize (IH 0%nat). lia.
  - specialize (IH k). lia.
Qed.

Lemma replace_count (x : ascii) (old new s : string) :
  count_chr x new = 0%nat -> (count_chr x (replace old new s) <= count_chr x s)%nat.
Proof. intros H. apply replace_from_count, H. Qed.

(** Replacing one character by a string without it removes it. *)
Lemma replace_removes (a : ascii) (new s : string) :
  count_chr a new = 0%nat ->
  count_chr a (replace (String a EmptyString) new s) = 0%nat.
Proof.
  intros Hnew. unfold replace. induction s as [|c s IH]; [reflexivity|].
  cbn [replace_from starts_with String.length Nat.pred].
  destruct (Ascii.eqb a c) eqn:E; cbn [andb].
  - rewrite count_chr_app, Hnew, IH. reflexivity.
  - simpl. rewrite Ascii.eqb_sym, E, IH. reflexivity.
Qed.

Lemma split_parts_count (sep x : ascii) (s : string) :
  Ascii.eqb x sep = false ->
  list_sum (map (count_chr x) (split sep s)) = count_chr x s.
Proof.
  intros Hx. induction s as [|c s IH]; [reflexivity|]. simpl.
  destruct (Ascii.eqb c sep) eqn:E.
  - simpl. rewrite IH. apply Ascii.eqb_eq in E. subst c.
    rewrite Ascii.eqb_sym, Hx. reflexivity.
  - destruct (split sep s) as [|h t]; simpl in *; lia.
Qed.

Lemma split_parts_no_sep (sep : ascii) (s : string) :
  Forall (fun p => count_chr sep p = 0%nat) (split sep s).
Proof.
  induction s as [|c s IH]; simpl; [repeat constructor|].
  destruct (Ascii.eqb c sep) eqn:E; [constructor; [reflexivity | exact IH]|].
  destruct (split sep s) as [|h t]; [repeat constructor; simpl; now rewrite E|].
  inversion IH; subst. constructor; [simpl; rewrite E; lia | done].
Qed.

Lemma join_empty_count (x : ascii) (parts : list string) :
  count_chr x (join EmptyString parts) = list_sum (map (count_chr x) parts).
Proof.
  induction parts as [|p parts IH]; [reflexivity|].
  destruct parts as [|p' parts]; [simpl; lia|].
  change (join EmptyString (p :: p' :: parts))
    with (p ++ EmptyString ++ join EmptyString (p' :: parts)).
  rewrite app_nil_l, count_chr_app, IH. reflexivity.
Qed.

Lemma list_sum_zero (l : list string) (x : ascii) :
  Forall (fun p => count_chr x p = 0%nat) l -> list_sum (map (count_chr x) l) = 0%nat.
Proof. induction 1; simpl; lia. Qed.

Lemma merge_thousands_count (x : ascii) (t : string) :
  Ascii.eqb x "." = false -> count_chr x (merge_thousands t) = count_chr x t.
Proof.
  intros Hx. unfold merge_thousands. destruct (1 <? count_chr "." t)%nat; [|reflexivity].
  assert (Hne : split "." t <> []).
  { pose proof (split_length "." t) as H. destruct (split "." t); [discriminate|done]. }
  rewrite !count_chr_app, join_empty_count.
  rewrite <- (split_parts_count "." x t Hx).
  rewrite (app_removelast_last EmptyString Hne) at 3.
  rewrite map_app, list_sum_app.
  assert (Hd : count_chr x "." = 0%nat).
  { change (count_chr x ".") with ((if Ascii.eqb "." x then 1 else 0) + 0)%nat.
    now rewrite (Ascii.eqb_sym "." x), Hx. }
  cbn [map list_sum fold_right]. rewrite ?Hd. unfold list_sum. lia.
Qed.

Lemma merge_thousands_dots (t : string) : (count_chr "." (merge_thousands t) <= 1)%nat.
Proof.
  unfold merge_thousands. destruct (1 <? count_chr "." t)%nat eqn:E.
  - assert (Hne : split "." t <> []).
    { pose proof (split_length "." t) as H. destruct (split "." t); [discriminate|done]. }
    pose proof (split_parts_no_sep "." t) as Hall.
    rewrite (app_removelast_last EmptyString Hne) in Hall.
    apply Forall_app in Hall. destruct Hall as [Hinit Hlast].
    inversion Hlast; subst.
    rewrite !count_chr_app, join_empty_count, (list_sum_zero _ _ Hinit).
    simpl. lia.
  - apply Nat.ltb_ge in E. exact E.
Qed.

Lemma Lit_word (a : ascii) w c c' :
  Matches false (Lit a) w c c' -> w = String a EmptyString.
Proof.
  inversion 1 as [|? x ? Hx| | | | | | | | |]; subst.
  simpl in Hx. apply Ascii.eqb_eq in Hx. now subst.
Qed.

Lemma dot_run_needs_two (s : string) (m : rmatch) :
  match_at false DOT_RUN s = Some m -> (2 <= count_chr "." s)%nat.
Proof.
  intros H. apply match_at_Matches in H. destruct H as (w & s' & -> & H).
  unfold DOT_RUN, Plus in H.
  inversion H as [| | |? ? w1 w2 ? ? ? H1 H2| | | | | | |]; subst.
  inversion H2 as [| | |? ? w3 w4 ? ? ? H3 H4| | | | | | |]; subst.
  apply Lit_word in H1. apply Lit_word in H3. subst.
  rewrite !count_chr_app. simpl. lia.
Qed.

(** With at most one dot in the token the [re.sub] of dot runs finds nothing
    to replace. *)
Lemma collapse_dot_runs_idle (t : string) :
  (count_chr "." t <= 1)%nat -> collapse_dot_runs t = t.
Proof.
  unfold collapse_dot_runs, sub. induction t as [|c t IH]; intros Hc; [reflexivity|].
  cbn [sub_from].
  destruct (match_at false DOT_RUN (String c t)) as [m|] eqn:E.
  - apply dot_run_needs_two in E. lia.
  - rewrite IH; [reflexivity|]. simpl in Hc. lia.
Qed.

End Counting.

(** X22.  The token [fix_float] hands to [float] is never empty, holds no [S],
    underscore, comma or space, and holds at most one dot. *)
Theorem X22_fix_float_clean_shape (value : string) :
  let raw := fix_float_clean value in
  raw <> EmptyString /\
  count_chr "S" raw = 0%nat /\ count_chr "_" raw = 0%nat /\
  count_chr "," raw = 0%nat /\ count_chr " " raw = 0%nat /\
  (count_chr "." raw <= 1)%nat.
Proof.
  cbv zeta. unfold fix_float_clean. cbv zeta. rewrite merge_thousands_code.
  fold (remove_noise (strip value)).
  set (t2 := remove_noise (strip value)).
  set (t4 := replace "," "." (replace ".," "." t2)).
  fold (collapse_dot_runs (merge_thousands t4)).
  rewrite (collapse_dot_runs_idle _ (merge_thousands_dots t4)).
  set (t7 := replace " " "" (merge_thousands t4)).
  assert (HS2 : count_chr "S" t2 = 0%nat).
  { unfold t2, remove_noise.
    pose proof (replace_count "S" "_" "" (replace "S" "" (strip value)) eq_refl) as H.
    rewrite (replace_removes "S" "" (strip value) eq_refl) in H. lia. }
  assert (HU2 : count_chr "_" t2 = 0%nat)
    by (unfold t2, remove_noise; now apply replace_removes).
  assert (Hkeep : forall x, count_chr x "." = 0%nat -> Ascii.eqb x "." = false ->
                            count_chr x t2 = 0%nat -> count_chr x t7 = 0%nat).
  { intros x Hx Hd H2. unfold t7, t4.
    pose proof (replace_count x " " "" (merge_thousands
                  (replace "," "." (replace ".," "." t2))) eq_refl) as H7.
    rewrite (merge_thousands_count x _ Hd) in H7.
    pose proof (replace_count x "," "." (replace ".," "." t2) Hx) as H4.
    pose proof (replace_count x ".," "." t2 Hx) as H3. lia. }
  assert (HC7 : count_chr "," t7 = 0%nat).
  { unfold t7, t4.
    pose proof (replace_count "," " " "" (merge_thousands
                  (replace "," "." (replace ".," "." t2))) eq_refl) as H7.
    rewrite (merge_thousands_count "," _ eq_refl) in H7.
    rewrite (replace_removes "," "." _ eq_refl) in H7. lia. }
  assert (HB7 : count_chr " " t7 = 0%nat) by (unfold t7; now apply replace_removes).
  assert (HD7 : (count_chr "." t7 <= 1)%nat).
  { unfold t7.
    pose proof (replace_count "." " " "" (merge_thousands t4) eq_refl) as H7.
    pose proof (merge_thousands_dots t4). lia. }
  destruct (String.eqb t7 EmptyString) eqn:E.
  - repeat split; try reflexivity; try discriminate. simpl. lia.
  - apply String.eqb_neq in E. repeat split; auto.
Qed.

(** X23.  The step that collapses runs of dots never changes the token: after
    the thousands merge at most one dot is left. *)
Theorem X23_dot_run_collapse_idle (value : string) :
  let raw := replace "," "." (replace ".," "." (remove_noise (strip value))) in
  (count_chr "." (merge_thousands raw) <= 1)%nat /\
  collapse_dot_runs (merge_thousands raw) = merge_thousands raw /\
  fix_float_clean value =
    (let t := replace " " "" (merge_thousands raw) in
     if String.eqb t EmptyString then "0" else t).
Proof.
  cbv zeta. split; [apply merge_thousands_dots|].
  split; [apply collapse_dot_runs_idle, merge_thousands_dots|].
  unfold fix_float_clean. cbv zeta. rewrite merge_thousands_code.
  fold (remove_noise (strip value)).
  fold (collapse_dot_runs
          (merge_thousands (replace "," "." (replace ".," "." (remove_noise (strip value)))))).
  now rewrite (collapse_dot_runs_idle _ (merge_thousands_dots _)).
Qed.

(** X24.  Blanks around the token do not matter to [fix_float]. *)
Theorem X24_fix_float_strip (value : string) :
  fix_float_clean (strip value) = fix_float_clean value /\
  fix_float (strip value) = fix_float value.
Proof.
  assert (H : fix_float_clean (strip value) = fix_float_clean value).
  { unfold fix_float_clean. cbv zeta. unfold strip. now rewrite strip_by_idem. }
  split; [exact H|]. unfold fix_float. now rewrite H.
Qed.

Section Digitless.
Context (q : ascii -> bool).

Lemma has_chr_lstrip (p : ascii -> bool) (s : string) :
  has_chr q s = false -> has_chr q (lstrip_by p s) = false.
Proof.
  induction s as [|c s IH]; simpl; [done|].
  intros [Hc Hs]%orb_false_iff. destruct (p c); [auto|]. simpl. now rewrite Hc, Hs.
Qed.

Lemma has_chr_rstrip (p : ascii -> bool) (s : string) :
  has_chr q s = false -> has_chr q (rstrip_by p s) = false.
Proof.
  induction s as [|c s IH]; simpl; [done|].
  intros [Hc Hs]%orb_false_iff. specialize (IH Hs).
  destruct (rstrip_by p s) as [|d t].
  - destruct (p c); simpl; [done | now rewrite Hc].
  - simpl in *. now rewrite Hc, IH.
Qed.

Lemma has_chr_strip (s : string) : has_chr q s = false -> has_chr q (strip s) = false.
Proof. intros H. apply has_chr_rstrip, has_chr_lstrip, H. Qed.

Lemma has_chr_join (sep : string) (parts : list string) :
  has_chr q sep = false -> Forall (fun p => has_chr q p = false) parts ->
  has_chr q (join sep parts) = false.
Proof.
  intros Hsep. induction 1 as [|p parts Hp Hparts IH]; [reflexivity|].
  destruct parts as [|p' parts]; [exact Hp|].
  change (join sep (p :: p' :: parts)) with (p ++ sep ++ join sep (p' :: parts)).
  now rewrite !has_chr_app, Hp, Hsep, IH.
Qed.

Lemma has_chr_splitlines_le (n : nat) :
  forall s, (String.length s <= n)%nat -> has_chr q s = false ->
            Forall (fun l => has_chr q l = false) (splitlines s).
Proof.
  induction n as [|n IH]; intros [|c s] Hn Hs; try (constructor; fail); [simpl in Hn; lia|].
  simpl in Hn, Hs. apply orb_false_iff in Hs. destruct Hs as [Hc Hs].
  cbn [splitlines]. destruct (is_linebreak c).
  - constructor; [reflexivity|]. destruct s as [|d s']; [constructor|].
    destruct (Ascii.eqb c CR && Ascii.eqb d LF).
    + simpl in Hn, Hs. apply orb_false_iff in Hs. destruct Hs as [_ Hs].
      apply IH; [lia | exact Hs].
    + apply IH; [lia | exact Hs].
  - pose proof (IH s ltac:(lia) Hs) as H.
    destruct (splitlines s) as [|h t].
    + constructor; [simpl; now rewrite Hc | constructor].
    + inversion H; subst. constructor; [simpl; now rewrite Hc | done].
Qed.

Lemma has_chr_splitlines (s : string) :
  has_chr q s = false -> Forall (fun l => has_chr q l = false) (splitlines s).
Proof. apply (has_chr_splitlines_le (String.length s)). lia. Qed.

Lemma has_chr_sub (ic : bool) (r : regex) (repl s : string) :
  has_chr q repl = false -> has_chr q s = false ->
  forall k, has_chr q (sub_from ic r repl k s) = false.
Proof.
  intros Hrepl. induction s as [|c s IH]; intros Hs k; [reflexivity|].
  simpl in Hs. apply orb_false_iff in Hs. destruct Hs as [Hc Hs].
  destruct k as [|k]; cbn [sub_from]; [|exact (IH Hs k)].
  destruct (match_at ic r (String c s)).
  - rewrite has_chr_app, Hrepl. exact (IH Hs _).
  - simpl. rewrite Hc. exact (IH Hs _).
Qed.

End Digitless.

Section NoDigit.
Context (lines : list string).
Hypothesis Hlines : Forall (fun l => has_chr is_digit l = false) lines.

Lemma no_digit_window (i k : nat) : line_matches (window lines i k) = false.
Proof.
  apply no_digit_line_matches. unfold window.
  apply has_chr_join; [reflexivity|].
  apply Forall_map. apply Forall_forall. intros l Hl. apply has_chr_strip.
  rewrite Forall_forall in Hlines. apply Hlines.
  apply (subseteq_take (S k) (drop i lines)) in Hl.
  now apply (subseteq_drop i lines) in Hl.
Qed.

Lemma no_digit_step st :
  (cursor st < length lines)%nat ->
  step lines st =
  Ok {| cursor := cursor st + 1; st_products := st_products st;
        st_services := st_services st |}.
Proof.
  intros Hlt. destruct (lookup_lt_is_Some_2 lines (cursor st) Hlt) as [l Hl].
  destruct (decide (strip l = EmptyString)) as [Hb|Hb]; [now apply (step_blank lines st l)|].
  apply (step_dropped lines st l); [done | done | |].
  - apply no_digit_line_matches, has_chr_strip.
    rewrite Forall_forall in Hlines. apply Hlines. eapply list_elem_of_lookup_2, Hl.
  - intros k _ _. apply no_digit_window.
Qed.

Lemma no_digit_while (fuel : nat) :
  forall st, exists st',
    while_loop fuel lines st = Ok st' /\
    st_products st' = st_products st /\ st_services st' = st_services st.
Proof.
  induction fuel as [|fuel IH]; intros st; simpl.
  - destruct (cursor st <? length lines)%nat; eauto.
  - destruct (cursor st <? length lines)%nat eqn:E; [|eauto].
    apply Nat.ltb_lt in E. rewrite (no_digit_step st E). cbn [bind].
    destruct (IH {| cursor := cursor st + 1; st_products := st_products st;
                    st_services := st_services st |}) as (st' & Hw & Hp & Hs).
    eauto.
Qed.

End NoDigit.

(** X25.  A text without a digit holds no record: the tokenizer returns two
    empty lists, whatever the number and the layout of its lines. *)
Theorem X25_no_digit_no_record (extracted_text : string) :
  has_chr is_digit extracted_text = false ->
  extract_line_by_line_items extracted_text = Ok ([], []).
Proof.
  intros H. unfold extract_line_by_line_items.
  assert (Hlines : Forall (fun l => has_chr is_digit l = false) (clean_lines extracted_text)).
  { unfold clean_lines. apply Forall_map.
    eapply Forall_impl; [apply has_chr_splitlines, H|].
    intros l Hl. simpl. unfold cleanup_line, sub.
    apply has_chr_sub; [reflexivity|]. apply has_chr_sub; [reflexivity | exact Hl]. }
  destruct (no_digit_while (clean_lines extracted_text) Hlines
              (length (clean_lines extracted_text))
              {| cursor := 0; st_products := []; st_services := [] |})
    as (st & -> & Hp & Hs).
  cbn [bind]. simpl in Hp, Hs. now rewrite Hp, Hs.
Qed.

Lemma X25_no_digit_no_record_witness :
  has_chr is_digit ("Dear customer," ++ nl ++ "  thank you for" ++ nl ++ "your order: Qty") = false /\
  extract_line_by_line_items
    ("Dear customer," ++ nl ++ "  thank you for" ++ nl ++ "your order: Qty") = Ok ([], []).
Proof.
  split; [reflexivity|]. apply X25_no_digit_no_record. reflexivity.
Defined.

Section Decimals.

Ltac by_char x := destruct x as [[] [] [] [] [] [] [] []]; vm_compute; intros; congruence.

Lemma digit_differs (a c : ascii) :
  is_digit a = false -> is_digit c = true ->
  Ascii.eqb a c = false /\ Ascii.eqb c a = false.
Proof.
  intros Ha Hc. split; apply Ascii.eqb_neq; intros ->; congruence.
Qed.

Lemma numeral_not_space (x : ascii) : is_numeral x = true -> is_space x = false.
Proof. by_char x. Qed.

Lemma dotdigit_not_blank (x : ascii) :
  is_digit x || Ascii.eqb x "." = true -> is_blank x = false.
Proof. by_char x. Qed.

Lemma dotdigit_not_underscore (x : ascii) :
  is_digit x || Ascii.eqb x "." = true -> Ascii.eqb x "_" = false.
Proof. by_char x. Qed.

Lemma dotdigit_not_sign (x : ascii) (s : string) :
  is_digit x || Ascii.eqb x "." = true -> split_sign (String x s) = (false, String x s).
Proof. by_char x. Qed.

Lemma dotdigit_not_word (x : ascii) (s : string) :
  is_digit x || Ascii.eqb x "." = true ->
  String.eqb (map_chars lower (String x s)) "inf"
  || String.eqb (map_chars lower (String x s)) "infinity" = false /\
  String.eqb (map_chars lower (String x s)) "nan" = false.
Proof.
  destruct x as [[] [] [] [] [] [] [] []]; vm_compute; intros;
    first [congruence | split; reflexivity].
Qed.

Lemma replace_from_miss (old new : string) (c : ascii) (s : string) :
  starts_with old (String c s) = false ->
  replace_from old new 0 (String c s) = String c (replace_from old new 0 s).
Proof. intros H. cbn [replace_from]. now rewrite H. Qed.

Lemma replace_from_hit (c : ascii) (new s : string) :
  replace_from (String c EmptyString) new 0 (String c s) =
  new ++ replace_from (String c EmptyString) new 0 s.
Proof. cbn [replace_from starts_with]. now rewrite Ascii.eqb_refl. Qed.

(** A pattern whose first character is no digit is not found inside digits. *)
Lemma replace_from_digits (a : ascii) (old' new d s : string) :
  is_digit a = false -> all_chars is_digit d = true ->
  replace_from (String a old') new 0 (d ++ s) =
  d ++ replace_from (String a old') new 0 s.
Proof.
  intros Ha. induction d as [|c d IH]; [reflexivity|].
  cbn [all_chars]. intros [Hc Hd]%andb_true_iff.
  rewrite !app_cons. rewrite replace_from_miss, IH; [reflexivity | exact Hd |].
  cbn [starts_with]. now destruct (digit_differs a c Ha Hc) as [-> _].
Qed.

Lemma replace_digits (a : ascii) (old' new d : string) :
  is_digit a = false -> all_chars is_digit d = true ->
  replace (String a old') new d = d.
Proof.
  intros Ha Hd. unfold replace.
  rewrite <- (app_empty_r d) at 1. rewrite (replace_from_digits a old' new d _ Ha Hd).
  apply app_empty_r.
Qed.

Lemma grouped_head (x : ascii) (g : string) (rest : list (ascii * string)) :
  grouped (String x g) rest = String x (grouped g rest).
Proof. destruct rest as [|[s h] rest]; reflexivity. Qed.

(** Nothing of a grouped number is an [S], an underscore or a blank. *)
Lemma replace_grouped_absent (a : ascii) (new : string) :
  is_numeral a = false ->
  forall rest first, well_grouped first rest ->
    replace (String a EmptyString) new (grouped first rest) = grouped first rest.
Proof.
  intros Ha.
  assert (Hd : is_digit a = false).
  { unfold is_numeral in Ha. now destruct (is_digit a). }
  induction rest as [|[s g] rest IH]; intros first [Hf Hr].
  - now apply replace_digits.
  - inversion Hr as [|? ? (Hs & Hne & Hg) Hr']; subst. simpl in Hs, Hne, Hg.
    cbn [grouped]. unfold replace. rewrite (replace_from_digits a _ _ _ _ Hd Hf).
    assert (Has : Ascii.eqb a s = false).
    { apply Ascii.eqb_neq. intros <-. destruct Hs as [->| ->]; discriminate. }
    rewrite replace_from_miss by (cbn [starts_with]; now rewrite Has).
    specialize (IH g (conj Hg Hr')). unfold replace in IH. now rewrite IH.
Qed.

(** No separator of a grouped number is a point followed by a comma. *)
Lemma replace_grouped_point_comma (rest : list (ascii * string)) :
  forall first, well_grouped first rest ->
    replace ".," "." (grouped first rest) = grouped first rest.
Proof.
  induction rest as [|[s g] rest IH]; intros first [Hf Hr].
  - now apply replace_digits.
  - inversion Hr as [|? ? (Hs & Hne & Hg) Hr']; subst. simpl in Hs, Hne, Hg.
    cbn [grouped]. unfold replace. rewrite (replace_from_digits "." _ _ _ _ eq_refl Hf).
    destruct g as [|x g]; [done|].
    pose proof Hg as Hx. cbn [all_chars] in Hx. apply andb_true_iff in Hx.
    destruct Hx as [Hx _].
    rewrite replace_from_miss.
    2:{ rewrite grouped_head. cbn [starts_with].
        destruct (digit_differs "," x eq_refl Hx) as [-> _]. now rewrite andb_false_r. }
    specialize (IH (String x g) (conj Hg Hr')). unfold replace in IH. now rewrite IH.
Qed.

(** Every comma becomes a point. *)
Lemma replace_grouped_comma (rest : list (ascii * string)) :
  forall first, well_grouped first rest ->
    replace "," "." (grouped first rest) =
    grouped first (map (fun sg => ("."%char, snd sg)) rest).
Proof.
  induction rest as [|[s g] rest IH]; intros first [Hf Hr].
  - now apply replace_digits.
  - inversion Hr as [|? ? (Hs & Hne & Hg) Hr']; subst. simpl in Hs, Hne, Hg.
    cbn [grouped map snd]. unfold replace.
    rewrite (replace_from_digits "," _ _ _ _ eq_refl Hf).
    specialize (IH g (conj Hg Hr')). unfold replace in IH.
    destruct Hs as [-> | ->].
    + rewrite replace_from_miss by reflexivity. now rewrite IH.
    + rewrite replace_from_hit, IH. reflexivity.
Qed.

Lemma split_digits_point (d s : string) :
  all_chars is_digit d = true -> split "." (d ++ String "." s) = d :: split "." s.
Proof.
  induction d as [|c d IH]; [reflexivity|].
  cbn [all_chars]. intros [Hc Hd]%andb_true_iff.
  rewrite app_cons. cbn [split].
  destruct (digit_differs "." c eq_refl Hc) as [_ ->]. now rewrite IH.
Qed.

Lemma split_digits (d : string) : all_chars is_digit d = true -> split "." d = [d].
Proof.
  induction d as [|c d IH]; [reflexivity|].
  cbn [all_chars]. intros [Hc Hd]%andb_true_iff. cbn [split].
  destruct (digit_differs "." c eq_refl Hc) as [_ ->]. now rewrite IH.
Qed.

Lemma split_grouped (rest : list (ascii * string)) :
  forall first, well_grouped first rest ->
    split "." (grouped first (map (fun sg => ("."%char, snd sg)) rest)) =
    first :: map snd rest.
Proof.
  induction rest as [|[s g] rest IH]; intros first [Hf Hr].
  - now apply split_digits.
  - inversion Hr as [|? ? (Hs & Hne & Hg) Hr']; subst. simpl in Hg.
    cbn [grouped map snd]. rewrite (split_digits_point _ _ Hf).
    now rewrite (IH g (conj Hg Hr')).
Qed.

Lemma join_init_groups (rest : list (ascii * string)) :
  forall first, join "" (removelast (first :: map snd rest)) = int_part first rest.
Proof.
  induction rest as [|[s g] rest IH]; intros first; [reflexivity|].
  cbn [map snd int_part]. rewrite <- join_removelast by done.
  now rewrite IH.
Qed.

Lemma last_of_groups (rest : list (ascii * string)) :
  forall first, List.last (first :: map snd rest) EmptyString = last_group first rest.
Proof.
  induction rest as [|[s g] rest IH]; intros first; [reflexivity|].
  cbn [map snd last_group]. rewrite <- IH. reflexivity.
Qed.

(** After the thousands merge the number is its integer part, a point, and
    its last group. *)
Lemma merge_thousands_grouped (rest : list (ascii * string)) (first : string) :
  well_grouped first rest -> rest <> [] ->
  merge_thousands (grouped first (map (fun sg => ("."%char, snd sg)) rest)) =
  int_part first rest ++ "." ++ last_group first rest.
Proof.
  intros Hw Hne. unfold merge_thousands.
  pose proof (split_length "." (grouped first (map (fun sg => ("."%char, snd sg)) rest)))
    as Hlen.
  rewrite (split_grouped rest first Hw) in Hlen |- *.
  cbn [length] in Hlen. rewrite length_map in Hlen.
  injection Hlen as Hlen. rewrite <- Hlen.
  destruct rest as [|[s g] [|sg rest]]; [done | |].
  - cbn. now rewrite app_empty_r.
  - replace (1 <? length ((s, g) :: sg :: rest))%nat with true by reflexivity.
    cbv zeta. now rewrite join_init_groups, last_of_groups.
Qed.

Lemma int_part_digits (rest : list (ascii * string)) :
  forall first, well_grouped first rest ->
    all_chars is_digit (int_part first rest) = true /\
    all_chars is_digit (last_group first rest) = true /\
    (rest <> [] -> last_group first rest <> EmptyString).
Proof.
  induction rest as [|[s g] rest IH]; intros first [Hf Hr].
  - cbn. split; [done|]. split; [done|]. done.
  - inversion Hr as [|? ? (Hs & Hne & Hg) Hr']; subst. simpl in Hne, Hg.
    destruct (IH g (conj Hg Hr')) as (Hi & Hl & Hn).
    cbn [int_part last_group]. split; [|split; [exact Hl|]].
    + rewrite all_chars_app, Hf, Hi. reflexivity.
    + intros _. destruct rest as [|sg rest]; [exact Hne | apply Hn; done].
Qed.

Lemma drop_underscores_none (w : string) :
  all_chars (fun c => is_digit c || Ascii.eqb c ".") w = true ->
  forall prev, Ascii.eqb prev "_" = false -> drop_underscores prev w = Some w.
Proof.
  induction w as [|a w IH]; intros Hw prev Hp; cbn [drop_underscores].
  - now rewrite Hp.
  - cbn [all_chars] in Hw. apply andb_true_iff in Hw. destruct Hw as [Ha Hw].
    rewrite (dotdigit_not_underscore a Ha), Hp. cbn [andb].
    now rewrite (IH Hw a (dotdigit_not_underscore a Ha)).
Qed.

Lemma span_digits_app (d s : string) :
  all_chars is_digit d = true ->
  match s with String x _ => is_digit x = false | EmptyString => True end ->
  span_digits (d ++ s) = (d, s).
Proof.
  intros Hd Hs. induction d as [|c d IH].
  - rewrite app_nil_l. destruct s as [|x s]; [reflexivity|].
    cbn [span_digits]. now rewrite Hs.
  - cbn [all_chars] in Hd. apply andb_true_iff in Hd. destruct Hd as [Hc Hd].
    rewrite app_cons. cbn [span_digits]. now rewrite Hc, (IH Hd).
Qed.

(** [float] reads digits, a point and digits as their decimal value. *)
Lemma py_float_decimal (ip fp : string) :
  all_chars is_digit ip = true -> all_chars is_digit fp = true ->
  ip ++ fp <> EmptyString ->
  py_float (ip ++ "." ++ fp) =
  Ok (of_decimal false (digits_val 0 (ip ++ fp)) (- Z.of_nat (String.length fp))).
Proof.
  intros Hi Hf Hne.
  assert (Hall : all_chars (fun c => is_digit c || Ascii.eqb c ".") (ip ++ "." ++ fp) = true).
  { rewrite !all_chars_app.
    rewrite (all_chars_impl is_digit _ ip), (all_chars_impl is_digit _ fp); try done;
      intros x ->; reflexivity. }
  unfold py_float. rewrite strip_by_none.
  2:{ revert Hall. apply all_chars_impl. intros x Hx. now rewrite dotdigit_not_blank. }
  assert (Hhead : exists x t, ip ++ "." ++ fp = String x t /\
                              is_digit x || Ascii.eqb x "." = true).
  { destruct ip as [|x ip]; [exists "."%char, fp; done|].
    exists x, (ip ++ "." ++ fp). split; [reflexivity|].
    cbn [all_chars] in Hi. apply andb_true_iff in Hi. destruct Hi as [-> _]. reflexivity. }
  destruct Hhead as (x & t & Heq & Hx). rewrite Heq.
  rewrite (dotdigit_not_sign x t Hx).
  destruct (dotdigit_not_word x t Hx) as [-> ->].
  rewrite <- Heq. rewrite (drop_underscores_none _ Hall) by reflexivity.
  unfold parse_decimal.
  change (ip ++ "." ++ fp) with (ip ++ String "." fp).
  rewrite (span_digits_app ip (String "." fp) Hi eq_refl).
  rewrite <- (app_empty_r fp) at 1. rewrite (span_digits_app fp EmptyString Hf I).
  destruct (ip ++ fp) as [|c ds] eqn:E; [done|].
  cbn [parse_exponent]. reflexivity.
Qed.

(** [float] reads a non-empty string of digits as the integer it writes. *)
Lemma py_float_digits (ip : string) :
  all_chars is_digit ip = true -> ip <> EmptyString ->
  py_float ip = Ok (of_decimal false (digits_val 0 ip) 0).
Proof.
  intros Hi Hne.
  assert (Hall : all_chars (fun c => is_digit c || Ascii.eqb c ".") ip = true).
  { revert Hi. apply all_chars_impl. intros x ->. reflexivity. }
  unfold py_float. rewrite strip_by_none.
  2:{ revert Hall. apply all_chars_impl. intros x Hx. now rewrite dotdigit_not_blank. }
  destruct ip as [|x t]; [done|].
  assert (Hx : is_digit x || Ascii.eqb x "." = true).
  { cbn [all_chars] in Hi. apply andb_true_iff in Hi. destruct Hi as [-> _]. reflexivity. }
  rewrite (dotdigit_not_sign x t Hx).
  destruct (dotdigit_not_word x t Hx) as [-> ->].
  rewrite (drop_underscores_none _ Hall) by reflexivity.
  unfold parse_decimal.
  rewrite <- (app_empty_r (String x t)) at 1.
  rewrite (span_digits_app (String x t) EmptyString Hi I).
  rewrite app_empty_r. reflexivity.
Qed.

Lemma replace_blank_digits (ip fp : string) :
  all_chars is_digit ip = true -> all_chars is_digit fp = true ->
  replace " " "" (ip ++ "." ++ fp) = ip ++ "." ++ fp.
Proof.
  intros Hi Hf. unfold replace.
  rewrite (replace_from_digits " " _ _ _ _ eq_refl Hi).
  change ("." ++ fp) with (String "." fp).
  rewrite replace_from_miss by reflexivity.
  f_equal. f_equal. now apply replace_digits.
Qed.

Lemma grouped_numeral (rest : list (ascii * string)) :
  forall first, well_grouped first rest ->
    all_chars is_numeral (grouped first rest) = true.
Proof.
  assert (Hd : forall d, all_chars is_digit d = true -> all_chars is_numeral d = true).
  { intros d. apply all_chars_impl. intros x Hx. unfold is_numeral. now rewrite Hx. }
  induction rest as [|[s g] rest IH]; intros first [Hf Hr]; [now apply Hd|].
  inversion Hr as [|? ? (Hs & Hne & Hg) Hr']; subst. simpl in Hs, Hg.
  cbn [grouped]. rewrite all_chars_app, (Hd _ Hf). cbn [all_chars andb].
  rewrite (IH g (conj Hg Hr')). destruct Hs as [-> | ->]; reflexivity.
Qed.

Lemma merge_thousands_digits (d : string) :
  all_chars is_digit d = true -> merge_thousands d = d.
Proof.
  intros Hd. unfold merge_thousands.
  pose proof (split_length "." d) as Hlen. rewrite (split_digits d Hd) in Hlen.
  injection Hlen as <-. reflexivity.
Qed.

(** What [fix_float] hands to [float] for a grouped number. *)
Lemma fix_float_clean_grouped (first : string) (rest : list (ascii * string)) :
  well_grouped first rest -> rest <> [] ->
  fix_float_clean (grouped first rest) =
  int_part first rest ++ "." ++ last_group first rest.
Proof.
  intros Hw Hne.
  destruct (int_part_digits rest first Hw) as (Hi & Hl & _).
  unfold fix_float_clean. cbv zeta. rewrite merge_thousands_code.
  unfold strip. rewrite strip_by_none.
  2:{ generalize (grouped_numeral rest first Hw). apply all_chars_impl.
      intros x Hx. now rewrite numeral_not_space. }
  rewrite (replace_grouped_absent "S" _ eq_refl rest first Hw).
  rewrite (replace_grouped_absent "_" _ eq_refl rest first Hw).
  rewrite (replace_grouped_point_comma rest first Hw).
  rewrite (replace_grouped_comma rest first Hw).
  fold (collapse_dot_runs
          (merge_thousands (grouped first (map (fun sg => ("."%char, snd sg)) rest)))).
  rewrite (collapse_dot_runs_idle _ (merge_thousands_dots _)).
  rewrite (merge_thousands_grouped rest first Hw Hne).
  rewrite (replace_blank_digits _ _ Hi Hl).
  destruct (int_part first rest); reflexivity.
Qed.

Lemma fix_float_clean_digits (d : string) :
  all_chars is_digit d = true -> d <> EmptyString -> fix_float_clean d = d.
Proof.
  intros Hd Hne. unfold fix_float_clean. cbv zeta. rewrite merge_thousands_code.
  rewrite (strip_digits d Hd).
  rewrite !(replace_digits _ _ _ d) by done.
  fold (collapse_dot_runs (merge_thousands d)).
  rewrite (collapse_dot_runs_idle _ (merge_thousands_dots _)).
  rewrite (merge_thousands_digits d Hd).
  rewrite (replace_digits _ _ _ d) by done.
  destruct d; [done | reflexivity].
Qed.

End Decimals.

(** X26.  [fix_float] reads a number written in groups of digits separated by
    points or commas as follows: the last separator is the decimal point and
    all the others are dropped, so the groups before the last form the integer
    part and the last group the decimals; the result is the nearest [float].
    A single group of digits is read as the integer it writes. *)
Theorem X26_fix_float_groups (first : string) (rest : list (ascii * string)) :
  well_grouped first rest ->
  (rest <> [] ->
   fix_float_clean (grouped first rest) =
     int_part first rest ++ "." ++ last_group first rest /\
   fix_float (grouped first rest) =
     of_decimal false (digits_val 0 (int_part first rest ++ last_group first rest))
       (- Z.of_nat (String.length (last_group first rest)))) /\
  (rest = [] -> first <> EmptyString ->
   fix_float first = of_decimal false (digits_val 0 first) 0).
Proof.
  intros Hw. split.
  - intros Hne.
    destruct (int_part_digits rest first Hw) as (Hi & Hl & Hn). specialize (Hn Hne).
    pose proof (fix_float_clean_grouped first rest Hw Hne) as Hclean.
    split; [exact Hclean|].
    unfold fix_float. rewrite Hclean, (py_float_decimal _ _ Hi Hl); [reflexivity|].
    intros H. apply Hn. destruct (int_part first rest); [exact H | discriminate].
  - intros _ Hne. destruct Hw as [Hf _].
    unfold fix_float. rewrite (fix_float_clean_digits first Hf Hne).
    now rewrite (py_float_digits first Hf Hne).
Qed.

Lemma X26_fix_float_groups_witness :
  well_grouped "1" [("."%char, "234"); (","%char, "56")] /\
  grouped "1" [("."%char, "234"); (","%char, "56")] = "1.234,56" /\
  fix_float_clean "1.234,56" = "1234.56" /\
  fix_float "1.234,56" = lit 123456 2.
Proof.
  assert (Hw : well_grouped "1" [("."%char, "234"); (","%char, "56")]).
  { split; [reflexivity|].
    constructor; [split; [left; reflexivity | split; [discriminate | reflexivity]]|].
    constructor; [split; [right; reflexivity | split; [discriminate | reflexivity]]|].
    constructor. }
  split; [exact Hw|]. split; [reflexivity|].
  destruct (X26_fix_float_groups "1" [("."%char, "234"); (","%char, "56")] Hw)
    as [H _].
  exact (H ltac:(discriminate)).
Defined.

Section NotANumber.

Lemma exceeds_nan_r (exp : float) : exceeds exp S754_nan = false.
Proof. destruct exp as [| | |[] ? ?]; reflexivity. Qed.

Lemma exceeds_nan_l (act : float) : exceeds S754_nan act = false.
Proof. destruct act as [| | |[] ? ?]; reflexivity. Qed.

Lemma fmul_nan_r (x : float) : fmul x S754_nan = S754_nan.
Proof. destruct x as [| | |[] ? ?]; reflexivity. Qed.

Lemma product_flag_nan (p : product) :
  total_price p = S754_nan \/ unit_price p = S754_nan -> product_flag p = [].
Proof.
  intros [H|H]; unfold product_flag, int_mul_float; rewrite H.
  - destruct (float_of_int (quantity p)); cbn [bind]; [|reflexivity].
    now rewrite exceeds_nan_r.
  - destruct (float_of_int (quantity p)); cbn [bind]; [|reflexivity].
    now rewrite fmul_nan_r, exceeds_nan_l.
Qed.

End NotANumber.

(** X27.  A price or a total that is not a number silences the price check:
    products whose unit price or total is NaN are never reported, whatever
    their other numbers. *)
Theorem X27_nan_not_reported (ps : list product) :
  Forall (fun p => in_float_range (quantity p) /\
                   (total_price p = S754_nan \/ unit_price p = S754_nan)) ps ->
  generate_consistency_report_for_products ps =
  Ok {| price_mismatches := []; total_inconsistencies := 0 |}.
Proof.
  intros H.
  rewrite product_report_in_range by (eapply Forall_impl; [exact H | now intros p [? _]]).
  assert (Hnil : flat_map product_flag ps = []).
  { induction H as [|p ps [_ Hp] _ IH]; [reflexivity|].
    cbn [flat_map]. now rewrite (product_flag_nan p Hp), IH. }
  now rewrite Hnil.
Qed.

Lemma X27_nan_not_reported_witness :
  total_price
    (row_to_product
       (to_dict ["Product Code"; "Qty"; "Price"; "Total"] ["PRD-9"; "2"; "2.50"; "nan"]))
  = S754_nan /\
  generate_consistency_report_for_products
    [row_to_product
       (to_dict ["Product Code"; "Qty"; "Price"; "Total"] ["PRD-9"; "2"; "2.50"; "nan"])]
  = Ok {| price_mismatches := []; total_inconsistencies := 0 |}.
Proof.
  split; [vm_compute; reflexivity|].
  apply X27_nan_not_reported. constructor; [|constructor].
  split; [eexists; vm_compute; reflexivity | left; vm_compute; reflexivity].
Defined.
